(** * WhispraOS native loopback capture: a shallow embedding

    This development embeds the two native capture add-ons of the
    repository,

    - [src/native-wasapi-loopback/wasapi_loopback.cc]   (module [Wasapi])
    - [src/native-coreaudio-loopback/coreaudio_loopback.cc] (module [CoreAudio])

    and the signal chain they share (module [Dsp]), the RIFF/WAVE frame
    packager (module [Wav]) and the process directory (module [Procs]).

    Numeric model.  The C++ code computes on [float] and [double].  Those
    values are modelled by the real numbers [R] with exact arithmetic:
    [cosf], [sinf], [sqrtf] and [expf] are the real functions, and a cast
    [(int)] or [(size_t)] of a floating value is truncation toward zero
    ([Rtrunc]).  The rounding error of binary32 and binary64 arithmetic is
    outside the model; module [Ieee] evaluates the one expression whose
    result is a count, the output length of the resampler, in binary64 as
    well.  Integers ([uint32_t], [int], [int16_t], bytes) are
    [Z] with their wrap-around written out where the code can reach it.

    Control model.  The capture thread is sequentialised: [Start] runs the
    thread body up to the point where it either has left (a failed
    acquisition) or has entered its loop; the loop is then driven one
    iteration, respectively one device callback, at a time. *)

From Stdlib Require Import Reals Lra Lia ZArith String Ascii Bool List.
From Stdlib Require Import Floats.SpecFloat.
Import ListNotations.

Local Open Scope Z_scope.

(** ** Casts from floating values to integers *)

(** [(int)x] and [(size_t)x] on a floating [x]: the fractional part is
    discarded (truncation toward zero). *)
Definition Rtrunc (r : R) : Z :=
  if Rle_dec 0 r then Int_part r else - Int_part (- r).


(** ** The signal chain shared by both add-ons

    [ProcessAudioBuffer] in coreaudio_loopback.cc (lines 182-336) and the
    body of the drain loop in wasapi_loopback.cc (lines 234-340) are the
    same code; the CoreAudio file says so itself ("ported from WASAPI"). *)
Module Dsp.
Local Open Scope R_scope.

Definition outRate : Z := 16000.

(** *** struct BiquadHPF *)
Record BiquadHPF : Type := mkBiquadHPF {
  b0 : R; b1 : R; b2 : R; a1 : R; a2 : R;
  z1 : R; z2 : R
}.

(** [BiquadHPF::setup(fs, fc, Q)] *)
Definition setup (fs fc Q : R) : BiquadHPF :=
  let w0 := 2 * PI * (fc / fs) in
  let c := cos w0 in
  let s := sin w0 in
  let alpha := s / (2 * Q) in
  let a0 := 1 + alpha in
  {| b0 := (1 + c) * 0.5 / a0;
     b1 := - (1 + c) / a0;
     b2 := (1 + c) * 0.5 / a0;
     a1 := (-2 * c) / a0;
     a2 := (1 - alpha) / a0;
     z1 := 0; z2 := 0 |}.

(** [BiquadHPF::process(x)]: the new registers and the output [y]. *)
Definition process (h : BiquadHPF) (x : R) : BiquadHPF * R :=
  let y := b0 h * x + z1 h in
  ({| b0 := b0 h; b1 := b1 h; b2 := b2 h; a1 := a1 h; a2 := a2 h;
      z1 := b1 h * x + z2 h - a1 h * y;
      z2 := b2 h * x - a2 h * y |}, y).

(** *** Filter and gate state of one session *)
Record State : Type := mkState {
  hpf : BiquadHPF;
  env : R;
  noiseFloor : R;
  gainSmooth : R;
  aEnv : R; aRise : R; aAtk : R; aRel : R
}.

Definition outFs : R := 16000.
Definition tauEnv : R := 0.010.
Definition tauRise : R := 0.500.
Definition tauAtk : R := 0.005.
Definition tauRel : R := 0.050.

(** The initialisation both files perform once per session
    (wasapi 202-216, coreaudio 790-802). *)
Definition init : State :=
  {| hpf := setup outFs 90 0.7071;
     env := 0;
     noiseFloor := 0.003;
     gainSmooth := 1;
     aEnv := exp (-1 / (tauEnv * outFs));
     aRise := exp (-1 / (tauRise * outFs));
     aAtk := exp (-1 / (tauAtk * outFs));
     aRel := exp (-1 / (tauRel * outFs)) |}.

(** [x < 0 ? -x : x] *)
Definition fabs (x : R) : R := if Rlt_dec x 0 then - x else x.

(** [if (m > 1.0f) m = 1.0f; else if (m < -1.0f) m = -1.0f;] *)
Definition clip1 (m : R) : R :=
  if Rgt_dec m 1 then 1 else if Rlt_dec m (-1) then -1 else m.

(** *** 1) mix-down to mono *)

(** The device buffer, interleaved, as the format makes the code read it. *)
Inductive Samples : Type :=
| FloatSamples (f : list R)
| Int16Samples (s : list Z).

Definition mix_float (f : list R) (inCh : nat) (i : nat) : R :=
  let sum := fold_left (fun sum c => sum + nth (i * inCh + c) f 0) (seq 0 inCh) 0 in
  clip1 (sum / INR inCh).

Definition mix_int16 (s : list Z) (inCh : nat) (i : nat) : R :=
  let sum := fold_left (fun sum c => (sum + nth (i * inCh + c) s 0)%Z) (seq 0 inCh) 0%Z in
  clip1 (IZR sum / INR inCh / 32768).

Definition to_mono (data : Samples) (inCh : nat) (frames : nat) : list R :=
  match data with
  | FloatSamples f => map (mix_float f inCh) (seq 0 frames)
  | Int16Samples s => map (mix_int16 s inCh) (seq 0 frames)
  end.

(** *** 2) resampling to 16 kHz *)

(** [size_t outLen = (size_t)((double)mono.size() * (double)outRate /
    (double)inRate); if (outLen == 0) outLen = 1;] *)
Definition resample_len (n : Z) (inRate : Z) : Z :=
  let outLen := Rtrunc (IZR n * IZR outRate / IZR inRate) in
  if (outLen =? 0)%Z then 1%Z else outLen.

(** One output sample of the interpolation loop.  ([mono] is not empty
    when the loop runs on a device buffer; on an empty [mono] the code
    indexes out of bounds and the model reads 0.) *)
Definition resample_at (mono : list R) (inRate : Z) (i : nat) : R :=
  let size := length mono in
  let pos := INR i * IZR inRate / IZR outRate in
  let idx := Z.to_nat (Rtrunc pos) in
  let frac := pos - INR idx in
  let a := nth (if (idx <? size)%nat then idx else (size - 1)%nat) mono 0 in
  let b := nth (if (idx + 1 <? size)%nat then (idx + 1)%nat else (size - 1)%nat) mono 0 in
  (1 - frac) * a + frac * b.

Definition resample (mono : list R) (inRate : Z) : list R :=
  let outLen := resample_len (Z.of_nat (length mono)) inRate in
  map (resample_at mono inRate) (seq 0 (Z.to_nat outLen)).

(** *** 3) high-pass and adaptive gate, one sample *)

(** [env = aEnv * env + (1 - aEnv) * av] *)
Definition envelope (aEnv env av : R) : R := aEnv * env + (1 - aEnv) * av.

(** [if (env < noiseFloor) noiseFloor = env;
     else noiseFloor = noiseFloor + (env - noiseFloor) * (1 - aRise);
     if (noiseFloor < 1e-6f) noiseFloor = 1e-6f;] *)
Definition noise_floor_update (aRise env noiseFloor : R) : R :=
  let nf := if Rlt_dec env noiseFloor then env
            else noiseFloor + (env - noiseFloor) * (1 - aRise) in
  if Rlt_dec nf 1e-6 then 1e-6 else nf.

(** [thr = noiseFloor * 2.5f + 1e-6f;
     tGain = (env > thr) ? 1.0f : (env / thr); tGain = sqrtf(tGain);] *)
Definition target_gain (env noiseFloor : R) : R :=
  let thr := noiseFloor * 2.5 + 1e-6 in
  let tGain := if Rgt_dec env thr then 1 else env / thr in
  sqrt tGain.

(** [a = (tGain < gainSmooth) ? aAtk : aRel;
     gainSmooth = tGain + (gainSmooth - tGain) * a;] *)
Definition smooth_gain (aAtk aRel tGain gainSmooth : R) : R :=
  let a := if Rlt_dec tGain gainSmooth then aAtk else aRel in
  tGain + (gainSmooth - tGain) * a.

(** The body of the per-sample loop: the new state and the gated sample. *)
Definition gate_sample (d : State) (x0 : R) : State * R :=
  let (h, x) := process (hpf d) x0 in
  let av := fabs x in
  let env' := envelope (aEnv d) (env d) av in
  let nf' := noise_floor_update (aRise d) env' (noiseFloor d) in
  let tGain := target_gain env' nf' in
  let gs' := smooth_gain (aAtk d) (aRel d) tGain (gainSmooth d) in
  ({| hpf := h; env := env'; noiseFloor := nf'; gainSmooth := gs';
      aEnv := aEnv d; aRise := aRise d; aAtk := aAtk d; aRel := aRel d |},
   x * gs').

Fixpoint gate_buffer (d : State) (xs : list R) : State * list R :=
  match xs with
  | [] => (d, [])
  | x :: rest =>
      let (d1, y) := gate_sample d x in
      let (d2, ys) := gate_buffer d1 rest in
      (d2, y :: ys)
  end.

(** *** 4) voice boost with limiter *)

(** [for (float v : resampled) { av2 = |v|; if (av2 > peak) peak = av2; }] *)
Definition peak_of (resampled : list R) : R :=
  fold_left (fun peak v => let av2 := fabs v in
                           if Rgt_dec av2 peak then av2 else peak)
            resampled 0.

Definition kVoiceBoost : R := 1.5.

(** [if (peak < 1e-6f) gain = kVoiceBoost;
     else gain = (peak * kVoiceBoost > 0.99f) ? (0.99f / peak) : kVoiceBoost;] *)
Definition boost_gain (peak : R) : R :=
  if Rlt_dec peak 1e-6 then kVoiceBoost
  else if Rgt_dec (peak * kVoiceBoost) 0.99 then 0.99 / peak
  else kVoiceBoost.

(** *** 5) quantisation to int16 *)

(** The loop body after [float x = resampled[i] * gain;]. *)
Definition quantize (x : R) : Z :=
  let x := clip1 x in
  let s := Rtrunc (x * 32767 + (if Rge_dec x 0 then 0.5 else -0.5)) in
  let s := if (s >? 32767)%Z then 32767%Z else s in
  let s := if (s <? -32768)%Z then (-32768)%Z else s in
  s.

Definition quantize_buffer (resampled : list R) (gain : R) : list Z :=
  map (fun v => quantize (v * gain)) resampled.

(** Steps 1 to 5 on one device buffer: the new session state and the
    int16 samples. *)
Definition condition (d : State) (inRate : Z) (inCh : nat)
           (frames : nat) (data : Samples) : State * list Z :=
  let mono := to_mono data inCh frames in
  let resampled := resample mono inRate in
  let (d', gated) := gate_buffer d resampled in
  let gain := boost_gain (peak_of gated) in
  (d', quantize_buffer gated gain).
End Dsp.

(** ** The frame packager (wasapi 314-334, coreaudio 309-329) *)
Module Wav.
Definition u16 (x : Z) : Z := x mod 2 ^ 16.
Definition u32 (x : Z) : Z := x mod 2 ^ 32.

(** The object representation of an unsigned [w]-byte integer on the
    little-endian hosts both add-ons are built for. *)
Fixpoint le_bytes (w : nat) (v : Z) : list Z :=
  match w with
  | O => []
  | S w' => v mod 256 :: le_bytes w' (v / 256)
  end.

(** The value of the [w] bytes at [off], read back little-endian. *)
Fixpoint le_value (bs : list Z) : Z :=
  match bs with
  | [] => 0
  | b :: rest => b + 256 * le_value rest
  end.

Definition read_le (buf : list Z) (off w : nat) : Z :=
  le_value (firstn w (skipn off buf)).

Definition bytes_of_string (s : string) : list Z :=
  map (fun c => Z.of_N (N_of_ascii c)) (list_ascii_of_string s).

(** [memcpy(buf + off, src, |src|)] on a buffer that holds the range. *)
Definition memcpy (buf : list Z) (off : nat) (src : list Z) : list Z :=
  firstn off buf ++ src ++ skipn (off + length src) buf.

(** [*reinterpret_cast<uint16_t*>(buf + off) = v] *)
Definition store16 (buf : list Z) (off : nat) (v : Z) : list Z :=
  memcpy buf off (le_bytes 2 (u16 v)).

(** [*reinterpret_cast<uint32_t*>(buf + off) = v] *)
Definition store32 (buf : list Z) (off : nat) (v : Z) : list Z :=
  memcpy buf off (le_bytes 4 (u32 v)).

(** The bytes of [int16Samples.data()]: two's complement, low byte first. *)
Definition pcm_bytes (int16Samples : list Z) : list Z :=
  flat_map (fun s => le_bytes 2 (u16 s)) int16Samples.

Definition build_wav (int16Samples : list Z) : list Z :=
  let channels := 1 in
  let sampleRate := Dsp.outRate in
  let pcmDataSize := u32 (Z.of_nat (length int16Samples) * 2) in
  let totalSize := u32 (36 + pcmDataSize) in
  let wavBuffer := repeat 0 (Z.to_nat (u32 (44 + pcmDataSize))) in
  let wavBuffer := memcpy wavBuffer 0 (bytes_of_string "RIFF") in
  let wavBuffer := store32 wavBuffer 4 totalSize in
  let wavBuffer := memcpy wavBuffer 8 (bytes_of_string "WAVE") in
  let wavBuffer := memcpy wavBuffer 12 (bytes_of_string "fmt ") in
  let wavBuffer := store32 wavBuffer 16 16 in
  let wavBuffer := store16 wavBuffer 20 1 in
  let wavBuffer := store16 wavBuffer 22 channels in
  let wavBuffer := store32 wavBuffer 24 sampleRate in
  let wavBuffer := store32 wavBuffer 28 (sampleRate * channels * 2) in
  let wavBuffer := store16 wavBuffer 32 (channels * 2) in
  let wavBuffer := store16 wavBuffer 34 16 in
  let wavBuffer := memcpy wavBuffer 36 (bytes_of_string "data") in
  let wavBuffer := store32 wavBuffer 40 pcmDataSize in
  memcpy wavBuffer 44 (firstn (Z.to_nat pcmDataSize) (pcm_bytes int16Samples)).

(** The layout of section 6 of the specification, written from its words:
    the twelve header fields in order, then the samples. *)
Definition spec_header (pcmDataSize : Z) : list Z :=
  bytes_of_string "RIFF" ++ le_bytes 4 (36 + pcmDataSize) ++
  bytes_of_string "WAVE" ++ bytes_of_string "fmt " ++
  le_bytes 4 16 ++ le_bytes 2 1 ++ le_bytes 2 1 ++
  le_bytes 4 16000 ++ le_bytes 4 32000 ++ le_bytes 2 2 ++ le_bytes 2 16 ++
  bytes_of_string "data" ++ le_bytes 4 pcmDataSize.
End Wav.

(** ** The process directory *)
Module Procs.
(** The snapshot [EnumerateAllProcesses] returns, each PID with the name
    [GetProcessName] gives for it, in enumeration order. *)
Definition Directory : Type := list (Z * string).

(** [s.find(c)]: the position of the first [c], [None] for [npos]. *)
Fixpoint find (c : ascii) (s : string) : option nat :=
  match s with
  | EmptyString => None
  | String a rest =>
      if Ascii.eqb a c then Some O else option_map S (find c rest)
  end.

(** [dotPos = s.find('.'); if (dotPos != npos) s = s.substr(0, dotPos);] *)
Definition base_name (s : string) : string :=
  match find "."%char s with
  | Some dotPos => substring 0 dotPos s
  | None => s
  end.

(** The C library's [tolower] on the ASCII range. *)
Definition tolower (c : ascii) : ascii :=
  let n := nat_of_ascii c in
  if ((65 <=? n) && (n <=? 90))%nat then ascii_of_nat (n + 32) else c.

(** [s.c_str()] as a C string: what a [char*] reader sees, up to the
    first NUL. *)
Fixpoint c_str (s : string) : string :=
  match s with
  | EmptyString => EmptyString
  | String a rest =>
      if Ascii.eqb a zero then EmptyString else String a (c_str rest)
  end.

(** [_stricmp] on two C strings: the difference of the first pair of
    lower-cased characters that differ, 0 when there is none. *)
Fixpoint stricmp_chars (a b : string) : Z :=
  match a, b with
  | EmptyString, EmptyString => 0
  | EmptyString, String y _ => - Z.of_nat (nat_of_ascii (tolower y))
  | String x _, EmptyString => Z.of_nat (nat_of_ascii (tolower x))
  | String x a', String y b' =>
      let d := Z.of_nat (nat_of_ascii (tolower x))
               - Z.of_nat (nat_of_ascii (tolower y)) in
      if d =? 0 then stricmp_chars a' b' else d
  end.

Definition _stricmp (a b : string) : Z := stricmp_chars (c_str a) (c_str b).

(** The first loop of [FindPidForProcess]: the first PID whose name
    satisfies [same name processName]. *)
Fixpoint first_match (same : string -> string -> bool)
         (allPids : Directory) (processName : string) : option Z :=
  match allPids with
  | [] => None
  | (pid, name) :: rest =>
      if same name processName then Some pid
      else first_match same rest processName
  end.

(** The second loop: the first PID whose name, cut at its first dot,
    satisfies [same nameBase baseName]. *)
Fixpoint first_base_match (same : string -> string -> bool)
         (allPids : Directory) (baseName : string) : option Z :=
  match allPids with
  | [] => None
  | (pid, name) :: rest =>
      let nameBase := base_name name in
      if same nameBase baseName then Some pid
      else first_base_match same rest baseName
  end.

(** [FindPidForProcess], with the comparison the backend uses. *)
Definition find_pid (same : string -> string -> bool)
           (allPids : Directory) (processName : string) : Z :=
  match first_match same allPids processName with
  | Some pid => pid
  | None =>
      let baseName := base_name processName in
      match first_base_match same allPids baseName with
      | Some pid => pid
      | None => 0
      end
  end.
End Procs.

(** ** What both add-ons hand to the outside world *)
Module Io.
(** [printf] output, the frames given to [tsfn_.BlockingCall], and the
    thread-safe functions on which [Release] was called. *)
Record Out : Type := mkOut {
  log : list string;
  delivered : list (list Z);
  released : list nat
}.

Definition empty : Out := {| log := []; delivered := []; released := [] |}.

Definition printf (msg : string) (o : Out) : Out :=
  {| log := log o ++ [msg]; delivered := delivered o; released := released o |}.

Definition BlockingCall (wavBuffer : list Z) (o : Out) : Out :=
  {| log := log o; delivered := delivered o ++ [wavBuffer]; released := released o |}.

Definition Release (tsfn : nat) (o : Out) : Out :=
  {| log := log o; delivered := delivered o; released := released o ++ [tsfn] |}.
End Io.

(** ** wasapi_loopback.cc: class WasapiLoopbackCapture *)
Module Wasapi.
(** The fields of [WAVEFORMATEX] the code reads. *)
Record WAVEFORMATEX : Type := mkFormat {
  nSamplesPerSec : Z;
  nChannels : nat;
  nBlockAlign : Z;
  isFloat : bool   (* the IEEE_FLOAT test of line 242 *)
}.

(** The outcome of each platform call of the capture thread; [true] is
    [SUCCEEDED(hr)] (for [CreateEvent]: a non-null handle). *)
Record Backend : Type := mkBackend {
  CoInitializeEx : bool;
  CoCreateInstance : bool;
  GetDefaultAudioEndpoint : bool;
  ActivateClient3 : bool;          (* line 101 *)
  ActivateClient1 : bool;          (* line 105 *)
  GetMixFormat : option WAVEFORMATEX;
  Initialize3 : bool;              (* lines 127, 140 *)
  ActivateClient1Fallback : bool;  (* line 157 *)
  Initialize1 : bool;              (* line 160 *)
  CreateEvent : bool;
  SetEventHandle : bool;
  GetService : bool;
  ClientStart : bool
}.

(** The locals of the thread lambda that own a platform resource. *)
Record Locals : Type := mkLocals {
  enumr : bool;
  device : bool;
  audioClient3 : bool;
  audioClient1 : bool;
  cap : bool;
  pwfx : option WAVEFORMATEX;
  hEvent : bool
}.

Definition no_locals : Locals :=
  {| enumr := false; device := false; audioClient3 := false;
     audioClient1 := false; cap := false; pwfx := None; hEvent := false |}.

(** Where the capture thread is. [Returned l] is a thread whose lambda has
    returned holding [l] and that nobody has joined yet: such a
    [std::thread] is still joinable. *)
Inductive Thread : Type :=
| NotAThread
| InLoop (l : Locals) (dsp : Dsp.State)
| Returned (l : Locals).

Definition joinable (t : Thread) : bool :=
  match t with NotAThread => false | _ => true end.

Record Capture : Type := mkCapture {
  capture_thread_ : Thread;
  running_ : bool;
  tsfn_ : nat;
  targetPid_ : Z;
  com_initialized : bool;
  out : Io.Out
}.

(** [WasapiLoopbackCapture() : running_(false), targetPid_(0) {}] *)
Definition new : Capture :=
  {| capture_thread_ := NotAThread; running_ := false; tsfn_ := O;
     targetPid_ := 0; com_initialized := false; out := Io.empty |}.

Definition with_thread (t : Thread) (w : Capture) : Capture :=
  {| capture_thread_ := t; running_ := running_ w; tsfn_ := tsfn_ w;
     targetPid_ := targetPid_ w; com_initialized := com_initialized w;
     out := out w |}.

Definition with_running (b : bool) (w : Capture) : Capture :=
  {| capture_thread_ := capture_thread_ w; running_ := b; tsfn_ := tsfn_ w;
     targetPid_ := targetPid_ w; com_initialized := com_initialized w;
     out := out w |}.

Definition with_com (b : bool) (w : Capture) : Capture :=
  {| capture_thread_ := capture_thread_ w; running_ := running_ w;
     tsfn_ := tsfn_ w; targetPid_ := targetPid_ w; com_initialized := b;
     out := out w |}.

Definition with_out (f : Io.Out -> Io.Out) (w : Capture) : Capture :=
  {| capture_thread_ := capture_thread_ w; running_ := running_ w;
     tsfn_ := tsfn_ w; targetPid_ := targetPid_ w;
     com_initialized := com_initialized w; out := f (out w) |}.

Definition printf (msg : string) : Capture -> Capture :=
  with_out (Io.printf msg).

(** *** The acquisition block, lines 93-173

    The result is [(true, l)] when control reaches line 174 and
    [(false, l)] when a [break] left the [do { } while (false)], with the
    locals as they are at that point. *)
Definition Acquired : Type := bool * Locals * list string.

Definition set_enumr (l : Locals) : Locals :=
  {| enumr := true; device := device l; audioClient3 := audioClient3 l;
     audioClient1 := audioClient1 l; cap := cap l; pwfx := pwfx l;
     hEvent := hEvent l |}.
Definition set_device (l : Locals) : Locals :=
  {| enumr := enumr l; device := true; audioClient3 := audioClient3 l;
     audioClient1 := audioClient1 l; cap := cap l; pwfx := pwfx l;
     hEvent := hEvent l |}.
Definition set_audioClient3 (b : bool) (l : Locals) : Locals :=
  {| enumr := enumr l; device := device l; audioClient3 := b;
     audioClient1 := audioClient1 l; cap := cap l; pwfx := pwfx l;
     hEvent := hEvent l |}.
Definition set_audioClient1 (b : bool) (l : Locals) : Locals :=
  {| enumr := enumr l; device := device l; audioClient3 := audioClient3 l;
     audioClient1 := b; cap := cap l; pwfx := pwfx l; hEvent := hEvent l |}.
Definition set_cap (b : bool) (l : Locals) : Locals :=
  {| enumr := enumr l; device := device l; audioClient3 := audioClient3 l;
     audioClient1 := audioClient1 l; cap := b; pwfx := pwfx l;
     hEvent := hEvent l |}.
Definition set_pwfx (f : option WAVEFORMATEX) (l : Locals) : Locals :=
  {| enumr := enumr l; device := device l; audioClient3 := audioClient3 l;
     audioClient1 := audioClient1 l; cap := cap l; pwfx := f;
     hEvent := hEvent l |}.
Definition set_hEvent (b : bool) (l : Locals) : Locals :=
  {| enumr := enumr l; device := device l; audioClient3 := audioClient3 l;
     audioClient1 := audioClient1 l; cap := cap l; pwfx := pwfx l;
     hEvent := b |}.

(** Lines 165-173, common to both clients. *)
Definition common_setup (be : Backend) (l : Locals) (msgs : list string) : Acquired :=
  if negb (CreateEvent be) then (false, l, msgs ++ ["[addon] CreateEvent failed"%string])
  else
    let l := set_hEvent true l in
    if negb (SetEventHandle be) then (false, l, msgs ++ ["[addon] SetEventHandle failed"%string])
    else if negb (GetService be) then
      (false, l, msgs ++ ["[addon] GetService(IAudioCaptureClient) failed"%string])
    else
      let l := set_cap true l in
      if negb (ClientStart be) then (false, l, msgs ++ ["[addon] AudioClient Start failed"%string])
      else (true, l, msgs ++ ["[addon] Capture started. Entering loop..."%string]).

(** Lines 153-163: the system-wide client when there is no working
    IAudioClient3. *)
Definition fallback_client (be : Backend) (l : Locals) (msgs : list string) : Acquired :=
  if audioClient3 l then common_setup be l msgs
  else
    let activated :=
      if audioClient1 l then Some l
      else if ActivateClient1Fallback be then Some (set_audioClient1 true l)
      else None in
    match activated with
    | None => (false, l, msgs ++ ["[addon] Activate IAudioClient (fallback) failed"%string])
    | Some l =>
        if negb (Initialize1 be) then
          (false, l, msgs ++ ["[addon] IAudioClient Initialize failed"%string])
        else common_setup be l (msgs ++ ["[addon] IAudioClient Initialize (system) OK"%string])
    end.

(** Lines 117-151: the attempt on IAudioClient3. *)
Definition initialize3 (be : Backend) (pid : Z) (l : Locals) (msgs : list string) : Acquired :=
  if audioClient3 l then
    let msgs := msgs ++ ["[addon] Current process PID"%string] in
    let '(initialized3, msgs) :=
      if pid =? 0 then
        if negb (Initialize3 be)
        then (false, msgs ++ ["[addon] IAudioClient3 Initialize (system) failed"%string])
        else (true, msgs ++ ["[addon] IAudioClient3 Initialize (system) OK"%string])
      else if pid >? 0 then
        if negb (Initialize3 be)
        then (false, msgs ++ ["[addon] IAudioClient3 Initialize (target process) failed"%string])
        else (true, msgs ++ ["[addon] IAudioClient3 Initialize (target process) OK"%string])
      else (false, msgs) in
    let l := if negb initialized3 then set_audioClient3 false l else l in
    fallback_client be l msgs
  else fallback_client be l msgs.

Definition acquire (be : Backend) (pid : Z) : Acquired :=
  let l := no_locals in
  if negb (CoCreateInstance be) then
    (false, l, ["[addon] Create MMDeviceEnumerator failed"%string])
  else
    let l := set_enumr l in
    if negb (GetDefaultAudioEndpoint be) then
      (false, l, ["[addon] GetDefaultAudioEndpoint failed"%string])
    else
      let l := set_device l in
      let activation :=
        if ActivateClient3 be then Some (set_audioClient3 true l, [])
        else
          let msgs := ["[addon] Activate IAudioClient3 failed or not available"%string] in
          if ActivateClient1 be then Some (set_audioClient1 true l, msgs)
          else None in
      match activation with
      | None =>
          (false, l, ["[addon] Activate IAudioClient3 failed or not available"%string;
                      "[addon] Activate IAudioClient failed"%string])
      | Some (l, msgs) =>
          match GetMixFormat be with
          | None => (false, l, msgs ++ ["[addon] GetMixFormat failed"%string])
          | Some fmt => initialize3 be pid (set_pwfx (Some fmt) l) msgs
          end
      end.

(** Lines 351-357: what the thread gives back after the block. *)
Definition cleanup (l : Locals) : Locals :=
  let l := if hEvent l then set_hEvent false l else l in
  let l := if cap l then set_cap false l else l in
  let l := if audioClient3 l then set_audioClient3 false l else l in
  let l := if audioClient1 l then set_audioClient1 false l else l in
  let l := if device l then
             {| enumr := enumr l; device := false; audioClient3 := audioClient3 l;
                audioClient1 := audioClient1 l; cap := cap l; pwfx := pwfx l;
                hEvent := hEvent l |}
           else l in
  let l := if enumr l then
             {| enumr := false; device := device l; audioClient3 := audioClient3 l;
                audioClient1 := audioClient1 l; cap := cap l; pwfx := pwfx l;
                hEvent := hEvent l |}
           else l in
  match pwfx l with Some _ => set_pwfx None l | None => l end.

(** Lines 351-360 on the capture object.  (When the loop ends, lines
    346-347 stop the stream first; that releases nothing.) *)
Definition leave (l : Locals) (w : Capture) : Capture :=
  let w := with_thread (Returned (cleanup l)) w in
  let w := with_out (Io.Release (tsfn_ w)) w in
  with_com false w.

(** The thread lambda from its entry to the point where it either has
    returned or stands at [while (running_)]. *)
Definition thread_entry (be : Backend) (pid : Z) (w : Capture) : Capture :=
  if negb (CoInitializeEx be) then
    let w := printf "[addon] CoInitializeEx failed" w in
    let w := with_running false w in
    let w := with_out (Io.Release (tsfn_ w)) w in
    with_thread (Returned no_locals) w
  else
    let w := with_com true w in
    let '(ok, l, msgs) := acquire be pid in
    let w := with_out (fun o => fold_left (fun o m => Io.printf m o) msgs o) w in
    if ok then with_thread (InLoop l Dsp.init) w
    else leave l w.

(** [bool Start(DWORD pid, Napi::ThreadSafeFunction tsfn)].  [None] is
    [std::terminate]: line 81 move-assigns to [capture_thread_], which the
    C++ library answers with [terminate] when the thread is joinable. *)
Definition Start (be : Backend) (pid : Z) (tsfn : nat) (w : Capture)
  : option (bool * Capture) :=
  if running_ w then Some (false, w)
  else
    let w := with_running true w in
    let w := {| capture_thread_ := capture_thread_ w; running_ := running_ w;
                tsfn_ := tsfn; targetPid_ := pid;
                com_initialized := com_initialized w; out := out w |} in
    let w := printf "[addon] Starting system-wide WASAPI loopback capture for PID" w in
    let w := printf "[addon] NOTE: To exclude Whispra TTS, route it through a separate virtual audio device" w in
    if joinable (capture_thread_ w) then None
    else Some (true, thread_entry be pid w).

(** *** The capture loop, lines 219-344 *)

(** What the capture client answers inside one [for (;;)]. *)
Inductive Packet : Type :=
| PacketSizeFailed
| GetBufferFailed
| Buffer (frames : nat) (data : Dsp.Samples).

(** The [for (;;)] of lines 223-343 over the answers the client gives;
    the end of the list is [packet == 0]. *)
Fixpoint drain (fmt : WAVEFORMATEX) (packets : list Packet)
         (dsp : Dsp.State) (o : Io.Out) : Dsp.State * Io.Out :=
  match packets with
  | [] => (dsp, o)
  | PacketSizeFailed :: _ => (dsp, o)
  | GetBufferFailed :: _ => (dsp, Io.printf "[addon] GetBuffer failed" o)
  | Buffer frames data :: rest =>
      let '(dsp, int16Samples) :=
        Dsp.condition dsp (nSamplesPerSec fmt) (nChannels fmt) frames data in
      let wavBuffer := Wav.build_wav int16Samples in
      drain fmt rest dsp (Io.BlockingCall wavBuffer o)
  end.

(** One turn of [while (running_)]: the test, the wait on [hEvent]
    ([signaled] is [wr == WAIT_OBJECT_0]) and the drain; when the test
    fails, lines 346-360. *)
Definition loop_turn (signaled : bool) (packets : list Packet) (w : Capture) : Capture :=
  match capture_thread_ w with
  | InLoop l dsp =>
      if negb (running_ w) then leave l w
      else if negb signaled then w
      else
        match pwfx l with
        | Some fmt =>
            let '(dsp, o) := drain fmt packets dsp (out w) in
            with_out (fun _ => o) (with_thread (InLoop l dsp) w)
        | None => w
        end
  | _ => w
  end.

(** [void Stop()]: the flag, then the join, which lets a looping thread
    see the flag and leave. *)
Definition Stop (w : Capture) : Capture :=
  let w := with_running false w in
  let w := if joinable (capture_thread_ w)
           then with_thread NotAThread (loop_turn false [] w)
           else w in
  printf "[addon] WASAPI loopback capture stopped" w.

(** [DWORD FindPidForProcess(const std::string& processName)], lines
    480-518, on the snapshot [allPids]: names are compared with
    [_stricmp(...) == 0]. *)
Definition FindPidForProcess (allPids : Procs.Directory) (processName : string) : Z :=
  Procs.find_pid (fun a b => Procs._stricmp a b =? 0) allPids processName.
End Wasapi.

(** ** coreaudio_loopback.cc: class CoreAudioLoopbackCapture *)
Module CoreAudio.
(** The fields of [AudioStreamBasicDescription] the code reads. *)
Record AudioStreamBasicDescription : Type := mkASBD {
  mSampleRate : R;
  mChannelsPerFrame : Z;
  mBytesPerFrame : Z;
  mIsFloat : bool    (* mFormatFlags & kAudioFormatFlagIsFloat *)
}.

Definition kAudioDeviceUnknown : Z := 0.
Definition kAudioObjectUnknown : Z := 0.
Definition noErr : Z := 0.

(** The outcome of each platform call; [true] is [status == noErr]. *)
Record Backend : Type := mkBackend {
  getpid : Z;
  FindBlackHoleInputDevice : Z;
  FindBlackHoleOutputDevice : Z;
  FindDefaultOutputDevice : Z;
  AudioComponentFindNext : bool;
  AudioComponentInstanceNew : bool;
  EnableInput : bool;            (* line 703 *)
  DisableOutput : bool;          (* line 718 *)
  SetCurrentDevice : bool;       (* line 732 *)
  GetStreamFormat : option AudioStreamBasicDescription;
  SetInputCallback : bool;       (* line 776 *)
  AudioUnitInitialize : bool;
  AudioOutputUnitStart : bool
}.

(** How far the instance behind a non-null [audioUnit_] has come. *)
Inductive AudioUnit : Type := Created | Initialized | Started.

Inductive Thread : Type :=
| NotAThread
| Sleeping       (* in [while (running_) sleep_for(100ms)] *)
| Returned.      (* the lambda has returned, nobody has joined *)

Definition joinable (t : Thread) : bool :=
  match t with NotAThread => false | _ => true end.

(** The members of the class.  [outputFormat_] and [resampleBuffer_] are
    written or declared but never read, and are left out. *)
Record Capture : Type := mkCapture {
  capture_thread_ : Thread;
  running_ : bool;
  tsfn_ : nat;
  targetPid_ : Z;
  excludeCurrentPid_ : bool;
  currentPid_ : Z;
  audioUnit_ : option AudioUnit;
  deviceId_ : Z;
  aggregateDeviceId_ : Z;
  usingTap_ : bool;
  dsp_ : Dsp.State;       (* hpf_, env_, noiseFloor_, gainSmooth_, aEnv_ ... aRel_ *)
  inputFormat_ : AudioStreamBasicDescription
}.

(** The function-local [static] counters of [InputCallback] and
    [ProcessAudioBuffer]. *)
Record Statics : Type := mkStatics {
  callbackCount : Z;
  debugCount : Z;
  sampleCount : Z
}.

Record World : Type := mkWorld {
  capture : Capture;
  statics : Statics;
  out : Io.Out
}.

(** The constructor; the members it leaves indeterminate are arguments. *)
Definition new (pid0 dev0 : Z) (dsp0 : Dsp.State)
           (fmt0 : AudioStreamBasicDescription) : Capture :=
  {| capture_thread_ := NotAThread; running_ := false; tsfn_ := O;
     targetPid_ := 0; excludeCurrentPid_ := false; currentPid_ := pid0;
     audioUnit_ := None; deviceId_ := dev0;
     aggregateDeviceId_ := kAudioObjectUnknown; usingTap_ := false;
     dsp_ := dsp0; inputFormat_ := fmt0 |}.

Definition fresh (c : Capture) : World :=
  {| capture := c;
     statics := {| callbackCount := 0; debugCount := 0; sampleCount := 0 |};
     out := Io.empty |}.

Definition with_thread (t : Thread) (c : Capture) : Capture :=
  {| capture_thread_ := t; running_ := running_ c; tsfn_ := tsfn_ c;
     targetPid_ := targetPid_ c; excludeCurrentPid_ := excludeCurrentPid_ c;
     currentPid_ := currentPid_ c; audioUnit_ := audioUnit_ c;
     deviceId_ := deviceId_ c; aggregateDeviceId_ := aggregateDeviceId_ c;
     usingTap_ := usingTap_ c; dsp_ := dsp_ c; inputFormat_ := inputFormat_ c |}.

Definition with_running (b : bool) (c : Capture) : Capture :=
  {| capture_thread_ := capture_thread_ c; running_ := b; tsfn_ := tsfn_ c;
     targetPid_ := targetPid_ c; excludeCurrentPid_ := excludeCurrentPid_ c;
     currentPid_ := currentPid_ c; audioUnit_ := audioUnit_ c;
     deviceId_ := deviceId_ c; aggregateDeviceId_ := aggregateDeviceId_ c;
     usingTap_ := usingTap_ c; dsp_ := dsp_ c; inputFormat_ := inputFormat_ c |}.

Definition with_audioUnit (u : option AudioUnit) (c : Capture) : Capture :=
  {| capture_thread_ := capture_thread_ c; running_ := running_ c;
     tsfn_ := tsfn_ c; targetPid_ := targetPid_ c;
     excludeCurrentPid_ := excludeCurrentPid_ c; currentPid_ := currentPid_ c;
     audioUnit_ := u; deviceId_ := deviceId_ c;
     aggregateDeviceId_ := aggregateDeviceId_ c; usingTap_ := usingTap_ c;
     dsp_ := dsp_ c; inputFormat_ := inputFormat_ c |}.

Definition with_device (dev : Z) (tap : bool) (c : Capture) : Capture :=
  {| capture_thread_ := capture_thread_ c; running_ := running_ c;
     tsfn_ := tsfn_ c; targetPid_ := targetPid_ c;
     excludeCurrentPid_ := excludeCurrentPid_ c; currentPid_ := currentPid_ c;
     audioUnit_ := audioUnit_ c; deviceId_ := dev;
     aggregateDeviceId_ := aggregateDeviceId_ c; usingTap_ := tap;
     dsp_ := dsp_ c; inputFormat_ := inputFormat_ c |}.

Definition with_aggregate (dev : Z) (c : Capture) : Capture :=
  {| capture_thread_ := capture_thread_ c; running_ := running_ c;
     tsfn_ := tsfn_ c; targetPid_ := targetPid_ c;
     excludeCurrentPid_ := excludeCurrentPid_ c; currentPid_ := currentPid_ c;
     audioUnit_ := audioUnit_ c; deviceId_ := deviceId_ c;
     aggregateDeviceId_ := dev; usingTap_ := usingTap_ c;
     dsp_ := dsp_ c; inputFormat_ := inputFormat_ c |}.

Definition with_dsp (d : Dsp.State) (c : Capture) : Capture :=
  {| capture_thread_ := capture_thread_ c; running_ := running_ c;
     tsfn_ := tsfn_ c; targetPid_ := targetPid_ c;
     excludeCurrentPid_ := excludeCurrentPid_ c; currentPid_ := currentPid_ c;
     audioUnit_ := audioUnit_ c; deviceId_ := deviceId_ c;
     aggregateDeviceId_ := aggregateDeviceId_ c; usingTap_ := usingTap_ c;
     dsp_ := d; inputFormat_ := inputFormat_ c |}.

Definition with_inputFormat (f : AudioStreamBasicDescription) (c : Capture) : Capture :=
  {| capture_thread_ := capture_thread_ c; running_ := running_ c;
     tsfn_ := tsfn_ c; targetPid_ := targetPid_ c;
     excludeCurrentPid_ := excludeCurrentPid_ c; currentPid_ := currentPid_ c;
     audioUnit_ := audioUnit_ c; deviceId_ := deviceId_ c;
     aggregateDeviceId_ := aggregateDeviceId_ c; usingTap_ := usingTap_ c;
     dsp_ := dsp_ c; inputFormat_ := f |}.

Definition on_capture (f : Capture -> Capture) (w : World) : World :=
  {| capture := f (capture w); statics := statics w; out := out w |}.

Definition on_out (f : Io.Out -> Io.Out) (w : World) : World :=
  {| capture := capture w; statics := statics w; out := f (out w) |}.

Definition on_statics (f : Statics -> Statics) (w : World) : World :=
  {| capture := capture w; statics := f (statics w); out := out w |}.

Definition printf (msg : string) : World -> World := on_out (Io.printf msg).

(** [AudioComponentInstanceDispose(audioUnit_); audioUnit_ = nullptr;
    return false;] after the message [msg]. *)
Definition dispose_and_fail (msg : string) (w : World) : bool * World :=
  (false, on_capture (with_audioUnit None) (printf msg w)).

(** [bool TryAudioUnitHALApproach(AudioDeviceID blackHoleDevice)] *)
Definition TryAudioUnitHALApproach (be : Backend) (blackHoleDevice : Z)
           (w : World) : bool * World :=
  let w := on_capture (with_device blackHoleDevice false) w in
  let w := printf "[addon] Setting up AudioUnit to capture from BlackHole" w in
  if negb (AudioComponentFindNext be) then
    (false, printf "[addon] Failed to find HAL Output AudioUnit component" w)
  else if negb (AudioComponentInstanceNew be) then
    (false, printf "[addon] Failed to create HAL Output AudioUnit" w)
  else
    let w := on_capture (with_audioUnit (Some Created)) w in
    if negb (EnableInput be) then
      dispose_and_fail "[addon] Failed to enable input on HAL Output unit" w
    else if negb (DisableOutput be) then
      dispose_and_fail "[addon] Failed to disable output on HAL Output unit" w
    else if negb (SetCurrentDevice be) then
      dispose_and_fail "[addon] Failed to set BlackHole device on HAL Output unit" w
    else
      match GetStreamFormat be with
      | None => dispose_and_fail "[addon] Failed to get input format from BlackHole" w
      | Some fmt =>
          let w := on_capture (with_inputFormat fmt) w in
          if negb (SetInputCallback be) then
            dispose_and_fail "[addon] Failed to set input callback on HAL Output unit" w
          else
            let w := on_capture (with_dsp Dsp.init) w in
            if negb (AudioUnitInitialize be) then
              dispose_and_fail "[addon] Failed to initialize HAL Output AudioUnit" w
            else
              let w := on_capture (with_audioUnit (Some Initialized)) w in
              if negb (AudioOutputUnitStart be) then
                dispose_and_fail "[addon] Failed to start HAL Output AudioUnit" w
              else
                let w := on_capture (with_audioUnit (Some Started)) w in
                (true, printf "[addon] HAL Output AudioUnit started successfully" w)
      end.

(** [running_ = false; tsfn_.Release(); return;] of lines 591-593 and
    646-648. *)
Definition bail_out (w : World) : World :=
  let w := on_capture (with_running false) w in
  let w := on_out (Io.Release (tsfn_ (capture w))) w in
  on_capture (with_thread Returned) w.

(** The thread lambda of lines 585-668, up to its return or its loop. *)
Definition thread_entry (be : Backend) (w : World) : World :=
  let blackHoleInput := FindBlackHoleInputDevice be in
  if blackHoleInput =? kAudioDeviceUnknown then
    let w := printf "[addon] ERROR: BlackHole 2ch INPUT device not found" w in
    let w := printf "[addon]    Please install BlackHole from: https://existential.audio/blackhole/" w in
    bail_out w
  else
    let w := printf "[addon] BlackHole 2ch INPUT device found" w in
    let w := if negb (FindBlackHoleOutputDevice be =? kAudioDeviceUnknown)
             then printf "[addon] BlackHole 2ch OUTPUT device found" w else w in
    let w := if negb (FindDefaultOutputDevice be =? kAudioDeviceUnknown)
             then printf "[addon] Default output device" w else w in
    let w := on_capture (with_device blackHoleInput (usingTap_ (capture w))) w in
    let w := printf "[addon] Capturing from BlackHole 2ch INPUT device" w in
    let '(ok, w) := TryAudioUnitHALApproach be (deviceId_ (capture w)) w in
    if negb ok then
      bail_out (printf "[addon] ERROR: Failed to start capture from BlackHole INPUT" w)
    else
      let w := printf "[addon] CoreAudio loopback capture started successfully" w in
      on_capture (with_thread Sleeping) w.

(** [bool Start(uint32_t pid, Napi::ThreadSafeFunction tsfn)].  [None] is
    [std::terminate], raised by the move-assignment of line 585 to a
    [capture_thread_] that is joinable. *)
Definition Start (be : Backend) (pid : Z) (tsfn : nat) (w : World)
  : option (bool * World) :=
  if running_ (capture w) then
    Some (false, printf "[addon] Capture already running" w)
  else
    let c := capture w in
    let c := {| capture_thread_ := capture_thread_ c; running_ := true;
                tsfn_ := tsfn; targetPid_ := pid;
                excludeCurrentPid_ := (pid =? 0); currentPid_ := getpid be;
                audioUnit_ := audioUnit_ c; deviceId_ := deviceId_ c;
                aggregateDeviceId_ := aggregateDeviceId_ c;
                usingTap_ := usingTap_ c; dsp_ := dsp_ c;
                inputFormat_ := inputFormat_ c |} in
    let w := on_capture (fun _ => c) w in
    let w := if excludeCurrentPid_ c
             then printf "[addon] Starting CoreAudio loopback capture (system-wide)" w
             else if pid >? 0
             then printf "[addon] Starting CoreAudio loopback capture for PID" w
             else printf "[addon] Starting CoreAudio loopback capture" w in
    if joinable (capture_thread_ c) then None
    else Some (true, thread_entry be w).

(** Lines 660-665 and 980-985. *)
Definition stop_unit (c : Capture) : Capture :=
  match audioUnit_ c with
  | Some _ => if negb (usingTap_ c) then with_audioUnit None c else c
  | None => c
  end.

(** The thread when it finds [running_] false: lines 659-667. *)
Definition thread_exit (w : World) : World :=
  match capture_thread_ (capture w) with
  | Sleeping =>
      let w := on_capture stop_unit w in
      let w := on_out (Io.Release (tsfn_ (capture w))) w in
      on_capture (with_thread Returned) w
  | _ => w
  end.

(** [void Stop()] *)
Definition Stop (w : World) : World :=
  if negb (running_ (capture w)) then w
  else
    let w := on_capture (with_running false) w in
    let w := on_capture stop_unit w in
    let w :=
      if negb (aggregateDeviceId_ (capture w) =? kAudioObjectUnknown) then
        let w := printf "[addon] Cleaning up multi-output aggregate device..." w in
        let w := on_capture (with_aggregate kAudioObjectUnknown) w in
        printf "[addon] Multi-output device cleaned up" w
      else w in
    let w := if joinable (capture_thread_ (capture w))
             then on_capture (with_thread NotAThread) (thread_exit w)
             else w in
    let w := on_out (Io.Release (tsfn_ (capture w))) w in
    printf "[addon] CoreAudio loopback capture stopped" w.

(** [void ProcessAudioBuffer(ioData, inNumberFrames, sourcePid)] on the
    one buffer [InputCallback] passes. *)
Definition ProcessAudioBuffer (data : Dsp.Samples) (inNumberFrames : Z)
           (w : World) : World :=
  let c := capture w in
  let inRate := Wav.u32 (Rtrunc (mSampleRate (inputFormat_ c))) in
  let inCh := Z.to_nat (Wav.u16 (mChannelsPerFrame (inputFormat_ c))) in
  let count := sampleCount (statics w) + inNumberFrames in
  let w :=
    if count >=? 16000 then
      on_statics (fun s => {| callbackCount := callbackCount s;
                              debugCount := debugCount s; sampleCount := 0 |})
                 (printf "[addon] Audio level check - max amplitude" w)
    else
      on_statics (fun s => {| callbackCount := callbackCount s;
                              debugCount := debugCount s; sampleCount := count |}) w in
  let '(d, int16Samples) :=
    Dsp.condition (dsp_ c) inRate inCh (Z.to_nat inNumberFrames) data in
  let w := on_capture (with_dsp d) w in
  let wavBuffer := Wav.build_wav int16Samples in
  on_out (Io.BlockingCall wavBuffer) w.

(** What the device gives one callback: whether [malloc] succeeded, and
    the status of [AudioUnitRender] with the rendered samples. *)
Inductive Render : Type :=
| MallocFailed
| RenderOk (data : Dsp.Samples)
| RenderFailed (status : Z).

(** [static OSStatus InputCallback(...)] with [inRefCon] the capture
    object: the status it returns and the world after it. *)
Definition InputCallback (inNumberFrames : Z) (r : Render) (w : World)
  : Z * World :=
  if negb (running_ (capture w)) then (noErr, w)
  else
    let n := callbackCount (statics w) + 1 in
    let w := on_statics (fun s => {| callbackCount := n;
                                     debugCount := debugCount s;
                                     sampleCount := sampleCount s |}) w in
    let w := if n mod 100 =? 0
             then printf "[addon] InputCallback called" w else w in
    let mDataByteSize :=
      Wav.u32 (inNumberFrames * mBytesPerFrame (inputFormat_ (capture w))) in
    match r with
    | MallocFailed =>
        (-1, printf "[addon] ERROR: Failed to allocate buffer in InputCallback" w)
    | RenderOk data =>
        let w :=
          if mDataByteSize >=? 4 then
            let k := debugCount (statics w) in
            let w := on_statics (fun s => {| callbackCount := callbackCount s;
                                             debugCount := k + 1;
                                             sampleCount := sampleCount s |}) w in
            if k mod 50 =? 0 then printf "[addon] Audio check" w else w
          else w in
        (noErr, ProcessAudioBuffer data inNumberFrames w)
    | RenderFailed status =>
        (status, if n <=? 5
                 then printf "[addon] AudioUnitRender failed with status" w
                 else w)
    end.

(** [pid_t FindPidForProcess(const std::string& processName)], lines
    1065-1103, on the snapshot [allPids]: names are compared with
    [std::string]'s [==]. *)
Definition FindPidForProcess (allPids : Procs.Directory) (processName : string) : Z :=
  Procs.find_pid String.eqb allPids processName.
End CoreAudio.

(** ** The length computation in IEEE binary64

    [Dsp.resample_len] reads the [double] expression of line 264 over the
    reals.  Here the same expression is evaluated as the machine does, with
    the round-to-nearest-even multiplication and division of binary64, to
    check the reading on concrete buffers. *)
Module Ieee.
Definition prec : Z := 53.
Definition emax : Z := 1024.

(** [(double)z] for an integer [z]. *)
Definition of_Z (z : Z) : spec_float := binary_normalize prec emax z 0 false.

(** [(size_t)f]: the integer part of a finite [f]. *)
Definition to_Z (f : spec_float) : Z :=
  match f with
  | S754_finite s m e =>
      let a := if 0 <=? e then Z.pos m * 2 ^ e else Z.pos m / 2 ^ (- e) in
      if s then - a else a
  | _ => 0
  end.

Definition resample_len (n inRate : Z) : Z :=
  let outLen :=
    to_Z (SFdiv prec emax (SFmul prec emax (of_Z n) (of_Z Dsp.outRate))
                (of_Z inRate)) in
  if outLen =? 0 then 1 else outLen.

(** The sample rates devices commonly run at, and buffers of up to [k]
    frames. *)
Definition rates : list Z :=
  [8000; 11025; 16000; 22050; 24000; 32000; 44100; 48000; 88200; 96000;
   176400; 192000].

Definition sizes (k : nat) : list Z := map Z.of_nat (seq 1 k).
End Ieee.

(** ** Definitions written from the words of the specification

    These are not the code: they say what sections 4.3 and 8 of the
    specification ask for, to compare the code with. *)
Module Spec.
Local Open Scope R_scope.

(** [round(N * 16000 / R)] for positive operands: the nearest integer,
    a tie going up. *)
Definition round_div (a b : Z) : Z := ((2 * a + b) / (2 * b))%Z.

(** "Output length = round(inputSampleCount * outRate / inRate),
    minimum 1." *)
Definition resample_len (n inRate : Z) : Z :=
  Z.max 1 (round_div (n * Dsp.outRate) inRate).

(** [z] is [y] rounded to the nearest integer, a tie going away from
    zero. *)
Definition round_half_away (y : R) (z : Z) : Prop :=
  Rabs (IZR z - y) <= 1 / 2 /\
  (Rabs (IZR z - y) = 1 / 2 -> Rabs y < Rabs (IZR z)).



(** *** Name resolution, section 4.5 *)

Fixpoint lower (s : string) : string :=
  match s with
  | EmptyString => EmptyString
  | String c rest => String (Procs.tolower c) (lower rest)
  end.

(** "case-insensitive match" *)
Definition same_nocase (a b : string) : Prop := lower a = lower b.

Fixpoint rfind (c : ascii) (s : string) : option nat :=
  match s with
  | EmptyString => None
  | String a rest =>
      match rfind c rest with
      | Some p => Some (S p)
      | None => if Ascii.eqb a c then Some O else None
      end
  end.

(** "strips any trailing extension-like suffix (after the final '.')" *)
Definition strip_last_suffix (s : string) : string :=
  match rfind "."%char s with
  | Some dotPos => substring 0 dotPos s
  | None => s
  end.

(** [pid] belongs to the first entry of [dir] whose name satisfies [P]. *)
Definition FirstWith (P : string -> Prop) (dir : Procs.Directory) (pid : Z) : Prop :=
  exists before name after,
    dir = before ++ (pid, name) :: after /\ P name /\
    Forall (fun e => ~ P (snd e)) before.

Definition NoneWith (P : string -> Prop) (dir : Procs.Directory) : Prop :=
  Forall (fun e => ~ P (snd e)) dir.

(** The two-pass rule: [r] is the PID of the first entry that matches the
    query in full; failing that, of the first entry that matches it after
    [cut] on both sides; failing that, 0 (NotFound). *)
Definition Resolves (same : string -> string -> Prop) (cut : string -> string)
           (dir : Procs.Directory) (query : string) (r : Z) : Prop :=
  (forall pid, FirstWith (fun name => same name query) dir pid -> r = pid) /\
  (NoneWith (fun name => same name query) dir ->
   forall pid, FirstWith (fun name => same (cut name) (cut query)) dir pid ->
               r = pid) /\
  (NoneWith (fun name => same name query) dir ->
   NoneWith (fun name => same (cut name) (cut query)) dir -> r = 0%Z).

(** [b] is [s] without everything from its first [c] on. *)
Definition CutAtFirst (c : ascii) (s b : string) : Prop :=
  Procs.find c b = None /\
  (b = s \/ exists rest, s = (b ++ String c rest)%string).
End Spec.

(** ** Platforms and sessions to run the model on *)
Module Examples.
(** A Windows machine on which every call succeeds: 48 kHz stereo float. *)
Definition windows_ok : Wasapi.Backend :=
  {| Wasapi.CoInitializeEx := true;
     Wasapi.CoCreateInstance := true;
     Wasapi.GetDefaultAudioEndpoint := true;
     Wasapi.ActivateClient3 := true;
     Wasapi.ActivateClient1 := true;
     Wasapi.GetMixFormat :=
       Some {| Wasapi.nSamplesPerSec := 48000; Wasapi.nChannels := 2;
               Wasapi.nBlockAlign := 8; Wasapi.isFloat := true |};
     Wasapi.Initialize3 := true;
     Wasapi.ActivateClient1Fallback := true;
     Wasapi.Initialize1 := true;
     Wasapi.CreateEvent := true;
     Wasapi.SetEventHandle := true;
     Wasapi.GetService := true;
     Wasapi.ClientStart := true |}.

(** The same machine without a default render endpoint. *)
Definition windows_no_endpoint : Wasapi.Backend :=
  {| Wasapi.CoInitializeEx := true;
     Wasapi.CoCreateInstance := true;
     Wasapi.GetDefaultAudioEndpoint := false;
     Wasapi.ActivateClient3 := true;
     Wasapi.ActivateClient1 := true;
     Wasapi.GetMixFormat := Wasapi.GetMixFormat windows_ok;
     Wasapi.Initialize3 := true;
     Wasapi.ActivateClient1Fallback := true;
     Wasapi.Initialize1 := true;
     Wasapi.CreateEvent := true;
     Wasapi.SetEventHandle := true;
     Wasapi.GetService := true;
     Wasapi.ClientStart := true |}.

(** The capture object after [f] on it, [w] itself on [terminate]. *)
Definition after {W : Type} (w : W) (r : option (bool * W)) : W :=
  match r with Some (_, w') => w' | None => w end.

Definition windows_running : Wasapi.Capture :=
  after Wasapi.new (Wasapi.Start windows_ok 0 1 Wasapi.new).

Definition windows_failed : Wasapi.Capture :=
  after Wasapi.new (Wasapi.Start windows_no_endpoint 0 1 Wasapi.new).

Definition int16_stereo_48k : CoreAudio.AudioStreamBasicDescription :=
  {| CoreAudio.mSampleRate := 48000; CoreAudio.mChannelsPerFrame := 2;
     CoreAudio.mBytesPerFrame := 4; CoreAudio.mIsFloat := false |}.

(** A Mac with BlackHole installed (device 55) on which every call
    succeeds. *)
Definition mac_ok : CoreAudio.Backend :=
  {| CoreAudio.getpid := 100;
     CoreAudio.FindBlackHoleInputDevice := 55;
     CoreAudio.FindBlackHoleOutputDevice := 55;
     CoreAudio.FindDefaultOutputDevice := 60;
     CoreAudio.AudioComponentFindNext := true;
     CoreAudio.AudioComponentInstanceNew := true;
     CoreAudio.EnableInput := true;
     CoreAudio.DisableOutput := true;
     CoreAudio.SetCurrentDevice := true;
     CoreAudio.GetStreamFormat := Some int16_stereo_48k;
     CoreAudio.SetInputCallback := true;
     CoreAudio.AudioUnitInitialize := true;
     CoreAudio.AudioOutputUnitStart := true |}.

(** A Mac without BlackHole. *)
Definition mac_no_blackhole : CoreAudio.Backend :=
  {| CoreAudio.getpid := 100;
     CoreAudio.FindBlackHoleInputDevice := CoreAudio.kAudioDeviceUnknown;
     CoreAudio.FindBlackHoleOutputDevice := CoreAudio.kAudioDeviceUnknown;
     CoreAudio.FindDefaultOutputDevice := 60;
     CoreAudio.AudioComponentFindNext := true;
     CoreAudio.AudioComponentInstanceNew := true;
     CoreAudio.EnableInput := true;
     CoreAudio.DisableOutput := true;
     CoreAudio.SetCurrentDevice := true;
     CoreAudio.GetStreamFormat := Some int16_stereo_48k;
     CoreAudio.SetInputCallback := true;
     CoreAudio.AudioUnitInitialize := true;
     CoreAudio.AudioOutputUnitStart := true |}.

Definition mac_new : CoreAudio.World :=
  CoreAudio.fresh (CoreAudio.new 0 0 Dsp.init int16_stereo_48k).

Definition mac_running : CoreAudio.World :=
  after mac_new (CoreAudio.Start mac_ok 0 1 mac_new).

Definition mac_failed : CoreAudio.World :=
  after mac_new (CoreAudio.Start mac_no_blackhole 0 1 mac_new).

End Examples.

(** ** The invariant of the gate and a tactic for the proofs *)


(** Case analysis on the comparisons of a goal. *)
Ltac rcases :=
  repeat match goal with
         | |- context [Rlt_dec ?a ?b] => destruct (Rlt_dec a b)
         | |- context [Rgt_dec ?a ?b] => destruct (Rgt_dec a b)
         | |- context [Rge_dec ?a ?b] => destruct (Rge_dec a b)
         | |- context [Rle_dec ?a ?b] => destruct (Rle_dec a b)
         | |- context [Rcase_abs ?a] => destruct (Rcase_abs a)
         end.

From Stdlib Require Import DecimalString.

(** ** Reading a frame back

    What a consumer of the frames does with the data chunk: 16-bit
    little-endian two's complement, one sample per two bytes. *)
Module Pcm.
(** The signed value of a 16-bit word. *)
Definition signed16 (u : Z) : Z := if u <? 2 ^ 15 then u else u - 2 ^ 16.

Fixpoint decode (bytes : list Z) : list Z :=
  match bytes with
  | lo :: hi :: rest => signed16 (lo + 256 * hi) :: decode rest
  | _ => []
  end.
End Pcm.

(** ** What a well-formed frame for a device buffer is *)
Module Frame.
(** [frame] is a RIFF/WAVE frame for a buffer of [frames] frames captured at
    [inRate]: a 44-byte header with both size fields right, and as many
    16-bit samples as the resampler makes of [frames]. *)
Definition for_buffer (inRate : Z) (frames : nat) (frame : list Z) : Prop :=
  let outLen := Z.max 1 (Z.of_nat frames * 16000 / inRate) in
  Z.of_nat (length frame) = 44 + 2 * outLen /\
  firstn 4 frame = Wav.bytes_of_string "RIFF" /\
  Wav.read_le frame 4 4 = 36 + 2 * outLen /\
  Wav.read_le frame 40 4 = 2 * outLen /\
  Z.of_nat (length (Pcm.decode (skipn 44 frame))) = outLen.

(** The buffer is not empty and its frame fits the 32-bit sizes. *)
Definition fits (inRate : Z) (frames : nat) : Prop :=
  (0 < frames)%nat /\
  44 + 2 * Z.max 1 (Z.of_nat frames * 16000 / inRate) < 2 ^ 32.
End Frame.

(** ** States of the capture objects *)
Module Session.
(** No session and no thread: the state of a new object, and the state
    [Stop] is meant to leave. *)
Definition wasapi_idle (w : Wasapi.Capture) : Prop :=
  Wasapi.running_ w = false /\ Wasapi.capture_thread_ w = Wasapi.NotAThread.

Definition coreaudio_idle (w : CoreAudio.World) : Prop :=
  CoreAudio.running_ (CoreAudio.capture w) = false /\
  CoreAudio.capture_thread_ (CoreAudio.capture w) = CoreAudio.NotAThread.

(** The capture thread holds everything it needs and exactly one audio
    client. *)
Definition fully_acquired (l : Wasapi.Locals) : Prop :=
  Wasapi.enumr l = true /\ Wasapi.device l = true /\ Wasapi.cap l = true /\
  Wasapi.hEvent l = true /\ Wasapi.pwfx l <> None /\
  Wasapi.audioClient3 l = negb (Wasapi.audioClient1 l).

(** The calls that must succeed for the WASAPI thread to reach its loop,
    for a PID [pid >= 0]. *)
Definition wasapi_can_start (be : Wasapi.Backend) : bool :=
  Wasapi.CoInitializeEx be && Wasapi.CoCreateInstance be &&
  Wasapi.GetDefaultAudioEndpoint be &&
  match Wasapi.GetMixFormat be with Some _ => true | None => false end &&
  (if Wasapi.ActivateClient3 be then
     Wasapi.Initialize3 be
     || (Wasapi.ActivateClient1Fallback be && Wasapi.Initialize1 be)
   else Wasapi.ActivateClient1 be && Wasapi.Initialize1 be) &&
  Wasapi.CreateEvent be && Wasapi.SetEventHandle be &&
  Wasapi.GetService be && Wasapi.ClientStart be.

(** The calls that must succeed for the CoreAudio thread to reach its
    loop: a BlackHole input device, and every step of
    [TryAudioUnitHALApproach]. *)
Definition coreaudio_can_start (be : CoreAudio.Backend) : bool :=
  negb (CoreAudio.FindBlackHoleInputDevice be =? CoreAudio.kAudioDeviceUnknown) &&
  CoreAudio.AudioComponentFindNext be && CoreAudio.AudioComponentInstanceNew be &&
  CoreAudio.EnableInput be && CoreAudio.DisableOutput be &&
  CoreAudio.SetCurrentDevice be &&
  match CoreAudio.GetStreamFormat be with Some _ => true | None => false end &&
  CoreAudio.SetInputCallback be && CoreAudio.AudioUnitInitialize be &&
  CoreAudio.AudioOutputUnitStart be.

(** How often [tsfn] was released. *)
Definition releases (tsfn : nat) (o : Io.Out) : nat :=
  count_occ Nat.eq_dec (Io.released o) tsfn.
End Session.

(** ** wasapi_loopback.cc: the process directory, lines 373-413 and 555-598 *)
Module WasapiProcs.
(** What Windows knows of one process: its entry in the Toolhelp snapshot,
    whether [OpenProcess(PROCESS_QUERY_INFORMATION)] succeeds on it, and
    what [GetModuleBaseNameA] gives when the process can be opened for
    reading ([None] when either fails). *)
Record PROCESSENTRY32 : Type := mkEntry {
  th32ProcessID : Z;
  can_query : bool;
  module_base_name : option string
}.

(** [std::string GetProcessName(DWORD pid)] *)
Definition GetProcessName (system : list PROCESSENTRY32) (pid : Z) : string :=
  match List.find (fun pe32 => th32ProcessID pe32 =? pid) system with
  | Some pe32 =>
      match module_base_name pe32 with
      | Some processName => processName
      | None => EmptyString
      end
  | None => EmptyString
  end.

(** The [do ... while (Process32Next(...))] of lines 398-408. *)
Fixpoint walk (current : Z) (entries : list PROCESSENTRY32) : list Z :=
  match entries with
  | [] => []
  | pe32 :: rest =>
      if negb (th32ProcessID pe32 =? 0) && negb (th32ProcessID pe32 =? 4)
         && negb (th32ProcessID pe32 =? current)
      then if can_query pe32
           then th32ProcessID pe32 :: walk current rest
           else walk current rest
      else walk current rest
  end.

(** [std::vector<DWORD> EnumerateAllProcesses()]; [snapshot_ok] is
    [hSnapshot != INVALID_HANDLE_VALUE], [current] is
    [GetCurrentProcessId()]. *)
Definition EnumerateAllProcesses (snapshot_ok : bool) (current : Z)
           (system : list PROCESSENTRY32) : list Z :=
  if negb snapshot_ok then [] else walk current system.

(** The snapshot [FindPidForProcess] works on: each PID of
    [EnumerateAllProcesses] with the name [GetProcessName] gives it. *)
Definition directory (snapshot_ok : bool) (current : Z)
           (system : list PROCESSENTRY32) : Procs.Directory :=
  map (fun pid => (pid, GetProcessName system pid))
      (EnumerateAllProcesses snapshot_ok current system).

(** [FindPidForProcess] on the live system. *)
Definition FindPidForProcess (snapshot_ok : bool) (current : Z)
           (system : list PROCESSENTRY32) (processName : string) : Z :=
  Wasapi.FindPidForProcess (directory snapshot_ok current system) processName.

(** The outcome of the calls of [EnumerateActiveAudioSessions], lines
    416-477; a session is [Some pid] when [GetSession], the cast and
    [GetProcessId] succeed on it. *)
Record AudioSessions : Type := mkSessions {
  CoInitializeEx : bool;
  CoCreateInstance : bool;
  GetDefaultAudioEndpoint : bool;
  Activate : bool;
  GetSessionEnumerator : bool;
  GetCount : bool;
  sessions : list (option Z)
}.

Fixpoint session_pids (ss : list (option Z)) : list Z :=
  match ss with
  | [] => []
  | None :: rest => session_pids rest
  | Some pid :: rest =>
      if pid =? 0 then session_pids rest else pid :: session_pids rest
  end.

(** [std::vector<DWORD> EnumerateActiveAudioSessions()] *)
Definition EnumerateActiveAudioSessions (a : AudioSessions) : list Z :=
  if negb (CoInitializeEx a) then []
  else if negb (CoCreateInstance a) then []
  else if negb (GetDefaultAudioEndpoint a) then []
  else if negb (Activate a) then []
  else if negb (GetSessionEnumerator a) then []
  else if negb (GetCount a) then []
  else session_pids (sessions a).

(** One element of the array [EnumerateAudioSessions] returns. *)
Record Session : Type := mkSession {
  pid : Z;
  processName : string;
  hasActiveAudio : bool
}.

(** The names line 578-586 leave out. *)
Definition is_background (processName : string) : bool :=
  String.eqb processName "svchost.exe" || String.eqb processName "conhost.exe" ||
  String.eqb processName "csrss.exe" || String.eqb processName "dwm.exe" ||
  String.eqb processName "lsass.exe" || String.eqb processName "services.exe" ||
  String.eqb processName "smss.exe" || String.eqb processName "wininit.exe" ||
  String.eqb processName "winlogon.exe".

(** [hasAudioSession.count(pid) > 0] for the map filled from [activePids]. *)
Definition has_session (activePids : list Z) (p : Z) : bool :=
  existsb (Z.eqb p) activePids.

(** The loop of lines 572-595. *)
Fixpoint list_sessions (system : list PROCESSENTRY32) (activePids allPids : list Z)
  : list Session :=
  match allPids with
  | [] => []
  | p :: rest =>
      let name := GetProcessName system p in
      if String.eqb name EmptyString then list_sessions system activePids rest
      else if is_background name then list_sessions system activePids rest
      else {| pid := p; processName := name;
              hasActiveAudio := has_session activePids p |}
           :: list_sessions system activePids rest
  end.

(** [Napi::Value EnumerateAudioSessions(info)]: the array it returns. *)
Definition EnumerateAudioSessions (snapshot_ok : bool) (current : Z)
           (system : list PROCESSENTRY32) (a : AudioSessions) : list Session :=
  list_sessions system (EnumerateActiveAudioSessions a)
                (EnumerateAllProcesses snapshot_ok current system).
End WasapiProcs.

(** ** coreaudio_loopback.cc: the process directory, lines 1036-1063 and
    1195-1222 *)
Module CoreAudioProcs.
(** [std::string GetProcessName(pid_t pid)]; [proc_name] answers [Some
    name] for the PIDs on which it returns a positive length. *)
Definition GetProcessName (proc_name : Z -> option string) (pid : Z) : string :=
  match proc_name pid with
  | Some name => name
  | None => EmptyString
  end.

(** The loop of lines 1056-1060; [buffer] holds the entries the loop
    reads, [buffer[0]] to [buffer[numberOfProcesses - 1]] for the value the
    second [proc_listpids] returned. *)
Fixpoint walk (currentPid : Z) (buffer : list Z) : list Z :=
  match buffer with
  | [] => []
  | p :: rest =>
      if (p >? 0) && negb (p =? currentPid)
      then p :: walk currentPid rest
      else walk currentPid rest
  end.

(** [std::vector<pid_t> EnumerateAllProcesses()]; [numberOfProcesses] is
    what the first [proc_listpids] returns. *)
Definition EnumerateAllProcesses (numberOfProcesses : Z) (currentPid : Z)
           (buffer : list Z) : list Z :=
  if numberOfProcesses <=? 0 then [] else walk currentPid buffer.

Definition directory (numberOfProcesses currentPid : Z) (buffer : list Z)
           (proc_name : Z -> option string) : Procs.Directory :=
  map (fun pid => (pid, GetProcessName proc_name pid))
      (EnumerateAllProcesses numberOfProcesses currentPid buffer).

(** [FindPidForProcess] on the live system. *)
Definition FindPidForProcess (numberOfProcesses currentPid : Z) (buffer : list Z)
           (proc_name : Z -> option string) (processName : string) : Z :=
  CoreAudio.FindPidForProcess
    (directory numberOfProcesses currentPid buffer proc_name) processName.

Definition is_system (processName : string) : bool :=
  String.eqb processName "kernel_task" || String.eqb processName "launchd" ||
  String.eqb processName "WindowServer".

(** The loop of lines 1203-1219; [hasActiveAudio] is always false here. *)
Fixpoint list_sessions (proc_name : Z -> option string) (allPids : list Z)
  : list WasapiProcs.Session :=
  match allPids with
  | [] => []
  | p :: rest =>
      let name := GetProcessName proc_name p in
      if String.eqb name EmptyString then list_sessions proc_name rest
      else if is_system name then list_sessions proc_name rest
      else {| WasapiProcs.pid := p; WasapiProcs.processName := name;
              WasapiProcs.hasActiveAudio := false |}
           :: list_sessions proc_name rest
  end.

Definition EnumerateAudioSessions (numberOfProcesses currentPid : Z)
           (buffer : list Z) (proc_name : Z -> option string)
  : list WasapiProcs.Session :=
  list_sessions proc_name (EnumerateAllProcesses numberOfProcesses currentPid buffer).
End CoreAudioProcs.

(** ** The values that cross the N-API boundary *)
Module Napi.
(** A JavaScript value as the glue functions see it; a function is known
    by a number. *)
Inductive Value : Type :=
| Undefined
| Null
| Boolean (b : bool)
| Number (x : R)
| Str (s : string)
| Func (cb : nat)
| BigInt (z : Z)
| Object.

Inductive Exception : Type :=
| TypeError (message : string)
| Error (message : string).

(** What a call gives back to JavaScript: a value, or a pending
    exception. *)
Inductive Completion : Type :=
| Return (v : Value)
| Throw (e : Exception).

Definition CallbackInfo : Type := list Value.

Definition Length (info : CallbackInfo) : Z := Z.of_nat (length info).

(** [info[i]]: [undefined] from [Length()] on. *)
Definition arg (info : CallbackInfo) (i : nat) : Value := nth i info Undefined.

Definition IsNumber (v : Value) : bool :=
  match v with Number _ => true | _ => false end.
Definition IsString (v : Value) : bool :=
  match v with Str _ => true | _ => false end.
Definition IsFunction (v : Value) : bool :=
  match v with Func _ => true | _ => false end.

(** [v.As<Napi::Number>().Uint32Value()]: the integer part modulo 2^32. *)
Definition Uint32Value (v : Value) : Z :=
  match v with Number x => Rtrunc x mod 2 ^ 32 | _ => 0 end.

Definition Utf8Value (v : Value) : string :=
  match v with Str s => s | _ => EmptyString end.

Definition AsFunction (v : Value) : nat :=
  match v with Func cb => cb | _ => O end.
End Napi.

(** ** coreaudio_loopback.cc: the device resolvers, lines 339-556 *)
Module Devices.
Inductive Scope : Type := Input | Output.

(** The outcome of the HAL property calls: [GetDevicesSize] and
    [GetDevices] are the two calls on [kAudioHardwarePropertyDevices];
    [DeviceName s d] is the name of device [d] read in scope [s], when the
    call succeeds, gives a string and [CFStringGetCString] converts it;
    [StreamConfigurationSize s d] the size of its stream configuration,
    when that call succeeds; the last two are the outcome of reading and
    of writing [kAudioHardwarePropertyDefaultOutputDevice]. *)
Record HAL : Type := mkHAL {
  GetDevicesSize : bool;
  GetDevices : option (list Z);
  DeviceName : Scope -> Z -> option string;
  StreamConfigurationSize : Scope -> Z -> option Z;
  GetDefaultOutputDevice : bool;
  SetDefaultOutputDevice : bool
}.

(** [std::transform(name.begin(), name.end(), name.begin(), ::tolower)] *)
Fixpoint transform (f : ascii -> ascii) (name : string) : string :=
  match name with
  | EmptyString => EmptyString
  | String c rest => String (f c) (transform f rest)
  end.

(** [name.find(pat) != std::string::npos] *)
Fixpoint contains (pat name : string) : bool :=
  String.prefix pat name ||
  match name with
  | EmptyString => false
  | String _ rest => contains pat rest
  end.

(** The test of lines 388-404 (475-485 in the output scope) on one
    device. *)
Definition is_blackhole (hal : HAL) (scope : Scope) (device : Z) : bool :=
  match DeviceName hal scope device with
  | Some nameBuffer =>
      let name := transform Procs.tolower nameBuffer in
      if contains "blackhole" name && contains "2ch" name then
        match StreamConfigurationSize hal scope device with
        | Some propertySize => propertySize >? 0
        | None => false
        end
      else false
  | None => false
  end.

(** The search loop, lines 375-414 and 456-495. *)
Fixpoint search (hal : HAL) (scope : Scope) (devices : list Z) : Z :=
  match devices with
  | [] => CoreAudio.kAudioDeviceUnknown
  | device :: rest =>
      if is_blackhole hal scope device then device else search hal scope rest
  end.

(** The two resolvers differ in the scope only. *)
Definition find_blackhole (scope : Scope) (hal : HAL) : Z :=
  if negb (GetDevicesSize hal) then CoreAudio.kAudioDeviceUnknown
  else match GetDevices hal with
       | None => CoreAudio.kAudioDeviceUnknown
       | Some devices => search hal scope devices
       end.

(** [AudioDeviceID FindBlackHoleInputDevice()] *)
Definition FindBlackHoleInputDevice : HAL -> Z := find_blackhole Input.

(** [AudioDeviceID FindBlackHoleOutputDevice()] *)
Definition FindBlackHoleOutputDevice : HAL -> Z := find_blackhole Output.

(** [AudioDeviceID FindDefaultOutputDevice()]; [default] is the system's
    default output device. *)
Definition FindDefaultOutputDevice (hal : HAL) (default : Z) : Z :=
  if negb (GetDefaultOutputDevice hal) then CoreAudio.kAudioDeviceUnknown
  else match StreamConfigurationSize hal Output default with
       | Some propertySize =>
           if propertySize >? 0 then default else CoreAudio.kAudioDeviceUnknown
       | None => CoreAudio.kAudioDeviceUnknown
       end.

(** [name] holds [pat] somewhere, whatever the case of its letters. *)
Definition Mentions (pat name : string) : Prop :=
  exists before after,
    transform Procs.tolower name = (before ++ pat ++ after)%string.

(** A device a resolver accepts: its name mentions both "blackhole" and
    "2ch", and its stream configuration in the scope has a positive
    size. *)
Definition Eligible (hal : HAL) (scope : Scope) (device : Z) : Prop :=
  exists name size,
    DeviceName hal scope device = Some name /\
    Mentions "blackhole" name /\ Mentions "2ch" name /\
    StreamConfigurationSize hal scope device = Some size /\ 0 < size.
End Devices.

(** ** coreaudio_loopback.cc: the output router and the set-up check, lines
    1244-1442 *)
Module Router.
(** [g_originalOutputDevice], the system's default output device, and what
    was printed. *)
Record Output : Type := mkOutput {
  g_originalOutputDevice : Z;
  default_output : Z;
  log : list string
}.

(** The state when the add-on is loaded. *)
Definition loaded (default : Z) : Output :=
  {| g_originalOutputDevice := CoreAudio.kAudioDeviceUnknown;
     default_output := default; log := [] |}.

Definition printf (msg : string) (o : Output) : Output :=
  {| g_originalOutputDevice := g_originalOutputDevice o;
     default_output := default_output o; log := log o ++ [msg] |}.

(** [Napi::Value SetSystemOutputToBlackHole(info)]: the Boolean it
    returns.  A failing read leaves [g_originalOutputDevice] as it was. *)
Definition SetSystemOutputToBlackHole (hal : Devices.HAL) (o : Output)
  : bool * Output :=
  if negb (Devices.GetDefaultOutputDevice hal) then
    (false, printf "[addon] Failed to get current output device" o)
  else
    let o := {| g_originalOutputDevice := default_output o;
                default_output := default_output o; log := log o |} in
    let blackHoleOutput := Devices.FindBlackHoleOutputDevice hal in
    if blackHoleOutput =? CoreAudio.kAudioDeviceUnknown then
      (false, printf "[addon] BlackHole output device not found" o)
    else if negb (Devices.SetDefaultOutputDevice hal) then
      (false, printf "[addon] Failed to set BlackHole as output device" o)
    else
      let o := {| g_originalOutputDevice := g_originalOutputDevice o;
                  default_output := blackHoleOutput; log := log o |} in
      (true, printf "[addon] System output changed to BlackHole (original saved)" o).

(** [Napi::Value RestoreSystemOutput(info)]: the Boolean it returns. *)
Definition RestoreSystemOutput (hal : Devices.HAL) (o : Output) : bool * Output :=
  if g_originalOutputDevice o =? CoreAudio.kAudioDeviceUnknown then
    (false, printf "[addon] No original output device to restore" o)
  else if negb (Devices.SetDefaultOutputDevice hal) then
    (false, printf "[addon] Failed to restore original output device" o)
  else
    let o := {| g_originalOutputDevice := g_originalOutputDevice o;
                default_output := g_originalOutputDevice o; log := log o |} in
    let o := printf "[addon] System output restored to original device" o in
    (true, {| g_originalOutputDevice := CoreAudio.kAudioDeviceUnknown;
              default_output := default_output o; log := log o |}).

(** [std::to_string] of an [AudioDeviceID]. *)
Definition to_string (device : Z) : string :=
  NilZero.string_of_uint (N.to_uint (Z.to_N device)).

(** [Napi::Value GetRealOutputDevice(info)] *)
Definition GetRealOutputDevice (hal : Devices.HAL) (o : Output) : Napi.Value :=
  let answer (currentDevice : Z) : Napi.Value :=
    match Devices.DeviceName hal Devices.Output currentDevice with
    | Some nameBuffer =>
        let name := Devices.transform Procs.tolower nameBuffer in
        if Devices.contains "blackhole" name then Napi.Null
        else Napi.Str (to_string currentDevice)
    | None => Napi.Str (to_string currentDevice)
    end in
  let currentDevice := g_originalOutputDevice o in
  if currentDevice =? CoreAudio.kAudioDeviceUnknown then
    if negb (Devices.GetDefaultOutputDevice hal) then Napi.Null
    else answer (default_output o)
  else answer currentDevice.

(** The object [CheckMultiOutputSetup] returns; a property it does not
    set is [None]. *)
Record Setup : Type := mkSetup {
  blackHoleInstalled : bool;
  isConfigured : option bool;
  message : option string;
  defaultOutputName : option string
}.

(** [Napi::Value CheckMultiOutputSetup(info)]; [default] is the system's
    default output device. *)
Definition CheckMultiOutputSetup (hal : Devices.HAL) (default : Z) : Setup :=
  let blackHole := Devices.FindBlackHoleOutputDevice hal in
  if blackHole =? CoreAudio.kAudioDeviceUnknown then
    {| blackHoleInstalled := false; isConfigured := Some false;
       message := Some "BlackHole 2ch is not installed. Please install it from https://existential.audio/blackhole/"%string;
       defaultOutputName := None |}
  else
    let defaultOutput := Devices.FindDefaultOutputDevice hal default in
    if defaultOutput =? CoreAudio.kAudioDeviceUnknown then
      {| blackHoleInstalled := true; isConfigured := Some false;
         message := Some "No default output device found"%string;
         defaultOutputName := None |}
    else
      match Devices.DeviceName hal Devices.Output defaultOutput with
      | Some nameBuffer =>
          let name := Devices.transform Procs.tolower nameBuffer in
          let isMultiOutput :=
            Devices.contains "multi" name || Devices.contains "aggregate" name in
          {| blackHoleInstalled := true; isConfigured := Some isMultiOutput;
             message :=
               Some (if isMultiOutput then
                       "Multi-Output device detected - setup is correct!"
                     else if (defaultOutput =? blackHole)%Z then
                       "Default output is BlackHole - you won't hear audio. Please create a Multi-Output Device."
                     else
                       "Please create a Multi-Output Device in Audio MIDI Setup with your speakers and BlackHole 2ch, then set it as default output.")%string;
             defaultOutputName := Some nameBuffer |}
      | None =>
          {| blackHoleInstalled := true; isConfigured := None;
             message := None; defaultOutputName := None |}
      end.
End Router.

(** ** wasapi_loopback.cc: the exported functions, lines 600-705 *)
Module WasapiAddon.
(** [g_capture], the number of thread-safe functions made so far, and what
    the exported functions print and release themselves (the capture
    object keeps its own record in [Wasapi.out]). *)
Record Addon : Type := mkAddon {
  g_capture : option Wasapi.Capture;
  created : nat;
  stdout : Io.Out
}.

(** The add-on when it is loaded. *)
Definition loaded : Addon :=
  {| g_capture := None; created := O; stdout := Io.empty |}.

Definition printf (msg : string) (a : Addon) : Addon :=
  {| g_capture := g_capture a; created := created a;
     stdout := Io.printf msg (stdout a) |}.

(** [Napi::ThreadSafeFunction::New(env, cb, "PCMCallback", 0, 1)]: every
    call makes a new thread-safe function, known by its rank from 1. *)
Definition New (cb : nat) (a : Addon) : nat * Addon :=
  (S (created a),
   {| g_capture := g_capture a; created := S (created a); stdout := stdout a |}).

(** [tsfn.Release()] in an exported function. *)
Definition Release (tsfn : nat) (a : Addon) : Addon :=
  {| g_capture := g_capture a; created := created a;
     stdout := Io.Release tsfn (stdout a) |}.

(** [if (!g_capture) g_capture = std::make_unique<WasapiLoopbackCapture>();
    bool ok = g_capture->Start(pid, tsfn);] *)
Definition start (be : Wasapi.Backend) (pid : Z) (tsfn : nat) (a : Addon)
  : option (bool * Addon) :=
  let capture := match g_capture a with
                 | Some capture => capture
                 | None => Wasapi.new
                 end in
  match Wasapi.Start be pid tsfn capture with
  | None => None
  | Some (ok, capture) =>
      Some (ok, {| g_capture := Some capture; created := created a;
                   stdout := stdout a |})
  end.

(** [Napi::Value StartCapture(info)]; [None] is [std::terminate]. *)
Definition StartCapture (be : Wasapi.Backend) (info : Napi.CallbackInfo) (a : Addon)
  : option (Napi.Completion * Addon) :=
  let pid := if (Napi.Length info >? 0) && Napi.IsNumber (Napi.arg info 0)
             then Napi.Uint32Value (Napi.arg info 0) else 0 in
  if (Napi.Length info <? 2) || negb (Napi.IsFunction (Napi.arg info 1)) then
    Some (Napi.Throw (Napi.TypeError "Callback required"), a)
  else
    let cb := Napi.AsFunction (Napi.arg info 1) in
    let '(tsfn, a) := New cb a in
    match start be pid tsfn a with
    | None => None
    | Some (ok, a) => Some (Napi.Return (Napi.Boolean ok), a)
    end.

(** [Napi::Value StopCapture(info)] *)
Definition StopCapture (a : Addon) : Napi.Completion * Addon :=
  (Napi.Return Napi.Undefined,
   match g_capture a with
   | Some capture =>
       {| g_capture := Some (Wasapi.Stop capture); created := created a;
          stdout := stdout a |}
   | None => a
   end).

(** [Napi::Value StartCaptureExcludeCurrent(info)] *)
Definition StartCaptureExcludeCurrent (be : Wasapi.Backend)
           (info : Napi.CallbackInfo) (a : Addon)
  : option (Napi.Completion * Addon) :=
  if (Napi.Length info <? 1) || negb (Napi.IsFunction (Napi.arg info 1)) then
    Some (Napi.Throw (Napi.TypeError "Callback required"), a)
  else
    let cb := Napi.AsFunction (Napi.arg info 1) in
    let '(tsfn, a) := New cb a in
    match start be 0 tsfn a with
    | None => None
    | Some (ok, a) => Some (Napi.Return (Napi.Boolean ok), a)
    end.

(** Lines 654-664 of [StartCaptureByProcessName]. *)
Definition start_and_report (be : Wasapi.Backend) (pid : Z) (tsfn : nat) (a : Addon)
  : option (Napi.Completion * Addon) :=
  match start be pid tsfn a with
  | None => None
  | Some (ok, a) =>
      let a := if ok
               then printf "[addon] StartCaptureByProcessName: Capture started successfully for PID" a
               else printf "[addon] StartCaptureByProcessName: Failed to start capture for PID" a in
      Some (Napi.Return (Napi.Boolean ok), a)
  end.

(** [Napi::Value StartCaptureByProcessName(info)] on the system
    [(snapshot_ok, current, system)]. *)
Definition StartCaptureByProcessName (be : Wasapi.Backend)
           (snapshot_ok : bool) (current : Z) (system : list WasapiProcs.PROCESSENTRY32)
           (info : Napi.CallbackInfo) (a : Addon)
  : option (Napi.Completion * Addon) :=
  if Napi.Length info <? 2 then
    Some (Napi.Throw (Napi.TypeError "Process name and callback required"), a)
  else
    let processName := if Napi.IsString (Napi.arg info 0)
                       then Napi.Utf8Value (Napi.arg info 0) else EmptyString in
    if negb (Napi.IsFunction (Napi.arg info 1)) then
      Some (Napi.Throw (Napi.TypeError "Callback required"), a)
    else
      let cb := Napi.AsFunction (Napi.arg info 1) in
      let '(tsfn, a) := New cb a in
      if negb (String.eqb processName EmptyString) then
        let a := printf "[addon] StartCaptureByProcessName: Looking for process" a in
        let pid := WasapiProcs.FindPidForProcess snapshot_ok current system processName in
        if pid =? 0 then
          let a := Release tsfn a in
          let a := printf "[addon] StartCaptureByProcessName: Process not found" a in
          Some (Napi.Throw (Napi.Error ("Process not found: " ++ processName)), a)
        else
          let a := printf "[addon] StartCaptureByProcessName: Found process, starting capture..." a in
          start_and_report be pid tsfn a
      else start_and_report be 0 tsfn a.
End WasapiAddon.

(** ** coreaudio_loopback.cc: the exported functions, lines 1106-1193 *)
Module CoreAudioAddon.
Section Glue.
(** The members the constructor leaves indeterminate. *)
Variables (pid0 dev0 : Z) (dsp0 : Dsp.State)
          (fmt0 : CoreAudio.AudioStreamBasicDescription).

(** [g_capture], the function-local statics and the standard output of
    the add-on, and the number of thread-safe functions made so far. *)
Record Addon : Type := mkAddon {
  g_capture : option CoreAudio.Capture;
  statics : CoreAudio.Statics;
  out : Io.Out;
  created : nat
}.

Definition printf (msg : string) (a : Addon) : Addon :=
  {| g_capture := g_capture a; statics := statics a;
     out := Io.printf msg (out a); created := created a |}.

Definition New (cb : nat) (a : Addon) : nat * Addon :=
  (S (created a),
   {| g_capture := g_capture a; statics := statics a; out := out a;
      created := S (created a) |}).

Definition Release (tsfn : nat) (a : Addon) : Addon :=
  {| g_capture := g_capture a; statics := statics a;
     out := Io.Release tsfn (out a); created := created a |}.

(** The capture object with the statics and the output it shares. *)
Definition world (capture : CoreAudio.Capture) (a : Addon) : CoreAudio.World :=
  {| CoreAudio.capture := capture; CoreAudio.statics := statics a;
     CoreAudio.out := out a |}.

Definition of_world (w : CoreAudio.World) (a : Addon) : Addon :=
  {| g_capture := Some (CoreAudio.capture w); statics := CoreAudio.statics w;
     out := CoreAudio.out w; created := created a |}.

(** [if (!g_capture) g_capture = std::make_unique<CoreAudioLoopbackCapture>();
    bool ok = g_capture->Start(pid, tsfn);] *)
Definition start (be : CoreAudio.Backend) (pid : Z) (tsfn : nat) (a : Addon)
  : option (bool * Addon) :=
  let capture := match g_capture a with
                 | Some capture => capture
                 | None => CoreAudio.new pid0 dev0 dsp0 fmt0
                 end in
  match CoreAudio.Start be pid tsfn (world capture a) with
  | None => None
  | Some (ok, w) => Some (ok, of_world w a)
  end.

(** [Napi::Value StartCapture(info)]; [None] is [std::terminate]. *)
Definition StartCapture (be : CoreAudio.Backend) (info : Napi.CallbackInfo) (a : Addon)
  : option (Napi.Completion * Addon) :=
  let pid := if (Napi.Length info >? 0) && Napi.IsNumber (Napi.arg info 0)
             then Napi.Uint32Value (Napi.arg info 0) else 0 in
  if (Napi.Length info <? 2) || negb (Napi.IsFunction (Napi.arg info 1)) then
    Some (Napi.Throw (Napi.TypeError "Callback required"), a)
  else
    let cb := Napi.AsFunction (Napi.arg info 1) in
    let '(tsfn, a) := New cb a in
    match start be pid tsfn a with
    | None => None
    | Some (ok, a) => Some (Napi.Return (Napi.Boolean ok), a)
    end.

(** [Napi::Value StopCapture(info)] *)
Definition StopCapture (a : Addon) : Napi.Completion * Addon :=
  (Napi.Return Napi.Undefined,
   match g_capture a with
   | Some capture => of_world (CoreAudio.Stop (world capture a)) a
   | None => a
   end).

(** [Napi::Value StartCaptureExcludeCurrent(info)] *)
Definition StartCaptureExcludeCurrent (be : CoreAudio.Backend)
           (info : Napi.CallbackInfo) (a : Addon)
  : option (Napi.Completion * Addon) :=
  if (Napi.Length info <? 1) || negb (Napi.IsFunction (Napi.arg info 0)) then
    Some (Napi.Throw (Napi.TypeError "Callback required"), a)
  else
    let cb := Napi.AsFunction (Napi.arg info 0) in
    let '(tsfn, a) := New cb a in
    match start be 0 tsfn a with
    | None => None
    | Some (ok, a) => Some (Napi.Return (Napi.Boolean ok), a)
    end.

(** Lines 1182-1192 of [StartCaptureByProcessName]. *)
Definition start_and_report (be : CoreAudio.Backend) (pid : Z) (tsfn : nat) (a : Addon)
  : option (Napi.Completion * Addon) :=
  match start be pid tsfn a with
  | None => None
  | Some (ok, a) =>
      let a := if ok
               then printf "[addon] StartCaptureByProcessName: Capture started successfully for PID" a
               else printf "[addon] StartCaptureByProcessName: Failed to start capture for PID" a in
      Some (Napi.Return (Napi.Boolean ok), a)
  end.

(** [Napi::Value StartCaptureByProcessName(info)] on the system
    [(numberOfProcesses, currentPid, buffer, proc_name)]. *)
Definition StartCaptureByProcessName (be : CoreAudio.Backend)
           (numberOfProcesses currentPid : Z) (buffer : list Z)
           (proc_name : Z -> option string)
           (info : Napi.CallbackInfo) (a : Addon)
  : option (Napi.Completion * Addon) :=
  if Napi.Length info <? 2 then
    Some (Napi.Throw (Napi.TypeError "Process name and callback required"), a)
  else
    let processName := if Napi.IsString (Napi.arg info 0)
                       then Napi.Utf8Value (Napi.arg info 0) else EmptyString in
    if negb (Napi.IsFunction (Napi.arg info 1)) then
      Some (Napi.Throw (Napi.TypeError "Callback required"), a)
    else
      let cb := Napi.AsFunction (Napi.arg info 1) in
      let '(tsfn, a) := New cb a in
      if negb (String.eqb processName EmptyString) then
        let a := printf "[addon] StartCaptureByProcessName: Looking for process" a in
        let foundPid := CoreAudioProcs.FindPidForProcess numberOfProcesses currentPid
                                                         buffer proc_name processName in
        if foundPid =? 0 then
          let a := Release tsfn a in
          let a := printf "[addon] StartCaptureByProcessName: Process not found" a in
          Some (Napi.Throw (Napi.Error ("Process not found: " ++ processName)), a)
        else
          let pid := Wav.u32 foundPid in
          let a := printf "[addon] StartCaptureByProcessName: Found process, starting capture..." a in
          start_and_report be pid tsfn a
      else start_and_report be 0 tsfn a.
End Glue.
End CoreAudioAddon.

(** ** Example systems *)
Module Setups.
(** Built-in speakers, BlackHole 2ch and a multi-output device. *)
Definition studio : Devices.HAL :=
  {| Devices.GetDevicesSize := true;
     Devices.GetDevices := Some [41; 57; 73];
     Devices.DeviceName := fun _ d =>
       if d =? 41 then Some "MacBook Pro Speakers"%string
       else if d =? 57 then Some "BlackHole 2ch"%string
       else if d =? 73 then Some "Multi-Output Device"%string
       else None;
     Devices.StreamConfigurationSize := fun scope d =>
       match scope with
       | Devices.Input => if d =? 57 then Some 24 else Some 0
       | Devices.Output => Some 24
       end;
     Devices.GetDefaultOutputDevice := true;
     Devices.SetDefaultOutputDevice := true |}.

(** Three processes as Windows shows them; 900 is the caller. *)
Definition desktop : list WasapiProcs.PROCESSENTRY32 :=
  [ {| WasapiProcs.th32ProcessID := 4; WasapiProcs.can_query := false;
       WasapiProcs.module_base_name := None |};
    {| WasapiProcs.th32ProcessID := 900; WasapiProcs.can_query := true;
       WasapiProcs.module_base_name := Some "electron.exe"%string |};
    {| WasapiProcs.th32ProcessID := 1200; WasapiProcs.can_query := true;
       WasapiProcs.module_base_name := Some "chrome.exe"%string |} ].

(** The same on macOS. *)
Definition mac_names (pid : Z) : option string :=
  if pid =? 900 then Some "Electron"%string
  else if pid =? 1200 then Some "Google Chrome"%string
  else None.

(** A WASAPI add-on whose capture is running. *)
Definition windows_busy : WasapiAddon.Addon :=
  {| WasapiAddon.g_capture := Some Examples.windows_running;
     WasapiAddon.created := 1%nat;
     WasapiAddon.stdout := Io.empty |}.

(** A CoreAudio add-on whose capture is running. *)
Definition mac_busy : CoreAudioAddon.Addon :=
  {| CoreAudioAddon.g_capture := Some (CoreAudio.capture Examples.mac_running);
     CoreAudioAddon.statics := CoreAudio.statics Examples.mac_running;
     CoreAudioAddon.out := CoreAudio.out Examples.mac_running;
     CoreAudioAddon.created := 1%nat |}.
End Setups.

(** * Properties *)

(** ** Truncation *)

Lemma Int_part_bounds (r : R) (z : Z) :
  (IZR z <= r < IZR z + 1)%R -> Int_part r = z.
Proof.
  intros [Hlo Hhi]. symmetry. apply Int_part_spec. split; lra.
Qed.

Lemma Int_part_IZR (z : Z) : Int_part (IZR z) = z.
Proof. apply Int_part_bounds. lra. Qed.

Lemma Rtrunc_nonneg (r : R) (z : Z) :
  (0 <= r)%R -> (IZR z <= r < IZR z + 1)%R -> Rtrunc r = z.
Proof.
  intros H0 Hb. unfold Rtrunc. destruct (Rle_dec 0 r) as [_|n]; [|contradiction].
  now apply Int_part_bounds.
Qed.

Lemma Rtrunc_neg (r : R) (z : Z) :
  (r < 0)%R -> (IZR z - 1 < r <= IZR z)%R -> Rtrunc r = z.
Proof.
  intros H0 [Hlo Hhi]. unfold Rtrunc. destruct (Rle_dec 0 r) as [p|_]; [lra|].
  rewrite (Int_part_bounds (- r) (- z)); [lia|].
  rewrite opp_IZR. lra.
Qed.

Lemma Rtrunc_IZR (z : Z) : Rtrunc (IZR z) = z.
Proof.
  destruct (Z_lt_le_dec z 0) as [Hneg|Hpos].
  - apply Rtrunc_neg; [apply (IZR_lt z 0); lia | lra].
  - apply Rtrunc_nonneg; [apply (IZR_le 0 z); lia | lra].
Qed.

(** Truncated real division of two integers is integer division. *)
Lemma Rtrunc_div (a b : Z) :
  0 <= a -> 0 < b -> Rtrunc (IZR a / IZR b) = a / b.
Proof.
  intros Ha Hb.
  assert (HbR : (0 < IZR b)%R) by (apply (IZR_lt 0 b); lia).
  assert (HaR : (0 <= IZR a)%R) by (apply (IZR_le 0 a); lia).
  pose proof (Z.mul_div_le a b Hb) as Hlo.
  pose proof (Z.mul_succ_div_gt a b Hb) as Hhi.
  apply Rtrunc_nonneg.
  - apply Rmult_le_pos; [lra|]. left. now apply Rinv_0_lt_compat.
  - split.
    + apply Rmult_le_reg_r with (IZR b); [lra|].
      unfold Rdiv. rewrite Rmult_assoc, Rinv_l, Rmult_1_r by lra.
      rewrite <- mult_IZR. apply IZR_le. lia.
    + apply Rmult_lt_reg_r with (IZR b); [lra|].
      unfold Rdiv. rewrite Rmult_assoc, Rinv_l, Rmult_1_r by lra.
      replace ((IZR (a / b) + 1) * IZR b)%R with (IZR (b * Z.succ (a / b))).
      * apply IZR_lt. lia.
      * rewrite mult_IZR, succ_IZR. ring.
Qed.

(** ** Resampling length *)

Lemma resample_len_floor (n inRate : Z) :
  0 <= n -> 0 < inRate ->
  Dsp.resample_len n inRate = Z.max 1 (n * 16000 / inRate).
Proof.
  intros Hn Hr. unfold Dsp.resample_len, Dsp.outRate.
  rewrite <- mult_IZR, Rtrunc_div by lia.
  assert (0 <= n * 16000 / inRate) by (apply Z.div_pos; lia).
  destruct (Z.eqb_spec (n * 16000 / inRate) 0); lia.
Qed.

Lemma resample_length (mono : list R) (inRate : Z) :
  Z.of_nat (length (Dsp.resample mono inRate))
  = Z.max 0 (Dsp.resample_len (Z.of_nat (length mono)) inRate).
Proof.
  unfold Dsp.resample. rewrite length_map, length_seq. lia.
Qed.

(** [Spec.round_div] is rounding to nearest: twice the distance to the
    exact quotient is at most one. *)
Lemma round_div_nearest (a b : Z) :
  0 <= a -> 0 < b ->
  2 * b * Spec.round_div a b - b <= 2 * a < 2 * b * Spec.round_div a b + b.
Proof.
  intros Ha Hb. unfold Spec.round_div.
  pose proof (Z.mul_div_le (2 * a + b) (2 * b)).
  pose proof (Z.mul_succ_div_gt (2 * a + b) (2 * b)).
  lia.
Qed.

(** On every common rate and every buffer of up to 1024 frames the
    binary64 evaluation gives the truncated quotient too: the product is
    exact, and the rounded quotient has the integer part of the exact
    one. *)
Lemma resample_len_binary64 :
  forallb (fun inRate =>
             forallb (fun n => Ieee.resample_len n inRate
                               =? Z.max 1 (n * 16000 / inRate))
                     (Ieee.sizes 1024))
          Ieee.rates = true.
Proof. vm_compute. reflexivity. Qed.

Lemma resample_len_binary64_five_frames : Ieee.resample_len 5 48000 = 1.
Proof. vm_compute. reflexivity. Qed.

(** C2, as stated, fails: five frames at 48 kHz are 1.67 output samples,
    which rounds to 2, and the code produces 1. *)
Lemma C2_counterexample :
  length (Dsp.resample [0; 0; 0; 0; 0]%R 48000) = 1%nat /\
  Spec.resample_len 5 48000 = 2.
Proof.
  split; [|reflexivity].
  apply Nat2Z.inj. rewrite resample_length. cbn [length Z.of_nat Pos.of_succ_nat Pos.succ].
  rewrite resample_len_floor by lia. reflexivity.
Qed.

(** C2, amended: for a non-empty mono buffer of N samples at an input rate
    R > 0 the resampling step produces exactly floor(N * 16000 / R) output
    samples, with a minimum of 1; that count is round(N * 16000 / R) or one
    less. *)
Theorem C2_resample_length_truncates (mono : list R) (inRate : Z) :
  mono <> [] -> 0 < inRate ->
  let N := Z.of_nat (length mono) in
  let outLen := Z.of_nat (length (Dsp.resample mono inRate)) in
  outLen = Z.max 1 (N * 16000 / inRate) /\
  Spec.resample_len N inRate - 1 <= outLen <= Spec.resample_len N inRate.
Proof.
  intros Hne Hr N outLen. subst outLen.
  rewrite resample_length. fold N.
  assert (HN : 0 <= N) by (subst N; lia).
  rewrite resample_len_floor by lia.
  split; [lia|].
  unfold Spec.resample_len, Dsp.outRate.
  pose proof (round_div_nearest (N * 16000) inRate ltac:(lia) Hr) as Hrd.
  pose proof (Z.mul_div_le (N * 16000) inRate Hr).
  pose proof (Z.mul_succ_div_gt (N * 16000) inRate Hr).
  assert (0 <= N * 16000 / inRate) by (apply Z.div_pos; lia).
  nia.
Qed.

Lemma C2_witness :
  Z.of_nat (length (Dsp.resample [0; 0; 0; 0; 0]%R 48000)) = 1 /\
  Spec.resample_len 5 48000 - 1
  <= Z.of_nat (length (Dsp.resample [0; 0; 0; 0; 0]%R 48000))
  <= Spec.resample_len 5 48000.
Proof.
  apply (C2_resample_length_truncates [0; 0; 0; 0; 0]%R 48000).
  - discriminate.
  - lia.
Defined.

(** ** Quantisation *)


Lemma clip1_range (x : R) : (-1 <= Dsp.clip1 x <= 1)%R.
Proof. unfold Dsp.clip1. rcases; lra. Qed.

Lemma clip1_id (x : R) : (-1 <= x <= 1)%R -> Dsp.clip1 x = x.
Proof. intros H. unfold Dsp.clip1. rcases; lra. Qed.

Lemma IZR_gap (z : Z) (k : Z) : (IZR z <= IZR k \/ IZR k + 1 <= IZR z)%R.
Proof.
  destruct (Z_le_gt_dec z k) as [Hle | Hgt].
  - left. now apply IZR_le.
  - right. rewrite <- plus_IZR. apply IZR_le. lia.
Qed.

Lemma round_half_away_unique (y : R) (z1 z2 : Z) :
  Spec.round_half_away y z1 -> Spec.round_half_away y z2 -> z1 = z2.
Proof.
  unfold Spec.round_half_away. intros [H1 T1] [H2 T2].
  pose proof (IZR_gap z1 (-1)) as G1. pose proof (IZR_gap z2 (-1)) as G2.
  pose proof (IZR_gap z1 0) as G3. pose proof (IZR_gap z2 0) as G4.
  destruct (Z.lt_trichotomy z1 z2) as [Hlt | [Heq | Hgt]]; [exfalso | exact Heq | exfalso].
  - assert (IZR z1 + 1 <= IZR z2)%R by (rewrite <- plus_IZR; apply IZR_le; lia).
    revert H1 T1 H2 T2. unfold Rabs. rcases; intros; lra.
  - assert (IZR z2 + 1 <= IZR z1)%R by (rewrite <- plus_IZR; apply IZR_le; lia).
    revert H1 T1 H2 T2. unfold Rabs. rcases; intros; lra.
Qed.

(** The rounding the code performs on a clipped sample. *)
Lemma quantize_clipped (c : R) :
  (-1 <= c <= 1)%R ->
  let s := Rtrunc (c * 32767 + (if Rge_dec c 0 then 0.5 else -0.5)) in
  Spec.round_half_away (c * 32767) s /\ -32767 <= s <= 32767.
Proof.
  intros Hc s. subst s. destruct (Rge_dec c 0) as [Hpos | Hneg].
  - unfold Rtrunc. destruct (Rle_dec 0 (c * 32767 + 0.5)) as [_ | n]; [|lra].
    pose proof (base_Int_part (c * 32767 + 0.5)) as [Hlo Hhi].
    set (z := Int_part (c * 32767 + 0.5)) in *.
    assert (Hz0 : 0 <= z).
    { apply Z.lt_succ_r, lt_IZR. rewrite succ_IZR. lra. }
    assert (Hz1 : z <= 32767).
    { apply Z.lt_succ_r, lt_IZR. rewrite succ_IZR. lra. }
    split; [|lia].
    assert (0 <= IZR z)%R by (apply (IZR_le 0 z); lia).
    unfold Spec.round_half_away, Rabs. rcases; split; intros; lra.
  - unfold Rtrunc. destruct (Rle_dec 0 (c * 32767 + -0.5)) as [p | _]; [lra|].
    pose proof (base_Int_part (- (c * 32767 + -0.5))) as [Hlo Hhi].
    set (m := Int_part (- (c * 32767 + -0.5))) in *.
    assert (Hm0 : 0 <= m).
    { apply Z.lt_succ_r, lt_IZR. rewrite succ_IZR. lra. }
    assert (Hm1 : m <= 32767).
    { apply Z.lt_succ_r, lt_IZR. rewrite succ_IZR. lra. }
    split; [|lia].
    assert (0 <= IZR m)%R by (apply (IZR_le 0 m); lia).
    unfold Spec.round_half_away. rewrite opp_IZR.
    unfold Rabs. rcases; split; intros; lra.
Qed.

Lemma quantize_spec (x : R) :
  Spec.round_half_away (Dsp.clip1 x * 32767) (Dsp.quantize x) /\
  -32767 <= Dsp.quantize x <= 32767.
Proof.
  pose proof (quantize_clipped (Dsp.clip1 x) (clip1_range x)) as [Hr Hb].
  cbv zeta in Hr, Hb. unfold Dsp.quantize.
  set (s := Rtrunc _) in *.
  destruct (Z.gtb_spec s 32767); [lia|].
  destruct (Z.ltb_spec s (-32768)); [lia|].
  split; [exact Hr | lia].
Qed.



(** The value at the witness: 16383.5 goes away from zero, to 16384. *)
Lemma quantize_half : Dsp.quantize (1 / 2) = 16384.
Proof.
  apply (round_half_away_unique (1 / 2 * 32767)).
  - pose proof (quantize_spec (1 / 2)) as [Hr _].
    rewrite clip1_id in Hr by lra. exact Hr.
  - unfold Spec.round_half_away, Rabs. rcases; split; intros; lra.
Qed.

(** ** The adaptive gate *)

Lemma fabs_Rabs (x : R) : Dsp.fabs x = Rabs x.
Proof. unfold Dsp.fabs, Rabs. rcases; lra. Qed.











(** The session state after the samples [xs], in one buffer or in many. *)
Lemma gate_buffer_app (xs ys : list R) (d : Dsp.State) :
  Dsp.gate_buffer d (xs ++ ys)
  = let (d1, o1) := Dsp.gate_buffer d xs in
    let (d2, o2) := Dsp.gate_buffer d1 ys in
    (d2, o1 ++ o2).
Proof.
  revert d. induction xs as [|x xs IH]; intros d; cbn [Dsp.gate_buffer app].
  - destruct (Dsp.gate_buffer d ys); reflexivity.
  - destruct (Dsp.gate_sample d x) as [d1 y]. rewrite IH.
    destruct (Dsp.gate_buffer d1 xs) as [d2 o1].
    destruct (Dsp.gate_buffer d2 ys) as [d3 o2]. reflexivity.
Qed.









(** ** Voice boost and limiter *)

Lemma peak_fold (l : list R) (p : R) :
  let f := fun peak v => let av2 := Dsp.fabs v in
                         if Rgt_dec av2 peak then av2 else peak in
  let r := fold_left f l p in
  (p <= r)%R /\ (forall v, In v l -> (Rabs v <= r)%R) /\
  (r = p \/ exists v, In v l /\ r = Rabs v).
Proof.
  intros f. revert p. induction l as [|a l IH]; intros p; cbn [fold_left].
  - split; [lra|]. split; [intros v []|now left].
  - specialize (IH (f p a)). cbv zeta in IH.
    destruct IH as (Hle & Hall & Hex).
    assert (Hstep : (p <= f p a)%R /\ (Rabs a <= f p a)%R /\
                    (f p a = p \/ f p a = Rabs a)).
    { subst f. cbv beta zeta. rewrite fabs_Rabs.
      destruct (Rgt_dec (Rabs a) p); repeat split; try lra; auto. }
    destruct Hstep as (H1 & H2 & H3).
    split; [lra|]. split.
    + intros v [<- | Hin]; [lra | now apply Hall].
    + destruct Hex as [Heq | (v & Hin & Hv)].
      * destruct H3 as [H3 | H3].
        -- left. congruence.
        -- right. exists a. split; [now left | congruence].
      * right. exists v. split; [now right | exact Hv].
Qed.

(** [peak_of] is the largest magnitude in the buffer (0 for none). *)
Lemma peak_of_max (l : list R) :
  (0 <= Dsp.peak_of l)%R /\
  (forall v, In v l -> (Rabs v <= Dsp.peak_of l)%R) /\
  (Dsp.peak_of l = 0%R \/ exists v, In v l /\ Dsp.peak_of l = Rabs v).
Proof. exact (peak_fold l 0). Qed.

(** Every sample that leaves the limiter is within 0.99 of zero, so the
    clip of the quantisation step never acts on it. *)
Lemma post_limiter_bound (gated : list R) (v : R) :
  In v gated ->
  (Rabs (v * Dsp.boost_gain (Dsp.peak_of gated)) <= 0.99)%R.
Proof.
  intros Hin. destruct (peak_of_max gated) as (H0 & Hall & _).
  specialize (Hall v Hin). set (peak := Dsp.peak_of gated) in *.
  unfold Dsp.boost_gain, Dsp.kVoiceBoost.
  destruct (Rlt_dec peak 1e-6) as [Hsmall | Hbig].
  - rewrite Rabs_mult, (Rabs_pos_eq 1.5) by lra. lra.
  - destruct (Rgt_dec (peak * 1.5) 0.99) as [Hover | Hunder].
    + assert (Hgpos : (0 < 0.99 / peak)%R).
      { unfold Rdiv. apply Rmult_lt_0_compat; [lra|]. apply Rinv_0_lt_compat. lra. }
      assert (Hpg : (peak * (0.99 / peak))%R = 0.99%R) by (field; lra).
      rewrite Rabs_mult, (Rabs_pos_eq (0.99 / peak)) by lra.
      rewrite <- Hpg at 2. apply Rmult_le_compat_r; lra.
    + rewrite Rabs_mult, (Rabs_pos_eq 1.5) by lra. lra.
Qed.

(** Steps 4 and 5 together: each int16 sample of the frame is the boosted
    sample times 32767, rounded to nearest with ties away from zero. *)
Lemma quantize_buffer_rounds (gated : list R) (v : R) :
  In v gated ->
  let x := (v * Dsp.boost_gain (Dsp.peak_of gated))%R in
  In (Dsp.quantize x) (Dsp.quantize_buffer gated (Dsp.boost_gain (Dsp.peak_of gated))) /\
  Spec.round_half_away (x * 32767) (Dsp.quantize x).
Proof.
  intros Hin x. split.
  - unfold Dsp.quantize_buffer. apply in_map_iff. now exists v.
  - pose proof (post_limiter_bound gated v Hin) as Hb. fold x in Hb.
    pose proof (quantize_spec x) as [Hr _].
    rewrite clip1_id in Hr; [exact Hr|].
    revert Hb. unfold Rabs. destruct (Rcase_abs x); lra.
Qed.




(** ** The RIFF/WAVE frame *)

Lemma u32_small (x : Z) : 0 <= x < 2 ^ 32 -> Wav.u32 x = x.
Proof. intros H. unfold Wav.u32. now apply Z.mod_small. Qed.

Lemma u16_small (x : Z) : 0 <= x < 2 ^ 16 -> Wav.u16 x = x.
Proof. intros H. unfold Wav.u16. now apply Z.mod_small. Qed.

Lemma pcm_bytes_length (s : list Z) :
  length (Wav.pcm_bytes s) = (2 * length s)%nat.
Proof.
  unfold Wav.pcm_bytes. induction s as [|a s IH]; cbn [flat_map]; [reflexivity|].
  rewrite length_app, IH. cbn [Wav.le_bytes length]. lia.
Qed.

(** A copy that stays inside the first part of a buffer leaves the rest. *)
Lemma memcpy_head (h t : list Z) (off : nat) (src : list Z) :
  (off + length src <= length h)%nat ->
  Wav.memcpy (h ++ t) off src = Wav.memcpy h off src ++ t.
Proof.
  intros Hb. unfold Wav.memcpy.
  rewrite firstn_app, skipn_app.
  replace (off - length h)%nat with O by lia.
  replace (off + length src - length h)%nat with O by lia.
  cbn [firstn skipn]. rewrite app_nil_r, <- !app_assoc. reflexivity.
Qed.

Lemma memcpy_length (buf : list Z) (off : nat) (src : list Z) :
  (off + length src <= length buf)%nat ->
  length (Wav.memcpy buf off src) = length buf.
Proof.
  intros Hb. unfold Wav.memcpy.
  rewrite !length_app, length_firstn, length_skipn. lia.
Qed.

(** A copy that replaces everything after the first part. *)
Lemma memcpy_tail (h t : list Z) (src : list Z) :
  length src = length t ->
  Wav.memcpy (h ++ t) (length h) src = h ++ src.
Proof.
  intros Hl. unfold Wav.memcpy.
  rewrite firstn_app, Nat.sub_diag, firstn_all. cbn [firstn]. rewrite app_nil_r.
  rewrite skipn_all2 by (rewrite length_app; lia).
  now rewrite app_nil_r.
Qed.

Lemma le_value_bytes (w : nat) (v : Z) :
  0 <= v < 256 ^ Z.of_nat w -> Wav.le_value (Wav.le_bytes w v) = v.
Proof.
  revert v. induction w as [|w IH]; intros v Hv; cbn [Wav.le_bytes Wav.le_value].
  - cbn in Hv. lia.
  - rewrite IH.
    + pose proof (Z.div_mod v 256). lia.
    + rewrite Nat2Z.inj_succ, Z.pow_succ_r in Hv by lia.
      split; [apply Z.div_pos; lia|].
      apply Z.div_lt_upper_bound; lia.
Qed.

(** The frame is the header of the layout followed by the samples. *)
Lemma build_wav_layout (int16Samples : list Z) :
  let pcmDataSize := 2 * Z.of_nat (length int16Samples) in
  44 + pcmDataSize < 2 ^ 32 ->
  Wav.build_wav int16Samples
  = Wav.spec_header pcmDataSize ++ Wav.pcm_bytes int16Samples.
Proof.
  intros n Hn. unfold Wav.build_wav.
  replace (Z.of_nat (length int16Samples) * 2) with n by (subst n; lia).
  assert (Hn0 : 0 <= n) by (subst n; lia).
  rewrite (u32_small n) by lia.
  rewrite (u32_small (36 + n)), (u32_small (44 + n)) by lia.
  replace (Z.to_nat (44 + n)) with (44 + Z.to_nat n)%nat by lia.
  rewrite repeat_app.
  rewrite firstn_all2 by (rewrite pcm_bytes_length; subst n; lia).
  set (t := repeat 0 (Z.to_nat n)).
  assert (Ht : length (Wav.pcm_bytes int16Samples) = length t).
  { subst t. rewrite pcm_bytes_length, repeat_length. subst n. lia. }
  unfold Wav.store32, Wav.store16.
  repeat (rewrite memcpy_head by (cbn; lia)).
  set (header := Wav.memcpy _ 40 _).
  assert (Hh : header = Wav.spec_header n).
  { subst header. unfold Wav.spec_header, Dsp.outRate.
    rewrite !(u32_small (36 + n)), !(u32_small n) by lia.
    rewrite !u32_small, !u16_small by (cbn; lia).
    reflexivity. }
  rewrite Hh.
  replace 44%nat with (length (Wav.spec_header n)) by reflexivity.
  apply memcpy_tail. exact Ht.
Qed.

(** C5: for every quantised payload of pcmDataSize bytes the frame begins
    with a 44-byte header whose bytes are "RIFF", uint32-LE
    36 + pcmDataSize at offset 4, "WAVE", "fmt ", uint32 16 at 16, uint16 1
    at 20, uint16 1 at 22, uint32 16000 at 24, uint32 32000 at 28, uint16 2
    at 32, uint16 16 at 34, "data", uint32 pcmDataSize at 40, followed by
    the payload; pcmDataSize = 32000 gives the total-size field 32036.  The
    sizes are those a uint32 holds: 44 + pcmDataSize < 2^32. *)
Theorem C5_wav_header_layout (int16Samples : list Z) :
  let pcmDataSize := 2 * Z.of_nat (length int16Samples) in
  44 + pcmDataSize < 2 ^ 32 ->
  let frame := Wav.build_wav int16Samples in
  Z.of_nat (length frame) = 44 + pcmDataSize /\
  firstn 44 frame
  = [82; 73; 70; 70] ++ Wav.le_bytes 4 (36 + pcmDataSize) ++
    [87; 65; 86; 69] ++ [102; 109; 116; 32] ++
    [16; 0; 0; 0] ++ [1; 0] ++ [1; 0] ++
    [128; 62; 0; 0] ++ [0; 125; 0; 0] ++ [2; 0] ++ [16; 0] ++
    [100; 97; 116; 97] ++ Wav.le_bytes 4 pcmDataSize /\
  skipn 44 frame = Wav.pcm_bytes int16Samples /\
  (firstn 4 frame = Wav.bytes_of_string "RIFF" /\
   Wav.read_le frame 4 4 = 36 + pcmDataSize /\
   firstn 4 (skipn 8 frame) = Wav.bytes_of_string "WAVE" /\
   firstn 4 (skipn 12 frame) = Wav.bytes_of_string "fmt " /\
   Wav.read_le frame 16 4 = 16 /\
   Wav.read_le frame 20 2 = 1 /\
   Wav.read_le frame 22 2 = 1 /\
   Wav.read_le frame 24 4 = 16000 /\
   Wav.read_le frame 28 4 = 32000 /\
   Wav.read_le frame 32 2 = 2 /\
   Wav.read_le frame 34 2 = 16 /\
   firstn 4 (skipn 36 frame) = Wav.bytes_of_string "data" /\
   Wav.read_le frame 40 4 = pcmDataSize) /\
  (pcmDataSize = 32000 ->
   Wav.read_le frame 4 4 = 32036 /\ Wav.read_le frame 40 4 = 32000).
Proof.
  intros n Hn frame. subst frame.
  rewrite (build_wav_layout int16Samples Hn). fold n.
  assert (Hn0 : 0 <= n) by (subst n; lia).
  assert (Hn1 : 44 + n < 4294967296) by exact Hn.
  assert (H256 : 256 ^ Z.of_nat 4 = 4294967296) by reflexivity.
  assert (Htot : Wav.read_le (Wav.spec_header n ++ Wav.pcm_bytes int16Samples) 4 4
                 = 36 + n).
  { change (Wav.le_value (Wav.le_bytes 4 (36 + n)) = 36 + n).
    apply le_value_bytes. rewrite H256. lia. }
  assert (Hdat : Wav.read_le (Wav.spec_header n ++ Wav.pcm_bytes int16Samples) 40 4
                 = n).
  { change (Wav.le_value (Wav.le_bytes 4 n) = n).
    apply le_value_bytes. rewrite H256. lia. }
  split.
  { rewrite length_app, pcm_bytes_length.
    change (length (Wav.spec_header n)) with 44%nat. subst n. lia. }
  split; [reflexivity|]. split; [reflexivity|]. split.
  { repeat split; try reflexivity; assumption. }
  intros H32. rewrite Htot, Hdat, H32. split; reflexivity.
Qed.

Lemma C5_witness :
  let int16Samples := repeat 0 (Z.to_nat 16000) in
  let frame := Wav.build_wav int16Samples in
  Wav.read_le frame 4 4 = 32036 /\ Wav.read_le frame 40 4 = 32000.
Proof.
  intros int16Samples frame.
  assert (Hlen : Z.of_nat (length int16Samples) = 16000).
  { subst int16Samples. rewrite repeat_length. apply Z2Nat.id. lia. }
  assert (Hsize : 44 + 2 * Z.of_nat (length int16Samples) < 2 ^ 32).
  { rewrite Hlen. reflexivity. }
  destruct (C5_wav_header_layout int16Samples Hsize) as (_ & _ & _ & _ & H32).
  apply H32. rewrite Hlen. reflexivity.
Defined.

(** The size bytes of a one-second frame, computed. *)
Lemma wav_one_second_size_bytes :
  let frame := Wav.build_wav (repeat 0 (Z.to_nat 16000)) in
  firstn 4 (skipn 4 frame) = [36; 125; 0; 0] /\
  firstn 4 (skipn 40 frame) = [0; 125; 0; 0] /\
  Z.of_nat (length frame) = 32044.
Proof. vm_compute. repeat split. Qed.

(** ** Name resolution *)

Section FindPid.
Variable sameb : string -> string -> bool.
Variable same : string -> string -> Prop.
Hypothesis sameb_spec : forall a b, sameb a b = true <-> same a b.

Lemma first_match_found (dir : Procs.Directory) (q : string) (pid : Z) :
  Spec.FirstWith (fun name => same name q) dir pid ->
  Procs.first_match sameb dir q = Some pid.
Proof.
  intros (before & name & after & -> & Hname & Hbefore).
  induction Hbefore as [|[p n] before Hn _ IH]; cbn [Procs.first_match app].
  - apply sameb_spec in Hname. now rewrite Hname.
  - cbn [snd] in Hn. destruct (sameb n q) eqn:E; [|exact IH].
    apply sameb_spec in E. contradiction.
Qed.

Lemma first_match_none (dir : Procs.Directory) (q : string) :
  Spec.NoneWith (fun name => same name q) dir ->
  Procs.first_match sameb dir q = None.
Proof.
  intros Hnone. induction Hnone as [|[p n] dir Hn _ IH]; cbn [Procs.first_match].
  - reflexivity.
  - cbn [snd] in Hn. destruct (sameb n q) eqn:E; [|exact IH].
    apply sameb_spec in E. contradiction.
Qed.

Lemma first_base_match_found (dir : Procs.Directory) (b : string) (pid : Z) :
  Spec.FirstWith (fun name => same (Procs.base_name name) b) dir pid ->
  Procs.first_base_match sameb dir b = Some pid.
Proof.
  intros (before & name & after & -> & Hname & Hbefore).
  induction Hbefore as [|[p n] before Hn _ IH]; cbn [Procs.first_base_match app].
  - apply sameb_spec in Hname. now rewrite Hname.
  - cbn [snd] in Hn. destruct (sameb (Procs.base_name n) b) eqn:E; [|exact IH].
    apply sameb_spec in E. contradiction.
Qed.

Lemma first_base_match_none (dir : Procs.Directory) (b : string) :
  Spec.NoneWith (fun name => same (Procs.base_name name) b) dir ->
  Procs.first_base_match sameb dir b = None.
Proof.
  intros Hnone.
  induction Hnone as [|[p n] dir Hn _ IH]; cbn [Procs.first_base_match].
  - reflexivity.
  - cbn [snd] in Hn. destruct (sameb (Procs.base_name n) b) eqn:E; [|exact IH].
    apply sameb_spec in E. contradiction.
Qed.

Lemma find_pid_resolves (dir : Procs.Directory) (q : string) :
  Spec.Resolves same Procs.base_name dir q (Procs.find_pid sameb dir q).
Proof.
  unfold Spec.Resolves, Procs.find_pid. repeat split.
  - intros pid H. now rewrite (first_match_found dir q pid H).
  - intros Hnone pid H. rewrite (first_match_none dir q Hnone).
    now rewrite (first_base_match_found dir _ pid H).
  - intros Hnone Hnone'. rewrite (first_match_none dir q Hnone).
    now rewrite (first_base_match_none dir _ Hnone').
Qed.
End FindPid.

Lemma nat_of_ascii_inj (x y : ascii) : nat_of_ascii x = nat_of_ascii y -> x = y.
Proof.
  intros H. rewrite <- (ascii_nat_embedding x), <- (ascii_nat_embedding y).
  now rewrite H.
Qed.

Lemma tolower_not_nul (c : ascii) :
  nat_of_ascii (Procs.tolower c) = 0%nat -> c = zero.
Proof.
  destruct c as [[] [] [] [] [] [] [] []]; vm_compute; intros H;
    first [reflexivity | discriminate H].
Qed.

Lemma c_str_no_nul (s : string) : Procs.find zero (Procs.c_str s) = None.
Proof.
  induction s as [|a s IH]; cbn [Procs.c_str Procs.find]; [reflexivity|].
  destruct (Ascii.eqb a zero) eqn:E; cbn [Procs.find]; [reflexivity|].
  now rewrite E, IH.
Qed.

Lemma c_str_id (s : string) : Procs.find zero s = None -> Procs.c_str s = s.
Proof.
  induction s as [|a s IH]; cbn [Procs.c_str Procs.find]; [reflexivity|].
  destruct (Ascii.eqb a zero); [discriminate|].
  intros H. destruct (Procs.find zero s); [discriminate|]. now rewrite IH.
Qed.

Lemma stricmp_chars_zero (a b : string) :
  Procs.find zero a = None -> Procs.find zero b = None ->
  (Procs.stricmp_chars a b = 0 <-> Spec.lower a = Spec.lower b).
Proof.
  revert b. induction a as [|x a IH]; intros [|y b] Ha Hb;
    cbn [Procs.stricmp_chars Spec.lower].
  - tauto.
  - split; [|discriminate]. intros H.
    assert (Hy : y = zero) by (apply tolower_not_nul; lia).
    subst y. cbn in Hb. discriminate.
  - split; [|discriminate]. intros H.
    assert (Hx : x = zero) by (apply tolower_not_nul; lia).
    subst x. cbn in Ha. discriminate.
  - cbn [Procs.find] in Ha, Hb.
    destruct (Ascii.eqb x zero); [discriminate|].
    destruct (Ascii.eqb y zero); [discriminate|].
    assert (Ha' : Procs.find zero a = None) by (destruct (Procs.find zero a); [discriminate | reflexivity]).
    assert (Hb' : Procs.find zero b = None) by (destruct (Procs.find zero b); [discriminate | reflexivity]).
    specialize (IH b Ha' Hb').
    destruct (Z.eqb_spec (Z.of_nat (nat_of_ascii (Procs.tolower x))
                          - Z.of_nat (nat_of_ascii (Procs.tolower y))) 0) as [E | E].
    + assert (Hxy : Procs.tolower x = Procs.tolower y) by (apply nat_of_ascii_inj; lia).
      rewrite Hxy. split.
      * intros H. f_equal. now apply IH.
      * intros H. apply IH. now injection H.
    + split; [intros H; contradiction|].
      intros H. injection H as Hxy _. rewrite Hxy in E. lia.
Qed.

(** [_stricmp(a, b) == 0] says that the two C strings are equal up to
    the case of their letters. *)
Lemma stricmp_zero (a b : string) :
  (Procs._stricmp a b =? 0) = true
  <-> Spec.same_nocase (Procs.c_str a) (Procs.c_str b).
Proof.
  unfold Procs._stricmp, Spec.same_nocase. rewrite Z.eqb_eq.
  apply stricmp_chars_zero; apply c_str_no_nul.
Qed.

Lemma find_prefix (c : ascii) (s : string) (n : nat) :
  Procs.find c s = Some n ->
  Procs.find c (substring 0 n s) = None /\
  exists rest, s = (substring 0 n s ++ String c rest)%string.
Proof.
  revert n. induction s as [|a s IH]; intros n; cbn [Procs.find]; [discriminate|].
  destruct (Ascii.eqb_spec a c) as [-> | Hne].
  - intros [= <-]. cbn. split; [reflexivity|]. now exists s.
  - destruct (Procs.find c s) as [m|]; [|discriminate].
    intros [= <-]. destruct (IH m eq_refl) as (Hnone & rest & Hrest).
    cbn [substring Procs.find]. destruct (Ascii.eqb_spec a c); [contradiction|].
    rewrite Hnone. split; [reflexivity|].
    exists rest. cbn [append]. now rewrite <- Hrest.
Qed.

(** [base_name] drops everything from the first dot on. *)
Lemma base_name_first_dot (s : string) :
  Spec.CutAtFirst "."%char s (Procs.base_name s).
Proof.
  unfold Spec.CutAtFirst, Procs.base_name.
  destruct (Procs.find "."%char s) as [n|] eqn:E.
  - destruct (find_prefix _ _ _ E) as (Hnone & rest & Hrest).
    split; [exact Hnone|]. right. now exists rest.
  - split; [exact E | now left].
Qed.

(** C3, as stated, fails.  On the WASAPI side the names are cut at their
    first dot, not their last: "my.app" resolves to the process
    "my.app.exe", which the stated rule does not match.  On the CoreAudio
    side the comparison is exact: "safari" does not resolve to "Safari". *)
Lemma C3_counterexample :
  ~ Spec.Resolves Spec.same_nocase Spec.strip_last_suffix
      [(10, "my.app.exe"%string)] "my.app"
      (Wasapi.FindPidForProcess [(10, "my.app.exe"%string)] "my.app") /\
  ~ Spec.Resolves Spec.same_nocase Spec.strip_last_suffix
      [(20, "Safari"%string)] "safari"
      (CoreAudio.FindPidForProcess [(20, "Safari"%string)] "safari").
Proof.
  split.
  - intros (_ & _ & Hnone).
    assert (H : Wasapi.FindPidForProcess [(10, "my.app.exe"%string)] "my.app" = 10)
      by reflexivity.
    rewrite H in Hnone.
    enough (10 = 0) by discriminate.
    apply Hnone; repeat constructor; cbn; unfold Spec.same_nocase; discriminate.
  - intros (Hfirst & _).
    assert (H : CoreAudio.FindPidForProcess [(20, "Safari"%string)] "safari" = 0)
      by reflexivity.
    rewrite H in Hfirst.
    enough (0 = 20) by discriminate.
    apply Hfirst. exists [], "Safari"%string, []. repeat split. constructor.
Qed.

(** C3, amended: for every query name and every process list, name
    resolution first returns the first process whose full name matches the
    query, where WASAPI compares the two C strings without regard to case
    and CoreAudio compares the strings exactly; if none matches, it cuts
    the query and each candidate at the first '.', returns the first
    candidate whose base name matches in the same sense, and returns
    NotFound (PID 0) when neither pass matches. *)
Theorem C3_name_resolution (allPids : Procs.Directory) (query : string) :
  Spec.Resolves (fun a b => Spec.same_nocase (Procs.c_str a) (Procs.c_str b))
    Procs.base_name allPids query (Wasapi.FindPidForProcess allPids query) /\
  Spec.Resolves eq
    Procs.base_name allPids query (CoreAudio.FindPidForProcess allPids query) /\
  (forall s, Spec.CutAtFirst "."%char s (Procs.base_name s)) /\
  (forall s, Procs.find zero s = None -> Procs.c_str s = s).
Proof.
  split; [|split; [|split]].
  - apply find_pid_resolves. intros a b. apply stricmp_zero.
  - apply find_pid_resolves. intros a b. apply String.eqb_eq.
  - exact base_name_first_dot.
  - exact c_str_id.
Qed.

(** "chrome" finds the process named "chrome.exe" through the second
    pass, on both backends. *)
Lemma C3_witness :
  Wasapi.FindPidForProcess [(7, "explorer.exe"%string); (4242, "chrome.exe"%string)]
                           "chrome" = 4242 /\
  CoreAudio.FindPidForProcess [(7, "explorer.exe"%string); (4242, "chrome.exe"%string)]
                              "chrome" = 4242.
Proof.
  pose (dir := [(7, "explorer.exe"%string); (4242, "chrome.exe"%string)]).
  destruct (C3_name_resolution dir "chrome") as ((_ & Hw & _) & (_ & Hc & _) & _).
  split.
  - apply Hw.
    + repeat constructor; cbn; unfold Spec.same_nocase; discriminate.
    + exists [(7, "explorer.exe"%string)], "chrome.exe"%string, [].
      repeat split. repeat constructor. cbn. unfold Spec.same_nocase. discriminate.
  - apply Hc.
    + repeat constructor; cbn; discriminate.
    + exists [(7, "explorer.exe"%string)], "chrome.exe"%string, [].
      repeat split. repeat constructor. cbn. discriminate.
Defined.

(** ** The capture session *)

Lemma windows_running_runs : Wasapi.running_ Examples.windows_running = true.
Proof. reflexivity. Qed.

Lemma mac_running_runs :
  CoreAudio.running_ (CoreAudio.capture Examples.mac_running) = true.
Proof. reflexivity. Qed.

(** C1: in every state of the capture object in which a session is running,
    Start(targetProcessId, callback) returns false and changes nothing of
    the session: the running flag, the target PID, the callback, the thread
    and all filter, gate and stream state are those of the first session.
    (The CoreAudio add-on prints "Capture already running".) *)
Theorem C1_start_while_running_rejected :
  (forall be pid tsfn (w : Wasapi.Capture),
      Wasapi.running_ w = true ->
      Wasapi.Start be pid tsfn w = Some (false, w)) /\
  (forall be pid tsfn (w : CoreAudio.World),
      CoreAudio.running_ (CoreAudio.capture w) = true ->
      exists w',
        CoreAudio.Start be pid tsfn w = Some (false, w') /\
        CoreAudio.capture w' = CoreAudio.capture w /\
        CoreAudio.statics w' = CoreAudio.statics w /\
        Io.delivered (CoreAudio.out w') = Io.delivered (CoreAudio.out w) /\
        Io.released (CoreAudio.out w') = Io.released (CoreAudio.out w) /\
        Io.log (CoreAudio.out w')
        = Io.log (CoreAudio.out w) ++ ["[addon] Capture already running"%string]).
Proof.
  split.
  - intros be pid tsfn w Hrun. unfold Wasapi.Start. now rewrite Hrun.
  - intros be pid tsfn w Hrun. unfold CoreAudio.Start. rewrite Hrun.
    eexists. split; [reflexivity|]. cbn. auto.
Qed.

Lemma C1_witness :
  Wasapi.Start Examples.windows_ok 4242 2 Examples.windows_running
  = Some (false, Examples.windows_running) /\
  exists w',
    CoreAudio.Start Examples.mac_ok 4242 2 Examples.mac_running = Some (false, w') /\
    CoreAudio.capture w' = CoreAudio.capture Examples.mac_running.
Proof.
  destruct C1_start_while_running_rejected as [Hw Hm]. split.
  - apply Hw. reflexivity.
  - destruct (Hm Examples.mac_ok 4242 2%nat Examples.mac_running eq_refl)
      as (w' & Hs & Hc & _).
    exists w'. split; assumption.
Defined.

(** *** Failed acquisition *)

(** Lines 351-357 give back every resource the thread holds. *)
Lemma cleanup_releases_everything (l : Wasapi.Locals) :
  Wasapi.cleanup l = Wasapi.no_locals.
Proof.
  destruct l as [[] [] [] [] [] [f|] []]; reflexivity.
Qed.

(** Every [break] out of the acquisition block: the resources are given
    back and the callback is released, but [running_] keeps the value
    [Start] gave it. *)
Lemma wasapi_break_keeps_running (be : Wasapi.Backend) (pid : Z) (tsfn : nat)
      (w : Wasapi.Capture) :
  Wasapi.running_ w = false ->
  Wasapi.capture_thread_ w = Wasapi.NotAThread ->
  Wasapi.CoInitializeEx be = true ->
  fst (fst (Wasapi.acquire be pid)) = false ->
  exists w1,
    Wasapi.Start be pid tsfn w = Some (true, w1) /\
    Wasapi.capture_thread_ w1 = Wasapi.Returned Wasapi.no_locals /\
    Wasapi.com_initialized w1 = false /\
    In tsfn (Io.released (Wasapi.out w1)) /\
    Wasapi.running_ w1 = true.
Proof.
  intros Hrun Hthr Hco Hfail. unfold Wasapi.Start. rewrite Hrun.
  cbn [Wasapi.printf Wasapi.with_out Wasapi.with_running
       Wasapi.capture_thread_ Wasapi.running_].
  rewrite Hthr. cbn [Wasapi.joinable]. eexists. split; [reflexivity|].
  unfold Wasapi.thread_entry. rewrite Hco. cbn [negb].
  destruct (Wasapi.acquire be pid) as [[ok l] msgs]. cbn [fst] in Hfail. subst ok.
  unfold Wasapi.leave. cbn. rewrite cleanup_releases_everything.
  repeat split. apply in_or_app. right. now left.
Qed.

(** The one early return of the thread that does reset the flag. *)
Lemma wasapi_coinit_failure_resets_running (be : Wasapi.Backend) (pid : Z)
      (tsfn : nat) (w : Wasapi.Capture) :
  Wasapi.running_ w = false ->
  Wasapi.capture_thread_ w = Wasapi.NotAThread ->
  Wasapi.CoInitializeEx be = false ->
  exists w1,
    Wasapi.Start be pid tsfn w = Some (true, w1) /\
    Wasapi.capture_thread_ w1 = Wasapi.Returned Wasapi.no_locals /\
    Wasapi.running_ w1 = false.
Proof.
  intros Hrun Hthr Hco. unfold Wasapi.Start. rewrite Hrun.
  cbn [Wasapi.printf Wasapi.with_out Wasapi.with_running
       Wasapi.capture_thread_ Wasapi.running_].
  rewrite Hthr. cbn [Wasapi.joinable]. eexists. split; [reflexivity|].
  unfold Wasapi.thread_entry. rewrite Hco. cbn. auto.
Qed.

(** [TryAudioUnitHALApproach] leaves no audio unit behind when it fails. *)
Lemma hal_failure_disposes (be : CoreAudio.Backend) (dev : Z) (w : CoreAudio.World) :
  CoreAudio.audioUnit_ (CoreAudio.capture w) = None ->
  fst (CoreAudio.TryAudioUnitHALApproach be dev w) = false ->
  let w' := snd (CoreAudio.TryAudioUnitHALApproach be dev w) in
  CoreAudio.audioUnit_ (CoreAudio.capture w') = None /\
  CoreAudio.running_ (CoreAudio.capture w') = CoreAudio.running_ (CoreAudio.capture w).
Proof.
  intros Hnone. unfold CoreAudio.TryAudioUnitHALApproach, CoreAudio.dispose_and_fail.
  destruct (CoreAudio.AudioComponentFindNext be); cbn [negb];
    [|intros _; cbn; auto].
  destruct (CoreAudio.AudioComponentInstanceNew be); cbn [negb];
    [|intros _; cbn; auto].
  destruct (CoreAudio.EnableInput be); cbn [negb]; [|intros _; cbn; auto].
  destruct (CoreAudio.DisableOutput be); cbn [negb]; [|intros _; cbn; auto].
  destruct (CoreAudio.SetCurrentDevice be); cbn [negb]; [|intros _; cbn; auto].
  destruct (CoreAudio.GetStreamFormat be) as [fmt|]; [|intros _; cbn; auto].
  destruct (CoreAudio.SetInputCallback be); cbn [negb]; [|intros _; cbn; auto].
  destruct (CoreAudio.AudioUnitInitialize be); cbn [negb]; [|intros _; cbn; auto].
  destruct (CoreAudio.AudioOutputUnitStart be); cbn [negb]; [|intros _; cbn; auto].
  cbn. discriminate.
Qed.

(** The CoreAudio thread resets the flag on both of its failure paths. *)
Lemma coreaudio_failure_resets_running (be : CoreAudio.Backend) (w : CoreAudio.World) :
  CoreAudio.audioUnit_ (CoreAudio.capture w) = None ->
  let w' := CoreAudio.thread_entry be w in
  CoreAudio.capture_thread_ (CoreAudio.capture w') = CoreAudio.Returned ->
  CoreAudio.running_ (CoreAudio.capture w') = false /\
  CoreAudio.audioUnit_ (CoreAudio.capture w') = None.
Proof.
  intros Hnone. unfold CoreAudio.thread_entry.
  destruct (CoreAudio.FindBlackHoleInputDevice be =? CoreAudio.kAudioDeviceUnknown).
  - intros _. cbn. auto.
  - match goal with
    | |- context [CoreAudio.TryAudioUnitHALApproach be ?dev ?w0] =>
        pose proof (hal_failure_disposes be dev w0) as Hhal;
        destruct (CoreAudio.TryAudioUnitHALApproach be dev w0) as [ok w1]
    end.
    destruct ok; cbn [negb].
    + cbn. discriminate.
    + intros _. cbn [fst snd] in Hhal. cbn.
      split; [reflexivity|]. apply Hhal; [|reflexivity].
      destruct (negb (CoreAudio.FindBlackHoleOutputDevice be =? CoreAudio.kAudioDeviceUnknown));
        destruct (negb (CoreAudio.FindDefaultOutputDevice be =? CoreAudio.kAudioDeviceUnknown));
        cbn; exact Hnone.
Qed.

(** C4, evaluated where the code breaks it: on a Windows machine without a
    default render endpoint Start returns true, the thread gives back
    everything it acquired and returns, and [running_] is still true, so
    the session is not idle: the next Start, on a machine that is now
    healthy, is rejected. *)
Theorem C4_wasapi_failed_start_stays_running :
  let w1 := Examples.windows_failed in
  Wasapi.Start Examples.windows_no_endpoint 0 1 Wasapi.new = Some (true, w1) /\
  Wasapi.capture_thread_ w1 = Wasapi.Returned Wasapi.no_locals /\
  Wasapi.com_initialized w1 = false /\
  Wasapi.running_ w1 = true /\
  Wasapi.Start Examples.windows_ok 0 2 w1 = Some (false, w1).
Proof. cbv zeta. repeat split. Qed.

(** The CoreAudio thread does reset [running_], but leaves its
    [std::thread] joinable and [Stop] returns before the join when
    [running_] is false: the next Start move-assigns to a joinable thread. *)
Lemma coreaudio_failed_start_then_start :
  let m1 := Examples.mac_failed in
  CoreAudio.Start Examples.mac_no_blackhole 0 1 Examples.mac_new = Some (true, m1) /\
  CoreAudio.running_ (CoreAudio.capture m1) = false /\
  CoreAudio.audioUnit_ (CoreAudio.capture m1) = None /\
  CoreAudio.Stop m1 = m1 /\
  CoreAudio.Start Examples.mac_ok 0 2 m1 = None.
Proof. cbv zeta. repeat split. Qed.

(** After a failed Start on Windows, Stop brings the object back to a
    state from which Start succeeds. *)
Lemma wasapi_failed_start_stop_start :
  exists w3,
    Wasapi.Start Examples.windows_ok 0 2 (Wasapi.Stop Examples.windows_failed)
    = Some (true, w3) /\
    Wasapi.running_ w3 = true /\
    exists l dsp, Wasapi.capture_thread_ w3 = Wasapi.InLoop l dsp.
Proof.
  eexists. split; [reflexivity|]. split; [reflexivity|].
  do 2 eexists. reflexivity.
Qed.

(** *** Failures while running *)








(** * Further properties of the code *)

(** ** The resampler *)

Lemma INR_Z_of_nat (i : nat) : INR i = IZR (Z.of_nat i).
Proof. apply INR_IZR_INZ. Qed.

Lemma map_nth_seq (l : list R) :
  map (fun i => nth i l 0%R) (seq 0 (length l)) = l.
Proof.
  apply nth_ext with (d := 0%R) (d' := 0%R).
  - now rewrite length_map, length_seq.
  - intros n Hn. rewrite length_map, length_seq in Hn.
    rewrite (nth_indep _ 0%R (nth 0 l 0%R)) by (now rewrite length_map, length_seq).
    rewrite (map_nth (fun i => nth i l 0%R)), seq_nth by exact Hn. reflexivity.
Qed.

(** The position of output sample [i] in the input: its integer part and
    the fraction the code interpolates with. *)
Lemma resample_position (inRate : Z) (i : nat) :
  0 < inRate ->
  let pos := (INR i * IZR inRate / IZR Dsp.outRate)%R in
  let idx := Z.to_nat (Rtrunc pos) in
  (0 <= pos - INR idx < 1)%R /\ Z.of_nat idx = Z.of_nat i * inRate / 16000.
Proof.
  intros Hr pos idx.
  assert (Hpos : pos = (IZR (Z.of_nat i * inRate) / IZR 16000)%R).
  { subst pos. unfold Dsp.outRate. now rewrite INR_Z_of_nat, mult_IZR. }
  assert (Htr : Rtrunc pos = Z.of_nat i * inRate / 16000).
  { rewrite Hpos. apply Rtrunc_div; lia. }
  assert (H0 : 0 <= Z.of_nat i * inRate / 16000) by (apply Z.div_pos; lia).
  assert (Hidx : Z.of_nat idx = Z.of_nat i * inRate / 16000).
  { subst idx. rewrite Htr. apply Z2Nat.id. exact H0. }
  split; [|exact Hidx].
  rewrite INR_Z_of_nat, Hidx, Hpos.
  pose proof (Z.mul_div_le (Z.of_nat i * inRate) 16000 ltac:(lia)) as Hlo.
  pose proof (Z.mul_succ_div_gt (Z.of_nat i * inRate) 16000 ltac:(lia)) as Hhi.
  set (a := Z.of_nat i * inRate) in *. set (q := a / 16000) in *.
  apply IZR_le in Hlo. apply IZR_lt in Hhi.
  rewrite mult_IZR in Hlo. rewrite mult_IZR, succ_IZR in Hhi.
  unfold Rdiv. lra.
Qed.

(** X1: a buffer that already is at 16 kHz passes the resampler
    unchanged. *)
Theorem X1_resample_identity_at_output_rate (mono : list R) :
  mono <> [] -> Dsp.resample mono 16000 = mono.
Proof.
  intros Hne. unfold Dsp.resample.
  assert (Hlen : (0 < length mono)%nat) by (destruct mono; [contradiction | cbn; lia]).
  rewrite resample_len_floor by lia.
  rewrite Z.div_mul by lia.
  replace (Z.to_nat (Z.max 1 (Z.of_nat (length mono)))) with (length mono) by lia.
  rewrite <- (map_nth_seq mono) at 3.
  apply map_ext_in. intros i Hi. apply in_seq in Hi.
  unfold Dsp.resample_at.
  destruct (resample_position 16000 i ltac:(lia)) as [Hfrac Hidx].
  cbv zeta in Hfrac, Hidx. rewrite Z.div_mul in Hidx by lia.
  apply Nat2Z.inj in Hidx.
  set (pos := (INR i * IZR 16000 / IZR Dsp.outRate)%R) in *.
  rewrite Hidx in *.
  assert (Hpos : pos = INR i).
  { subst pos. unfold Dsp.outRate. field. }
  rewrite Hpos.
  destruct (Nat.ltb_spec i (length mono)); [|lia].
  replace (INR i - INR i)%R with 0%R by ring. ring.
Qed.

Lemma X1_witness : Dsp.resample [0.25; -0.5; 1]%R 16000 = [0.25; -0.5; 1]%R.
Proof. apply X1_resample_identity_at_output_rate. discriminate. Defined.

Lemma resample_bounds (mono : list R) (inRate : Z) (lo hi : R) :
  mono <> [] -> 0 < inRate ->
  Forall (fun v => (lo <= v <= hi)%R) mono ->
  Forall (fun v => (lo <= v <= hi)%R) (Dsp.resample mono inRate).
Proof.
  intros Hne Hr Hall. unfold Dsp.resample.
  apply Forall_forall. intros v Hv. apply in_map_iff in Hv.
  destruct Hv as (i & <- & _).
  assert (Hlen : (0 < length mono)%nat) by (destruct mono; [contradiction | cbn; lia]).
  assert (Hnth : forall k, (k < length mono)%nat -> (lo <= nth k mono 0 <= hi)%R).
  { intros k Hk. rewrite Forall_forall in Hall. apply Hall. now apply nth_In. }
  unfold Dsp.resample_at.
  destruct (resample_position inRate i Hr) as [Hfrac _]. cbv zeta in Hfrac.
  set (pos := (INR i * IZR inRate / IZR Dsp.outRate)%R) in *.
  set (idx := Z.to_nat (Rtrunc pos)) in *.
  set (frac := (pos - INR idx)%R) in *.
  assert (Ha : (lo <= nth (if (idx <? length mono)%nat then idx else (length mono - 1)%nat) mono 0 <= hi)%R).
  { apply Hnth. destruct (Nat.ltb_spec idx (length mono)); lia. }
  assert (Hb : (lo <= nth (if (idx + 1 <? length mono)%nat then (idx + 1)%nat else (length mono - 1)%nat) mono 0 <= hi)%R).
  { apply Hnth. destruct (Nat.ltb_spec (idx + 1) (length mono)); lia. }
  nra.
Qed.

(** X2: linear interpolation never overshoots: when every input sample
    lies in [lo, hi], so does every output sample. *)
Theorem X2_resample_within_input_range (mono : list R) (inRate : Z) (lo hi : R) :
  mono <> [] -> 0 < inRate ->
  Forall (fun v => (lo <= v <= hi)%R) mono ->
  Forall (fun v => (lo <= v <= hi)%R) (Dsp.resample mono inRate).
Proof. exact (resample_bounds mono inRate lo hi). Qed.

Lemma X2_witness :
  Forall (fun v => (-1 <= v <= 1)%R) (Dsp.resample [0.25; -0.5; 1]%R 48000).
Proof.
  apply X2_resample_within_input_range.
  - discriminate.
  - lia.
  - repeat constructor; lra.
Defined.

(** ** Mix-down *)

Lemma to_mono_length (data : Dsp.Samples) (inCh frames : nat) :
  length (Dsp.to_mono data inCh frames) = frames.
Proof. destruct data; cbn [Dsp.to_mono]; now rewrite length_map, length_seq. Qed.




(** ** The high-pass filter *)


(** ** Silence *)





(** ** Quantisation, further *)









(** ** The payload *)

Lemma signed16_u16 (x : Z) :
  -32768 <= x <= 32767 -> Pcm.signed16 (Wav.u16 x) = x.
Proof.
  intros Hx. unfold Pcm.signed16, Wav.u16.
  destruct (Z_lt_le_dec x 0) as [Hneg | Hpos].
  - replace (x mod 2 ^ 16) with (x + 2 ^ 16).
    + destruct (Z.ltb_spec (x + 2 ^ 16) (2 ^ 15)); lia.
    + apply Z.mod_unique with (q := -1); lia.
  - rewrite Z.mod_small by lia. destruct (Z.ltb_spec x (2 ^ 15)); lia.
Qed.

Lemma decode_pcm_bytes (samples : list Z) :
  Forall (fun s => -32768 <= s <= 32767) samples ->
  Pcm.decode (Wav.pcm_bytes samples) = samples.
Proof.
  induction 1 as [|s samples Hs _ IH]; [reflexivity|].
  change (Wav.pcm_bytes (s :: samples))
    with (Wav.le_bytes 2 (Wav.u16 s) ++ Wav.pcm_bytes samples).
  cbn [Wav.le_bytes app Pcm.decode].
  rewrite IH. f_equal.
  assert (Hu : 0 <= Wav.u16 s < 2 ^ 16) by (unfold Wav.u16; apply Z.mod_pos_bound; lia).
  set (u := Wav.u16 s) in *.
  assert (Hhi : (u / 256) mod 256 = u / 256).
  { apply Z.mod_small. split; [apply Z.div_pos; lia|].
    apply Z.div_lt_upper_bound; lia. }
  rewrite Hhi.
  replace (u mod 256 + 256 * (u / 256)) with u
    by (pose proof (Z.div_mod u 256 ltac:(lia)); lia).
  subst u. now apply signed16_u16.
Qed.

(** X10: the data chunk of a frame reads back as the samples it was made
    from: decoding the bytes from offset 44 on as 16-bit little-endian
    two's complement gives the int16 samples, in order. *)
Theorem X10_payload_round_trip (int16Samples : list Z) :
  Forall (fun s => -32768 <= s <= 32767) int16Samples ->
  44 + 2 * Z.of_nat (length int16Samples) < 2 ^ 32 ->
  Pcm.decode (skipn 44 (Wav.build_wav int16Samples)) = int16Samples.
Proof.
  intros Hrange Hsize. rewrite (build_wav_layout int16Samples Hsize).
  replace 44%nat with (length (Wav.spec_header (2 * Z.of_nat (length int16Samples))))
    by reflexivity.
  rewrite skipn_app, skipn_all, Nat.sub_diag. cbn [skipn app].
  now apply decode_pcm_bytes.
Qed.

Lemma X10_witness :
  Pcm.decode (skipn 44 (Wav.build_wav [0; -1; 32767; -32767; 256]))
  = [0; -1; 32767; -32767; 256].
Proof.
  apply X10_payload_round_trip.
  - repeat constructor; lia.
  - cbn. lia.
Defined.

(** ** From device buffer to frame *)

Lemma gate_buffer_length (xs : list R) (d : Dsp.State) :
  length (snd (Dsp.gate_buffer d xs)) = length xs.
Proof.
  revert d. induction xs as [|x xs IH]; intros d; cbn [Dsp.gate_buffer]; [reflexivity|].
  destruct (Dsp.gate_sample d x) as [d1 y]. specialize (IH d1).
  destruct (Dsp.gate_buffer d1 xs) as [d2 ys]. cbn [snd length] in *. now rewrite IH.
Qed.

Lemma condition_length (d : Dsp.State) (inRate : Z) (inCh frames : nat)
      (data : Dsp.Samples) :
  (0 < frames)%nat -> 0 < inRate ->
  Z.of_nat (length (snd (Dsp.condition d inRate inCh frames data)))
  = Z.max 1 (Z.of_nat frames * 16000 / inRate).
Proof.
  intros Hf Hr. unfold Dsp.condition.
  pose proof (gate_buffer_length (Dsp.resample (Dsp.to_mono data inCh frames) inRate) d) as Hg.
  destruct (Dsp.gate_buffer d _) as [d' gated]. cbn [snd] in *.
  unfold Dsp.quantize_buffer. rewrite length_map, Hg, resample_length, to_mono_length.
  rewrite resample_len_floor by lia. lia.
Qed.

Lemma decode_length (samples : list Z) :
  length (Pcm.decode (Wav.pcm_bytes samples)) = length samples.
Proof.
  induction samples as [|s samples IH]; [reflexivity|].
  change (Wav.pcm_bytes (s :: samples))
    with (Wav.le_bytes 2 (Wav.u16 s) ++ Wav.pcm_bytes samples).
  cbn [Wav.le_bytes app Pcm.decode length]. now rewrite IH.
Qed.

(** The frame built from [n] samples. *)
Lemma build_wav_well_formed (samples : list Z) :
  let n := Z.of_nat (length samples) in
  44 + 2 * n < 2 ^ 32 ->
  let frame := Wav.build_wav samples in
  Z.of_nat (length frame) = 44 + 2 * n /\
  firstn 4 frame = Wav.bytes_of_string "RIFF" /\
  Wav.read_le frame 4 4 = 36 + 2 * n /\
  Wav.read_le frame 40 4 = 2 * n /\
  Z.of_nat (length (Pcm.decode (skipn 44 frame))) = n.
Proof.
  intros n Hn frame. subst frame. rewrite (build_wav_layout samples Hn). fold n.
  assert (Hn0 : 0 <= n) by (subst n; lia).
  assert (Hn1 : 44 + 2 * n < 4294967296) by exact Hn.
  assert (H256 : 256 ^ Z.of_nat 4 = 4294967296) by reflexivity.
  split.
  { rewrite length_app, pcm_bytes_length.
    change (length (Wav.spec_header (2 * n))) with 44%nat. subst n. lia. }
  split; [reflexivity|]. split.
  { change (Wav.le_value (Wav.le_bytes 4 (36 + 2 * n)) = 36 + 2 * n).
    apply le_value_bytes. rewrite H256. lia. }
  split.
  { change (Wav.le_value (Wav.le_bytes 4 (2 * n)) = 2 * n).
    apply le_value_bytes. rewrite H256. lia. }
  replace 44%nat with (length (Wav.spec_header (2 * n))) by reflexivity.
  rewrite skipn_app, skipn_all, Nat.sub_diag. cbn [skipn app].
  now rewrite decode_length.
Qed.

Lemma frame_of_buffer (d : Dsp.State) (inRate : Z) (inCh frames : nat)
      (data : Dsp.Samples) :
  0 < inRate -> Frame.fits inRate frames ->
  Frame.for_buffer inRate frames
    (Wav.build_wav (snd (Dsp.condition d inRate inCh frames data))).
Proof.
  intros Hr [Hf Hsize]. unfold Frame.for_buffer.
  pose proof (condition_length d inRate inCh frames data Hf Hr) as Hlen.
  pose proof (build_wav_well_formed (snd (Dsp.condition d inRate inCh frames data))) as Hw.
  cbv zeta in Hw. rewrite Hlen in Hw. apply Hw. exact Hsize.
Qed.

Lemma drain_buffers (fmt : Wasapi.WAVEFORMATEX)
      (bufs : list (nat * Dsp.Samples)) (dsp : Dsp.State) (o : Io.Out) :
  0 < Wasapi.nSamplesPerSec fmt ->
  Forall (fun b => Frame.fits (Wasapi.nSamplesPerSec fmt) (fst b)) bufs ->
  let r := Wasapi.drain fmt (map (fun b => Wasapi.Buffer (fst b) (snd b)) bufs) dsp o in
  Io.log (snd r) = Io.log o /\ Io.released (snd r) = Io.released o /\
  exists new,
    Io.delivered (snd r) = Io.delivered o ++ new /\
    Forall2 (fun b frame => Frame.for_buffer (Wasapi.nSamplesPerSec fmt) (fst b) frame)
            bufs new.
Proof.
  intros Hr Hfit. cbv zeta. revert dsp o.
  induction Hfit as [|[frames data] bufs Hb _ IH]; intros dsp o;
    cbn [map Wasapi.drain fst snd].
  - repeat split. exists []. rewrite app_nil_r. split; [reflexivity | constructor].
  - pose proof (frame_of_buffer dsp (Wasapi.nSamplesPerSec fmt) (Wasapi.nChannels fmt)
                  frames data Hr Hb) as Hframe.
    destruct (Dsp.condition dsp _ _ frames data) as [dsp1 samples]. cbn [snd] in Hframe.
    destruct (IH dsp1 (Io.BlockingCall (Wav.build_wav samples) o))
      as (Hlog & Hrel & new & Hdel & Hall).
    rewrite Hlog, Hrel, Hdel. cbn [Io.BlockingCall Io.log Io.released Io.delivered].
    repeat split. exists (Wav.build_wav samples :: new).
    rewrite <- app_assoc. split; [reflexivity|]. constructor; assumption.
Qed.

(** X8: in one turn of the WASAPI loop, the k buffers the client hands
    over (none failing) become exactly k frames, delivered in capture order
    after everything delivered before; each is a well-formed frame of
    44 + 2 * max(1, floor(frames * 16000 / rate)) bytes for its buffer;
    nothing is logged and the session stays running. *)
Theorem X8_wasapi_one_frame_per_buffer
        (w : Wasapi.Capture) (l : Wasapi.Locals) (dsp : Dsp.State)
        (fmt : Wasapi.WAVEFORMATEX) (bufs : list (nat * Dsp.Samples)) :
  Wasapi.capture_thread_ w = Wasapi.InLoop l dsp ->
  Wasapi.pwfx l = Some fmt ->
  Wasapi.running_ w = true ->
  0 < Wasapi.nSamplesPerSec fmt ->
  Forall (fun b => Frame.fits (Wasapi.nSamplesPerSec fmt) (fst b)) bufs ->
  let w' := Wasapi.loop_turn true (map (fun b => Wasapi.Buffer (fst b) (snd b)) bufs) w in
  Wasapi.running_ w' = true /\
  (exists dsp', Wasapi.capture_thread_ w' = Wasapi.InLoop l dsp') /\
  Io.log (Wasapi.out w') = Io.log (Wasapi.out w) /\
  exists new,
    Io.delivered (Wasapi.out w') = Io.delivered (Wasapi.out w) ++ new /\
    Forall2 (fun b frame => Frame.for_buffer (Wasapi.nSamplesPerSec fmt) (fst b) frame)
            bufs new.
Proof.
  intros Hthr Hfmt Hrun Hr Hfit w'. subst w'.
  unfold Wasapi.loop_turn. rewrite Hthr, Hrun, Hfmt. cbn [negb].
  pose proof (drain_buffers fmt bufs dsp (Wasapi.out w) Hr Hfit) as (Hlog & _ & Hnew).
  cbv zeta in Hlog, Hnew.
  destruct (Wasapi.drain fmt _ dsp (Wasapi.out w)) as [dsp' o]. cbn [snd] in *.
  cbn. split; [exact Hrun|]. split; [now exists dsp'|]. split; assumption.
Qed.

Lemma X8_witness :
  let w := Examples.windows_running in
  let bufs := [(480%nat, Dsp.FloatSamples []); (3%nat, Dsp.FloatSamples [])] in
  let w' := Wasapi.loop_turn true (map (fun b => Wasapi.Buffer (fst b) (snd b)) bufs) w in
  exists new,
    Io.delivered (Wasapi.out w') = Io.delivered (Wasapi.out w) ++ new /\
    Forall2 (fun b frame => Frame.for_buffer 48000 (fst b) frame) bufs new.
Proof.
  intros w bufs w'.
  assert (Hfit : Forall (fun b => Frame.fits 48000 (fst b)) bufs).
  { subst bufs. repeat constructor; cbn; lia. }
  destruct (X8_wasapi_one_frame_per_buffer w _ _ _ bufs eq_refl eq_refl eq_refl
              ltac:(cbn; lia) Hfit) as (_ & _ & _ & Hnew).
  exact Hnew.
Defined.

(** X9: a CoreAudio callback whose render succeeds on a running session
    returns noErr and delivers exactly one frame, well formed for the
    rendered buffer, after everything delivered before; the callback
    counter goes up by one and the session stays running. *)
Theorem X9_coreaudio_one_frame_per_callback
        (w : CoreAudio.World) (inNumberFrames : Z) (data : Dsp.Samples) :
  CoreAudio.running_ (CoreAudio.capture w) = true ->
  let inRate :=
    Wav.u32 (Rtrunc (CoreAudio.mSampleRate (CoreAudio.inputFormat_ (CoreAudio.capture w)))) in
  0 < inRate ->
  Frame.fits inRate (Z.to_nat inNumberFrames) ->
  let r := CoreAudio.InputCallback inNumberFrames (CoreAudio.RenderOk data) w in
  fst r = CoreAudio.noErr /\
  CoreAudio.running_ (CoreAudio.capture (snd r)) = true /\
  CoreAudio.callbackCount (CoreAudio.statics (snd r))
  = CoreAudio.callbackCount (CoreAudio.statics w) + 1 /\
  exists frame,
    Io.delivered (CoreAudio.out (snd r)) = Io.delivered (CoreAudio.out w) ++ [frame] /\
    Frame.for_buffer inRate (Z.to_nat inNumberFrames) frame.
Proof.
  intros Hrun inRate Hr Hfit r. subst r.
  unfold CoreAudio.InputCallback. rewrite Hrun. cbn [negb fst snd].
  split; [reflexivity|].
  match goal with
  | |- context [CoreAudio.ProcessAudioBuffer data inNumberFrames ?w0] =>
      set (w1 := w0);
      assert (Hcap : CoreAudio.capture w1 = CoreAudio.capture w)
        by (subst w1; destruct (_ =? 0); destruct (_ >=? 4); cbn;
            try destruct (_ =? 0); reflexivity);
      assert (Hdel : Io.delivered (CoreAudio.out w1) = Io.delivered (CoreAudio.out w))
        by (subst w1; destruct (_ =? 0); destruct (_ >=? 4); cbn;
            try destruct (_ =? 0); reflexivity);
      assert (Hcnt : CoreAudio.callbackCount (CoreAudio.statics w1)
                     = CoreAudio.callbackCount (CoreAudio.statics w) + 1)
        by (subst w1; destruct (_ =? 0); destruct (_ >=? 4); cbn;
            try destruct (_ =? 0); reflexivity)
  end.
  clearbody w1.
  unfold CoreAudio.ProcessAudioBuffer. rewrite Hcap. fold inRate.
  pose proof (frame_of_buffer (CoreAudio.dsp_ (CoreAudio.capture w)) inRate
                (Z.to_nat (Wav.u16 (CoreAudio.mChannelsPerFrame
                                      (CoreAudio.inputFormat_ (CoreAudio.capture w)))))
                (Z.to_nat inNumberFrames) data Hr Hfit) as Hframe.
  destruct (Dsp.condition _ inRate _ _ data) as [d samples]. cbn [snd] in Hframe.
  destruct (_ >=? 16000); cbn; rewrite ?Hcap, ?Hrun, ?Hcnt, ?Hdel;
    (split; [reflexivity|]; split; [reflexivity|];
     exists (Wav.build_wav samples); split; [reflexivity | exact Hframe]).
Qed.

Lemma X9_witness :
  let r := CoreAudio.InputCallback 512 (CoreAudio.RenderOk (Dsp.Int16Samples []))
             Examples.mac_running in
  exists frame,
    Io.delivered (CoreAudio.out (snd r))
    = Io.delivered (CoreAudio.out Examples.mac_running) ++ [frame] /\
    Frame.for_buffer 48000 512 frame.
Proof.
  assert (Hrate : Wav.u32 (Rtrunc (CoreAudio.mSampleRate
                    (CoreAudio.inputFormat_ (CoreAudio.capture Examples.mac_running))))
                  = 48000).
  { change (Wav.u32 (Rtrunc (IZR 48000)) = 48000). now rewrite Rtrunc_IZR. }
  pose proof (X9_coreaudio_one_frame_per_callback Examples.mac_running 512
                (Dsp.Int16Samples []) eq_refl) as H.
  cbv zeta in H. rewrite Hrate in H.
  assert (Hfit : Frame.fits 48000 (Z.to_nat 512)).
  { split; [lia | vm_compute; reflexivity]. }
  destruct (H ltac:(lia) Hfit) as (_ & _ & _ & Hframe).
  exact Hframe.
Defined.

(** ** The life of a session *)

(** What the acquisition block of the WASAPI thread comes to, for every
    platform: it reaches line 174 exactly when the calls on its path
    succeed, then holding everything and one client; otherwise it breaks. *)
Lemma acquire_outcome (be : Wasapi.Backend) (pid : Z) :
  0 <= pid ->
  let '(ok, l, _) := Wasapi.acquire be pid in
  (Wasapi.CoInitializeEx be && ok = Session.wasapi_can_start be) /\
  (ok = true -> Session.fully_acquired l).
Proof.
  intros Hpid. unfold Session.wasapi_can_start, Session.fully_acquired.
  unfold Wasapi.acquire, Wasapi.initialize3, Wasapi.fallback_client,
    Wasapi.common_setup.
  destruct be as [coinit cocreate endpoint act3 act1 mix init3 act1f init1
                  event seth service start].
  cbn [Wasapi.CoInitializeEx Wasapi.CoCreateInstance Wasapi.GetDefaultAudioEndpoint
       Wasapi.ActivateClient3 Wasapi.ActivateClient1 Wasapi.GetMixFormat
       Wasapi.Initialize3 Wasapi.ActivateClient1Fallback Wasapi.Initialize1
       Wasapi.CreateEvent Wasapi.SetEventHandle Wasapi.GetService Wasapi.ClientStart].
  assert (Hbranch : (if pid =? 0 then true else pid >? 0) = true).
  { destruct (Z.eqb_spec pid 0); [reflexivity | apply Z.gtb_lt; lia]. }
  destruct (pid =? 0); [|rewrite Hbranch];
    repeat (match goal with
            | |- context [negb ?b] => is_var b; destruct b; cbn [negb]
            | |- context [if ?b then _ else _] => is_var b; destruct b
            | |- context [match ?m with Some _ => _ | None => _ end] =>
                is_var m; destruct m
            end;
            cbn [Wasapi.audioClient3 Wasapi.audioClient1 Wasapi.set_audioClient3
                 Wasapi.set_audioClient1 Wasapi.set_pwfx Wasapi.set_device
                 Wasapi.set_enumr Wasapi.set_hEvent Wasapi.set_cap Wasapi.no_locals
                 negb]);
    cbn;
    (split; [try reflexivity; destruct coinit; reflexivity
            | intros H; try discriminate H; repeat split; discriminate]).
Qed.

Lemma printf_all_keeps (msgs : list string) (o : Io.Out) :
  let o' := fold_left (fun o m => Io.printf m o) msgs o in
  Io.delivered o' = Io.delivered o /\ Io.released o' = Io.released o.
Proof.
  revert o. induction msgs as [|m msgs IH]; intros o; cbn [fold_left]; [auto|].
  destruct (IH (Io.printf m o)) as [Hd Hr]. cbv zeta in *. now rewrite Hd, Hr.
Qed.

(** The WASAPI thread from its entry to its loop or its return. *)
Lemma wasapi_thread_entry_outcome (be : Wasapi.Backend) (pid : Z) (w : Wasapi.Capture) :
  0 <= pid ->
  let w1 := Wasapi.thread_entry be pid w in
  Wasapi.tsfn_ w1 = Wasapi.tsfn_ w /\ Wasapi.targetPid_ w1 = Wasapi.targetPid_ w /\
  Io.delivered (Wasapi.out w1) = Io.delivered (Wasapi.out w) /\
  if Session.wasapi_can_start be then
    (exists l, Wasapi.capture_thread_ w1 = Wasapi.InLoop l Dsp.init /\
               Session.fully_acquired l) /\
    Wasapi.running_ w1 = Wasapi.running_ w /\
    Wasapi.com_initialized w1 = true /\
    Io.released (Wasapi.out w1) = Io.released (Wasapi.out w)
  else
    Wasapi.capture_thread_ w1 = Wasapi.Returned Wasapi.no_locals /\
    Wasapi.running_ w1 = (Wasapi.CoInitializeEx be && Wasapi.running_ w) /\
    Io.released (Wasapi.out w1) = Io.released (Wasapi.out w) ++ [Wasapi.tsfn_ w].
Proof.
  intros Hpid w1. subst w1. unfold Wasapi.thread_entry.
  pose proof (acquire_outcome be pid Hpid) as Hacq.
  destruct (Wasapi.CoInitializeEx be) eqn:Hco; cbn [negb andb] in *.
  - destruct (Wasapi.acquire be pid) as [[ok l] msgs]. destruct Hacq as [Hok Hfull].
    rewrite <- Hok.
    pose proof (printf_all_keeps msgs (Wasapi.out w)) as [Hd Hr]. cbv zeta in Hd, Hr.
    destruct ok; cbn.
    + repeat split; try assumption. exists l. split; [reflexivity | now apply Hfull].
    + unfold Wasapi.leave. cbn. rewrite cleanup_releases_everything, Hd, Hr.
      repeat split.
  - assert (Hcan : Session.wasapi_can_start be = false).
    { unfold Session.wasapi_can_start. now rewrite Hco. }
    rewrite Hcan. cbn. repeat split.
Qed.

Lemma wasapi_start_from_idle
        (be : Wasapi.Backend) (pid : Z) (tsfn : nat) (w : Wasapi.Capture) :
  Session.wasapi_idle w -> 0 <= pid ->
  exists w1,
    Wasapi.Start be pid tsfn w = Some (true, w1) /\
    Wasapi.targetPid_ w1 = pid /\ Wasapi.tsfn_ w1 = tsfn /\
    Io.delivered (Wasapi.out w1) = Io.delivered (Wasapi.out w) /\
    if Session.wasapi_can_start be then
      (exists l, Wasapi.capture_thread_ w1 = Wasapi.InLoop l Dsp.init /\
                 Session.fully_acquired l) /\
      Wasapi.running_ w1 = true /\
      Io.released (Wasapi.out w1) = Io.released (Wasapi.out w)
    else
      Wasapi.capture_thread_ w1 = Wasapi.Returned Wasapi.no_locals /\
      Io.released (Wasapi.out w1) = Io.released (Wasapi.out w) ++ [tsfn].
Proof.
  intros [Hrun Hthr] Hpid. unfold Wasapi.Start. rewrite Hrun.
  cbn [Wasapi.printf Wasapi.with_out Wasapi.with_running
       Wasapi.capture_thread_ Wasapi.running_].
  rewrite Hthr. cbn [Wasapi.joinable]. eexists. split; [reflexivity|].
  match goal with
  | |- context [Wasapi.thread_entry be pid ?w0] =>
      pose proof (wasapi_thread_entry_outcome be pid w0 Hpid) as H;
      cbv zeta in H; set (w1 := Wasapi.thread_entry be pid w0) in *
  end.
  destruct H as (Ht & Hp & Hd & Hrest).
  cbn [Wasapi.tsfn_ Wasapi.targetPid_ Wasapi.out Wasapi.running_
       Io.printf Io.delivered Io.released] in Ht, Hp, Hd, Hrest.
  split; [exact Hp|]. split; [exact Ht|]. split; [exact Hd|].
  destruct (Session.wasapi_can_start be).
  - destruct Hrest as (Hl & Hr & _ & Hrel). repeat split; assumption.
  - destruct Hrest as (Hl & _ & Hrel). split; assumption.
Qed.

(** X11: WASAPI Start on an idle object always returns true, whatever the
    platform answers, and records the PID and the callback.  The thread
    reaches its loop exactly when the calls on its path succeed; it then
    holds the enumerator, the device, the format, the event, the capture
    service and exactly one audio client, the filter and gate state are the
    initial ones, and nothing has been released.  Otherwise the thread has
    returned holding nothing and has released the callback. *)
Theorem X11_wasapi_start_outcome
        (be : Wasapi.Backend) (pid : Z) (tsfn : nat) (w : Wasapi.Capture) :
  Session.wasapi_idle w -> 0 <= pid ->
  exists w1,
    Wasapi.Start be pid tsfn w = Some (true, w1) /\
    Wasapi.targetPid_ w1 = pid /\ Wasapi.tsfn_ w1 = tsfn /\
    Io.delivered (Wasapi.out w1) = Io.delivered (Wasapi.out w) /\
    if Session.wasapi_can_start be then
      (exists l, Wasapi.capture_thread_ w1 = Wasapi.InLoop l Dsp.init /\
                 Session.fully_acquired l) /\
      Wasapi.running_ w1 = true /\
      Io.released (Wasapi.out w1) = Io.released (Wasapi.out w)
    else
      Wasapi.capture_thread_ w1 = Wasapi.Returned Wasapi.no_locals /\
      Io.released (Wasapi.out w1) = Io.released (Wasapi.out w) ++ [tsfn].
Proof. exact (wasapi_start_from_idle be pid tsfn w). Qed.

Lemma X11_witness :
  exists w1,
    Wasapi.Start Examples.windows_no_endpoint 0 1 Wasapi.new = Some (true, w1) /\
    Wasapi.capture_thread_ w1 = Wasapi.Returned Wasapi.no_locals.
Proof.
  destruct (X11_wasapi_start_outcome Examples.windows_no_endpoint 0 1 Wasapi.new)
    as (w1 & Hs & _ & _ & _ & Hrest).
  - split; reflexivity.
  - lia.
  - exists w1. split; [exact Hs|]. exact (proj1 Hrest).
Defined.

Lemma wasapi_stop_outcome (w : Wasapi.Capture) :
  let w' := Wasapi.Stop w in
  Session.wasapi_idle w' /\
  Wasapi.tsfn_ w' = Wasapi.tsfn_ w /\ Wasapi.targetPid_ w' = Wasapi.targetPid_ w /\
  Io.delivered (Wasapi.out w') = Io.delivered (Wasapi.out w) /\
  Io.released (Wasapi.out w')
  = Io.released (Wasapi.out w)
    ++ match Wasapi.capture_thread_ w with
       | Wasapi.InLoop _ _ => [Wasapi.tsfn_ w]
       | _ => []
       end.
Proof.
  unfold Session.wasapi_idle, Wasapi.Stop, Wasapi.loop_turn, Wasapi.leave.
  destruct w as [thr run tsfn pid com o].
  destruct thr as [|l dsp|l]; cbn; rewrite ?app_nil_r; repeat split.
Qed.



Lemma coreaudio_stop_not_running (w : CoreAudio.World) :
  CoreAudio.running_ (CoreAudio.capture (CoreAudio.Stop w)) = false.
Proof.
  unfold CoreAudio.Stop.
  destruct (CoreAudio.running_ (CoreAudio.capture w)) eqn:Hrun; cbn [negb];
    [|exact Hrun].
  unfold CoreAudio.thread_exit, CoreAudio.stop_unit.
  destruct w as [[thr run tsfn pid excl cur au dev agg tap dsp fmt] st o].
  cbn in Hrun. subst run.
  destruct au as [u|]; destruct tap; destruct thr; cbn;
    destruct (agg =? _); reflexivity.
Qed.

(** X13: once Stop has returned, nothing more is delivered.  On WASAPI the
    capture loop is gone: whatever the device would signal or hand over,
    nothing changes.  On CoreAudio a device callback that still arrives
    returns noErr at once and changes nothing: no frame, no log line, no
    counter. *)
Theorem X13_nothing_after_stop :
  (forall (w : Wasapi.Capture) signaled packets,
      Wasapi.loop_turn signaled packets (Wasapi.Stop w) = Wasapi.Stop w) /\
  (forall (w : CoreAudio.World) inNumberFrames r,
      CoreAudio.InputCallback inNumberFrames r (CoreAudio.Stop w)
      = (CoreAudio.noErr, CoreAudio.Stop w)).
Proof.
  split.
  - intros w signaled packets.
    destruct (wasapi_stop_outcome w) as ((_ & Hthr) & _).
    unfold Wasapi.loop_turn. now rewrite Hthr.
  - intros w frames r. unfold CoreAudio.InputCallback.
    now rewrite coreaudio_stop_not_running.
Qed.

(** [TryAudioUnitHALApproach], for every platform. *)
Lemma hal_outcome (be : CoreAudio.Backend) (dev : Z) (w : CoreAudio.World) :
  let r := CoreAudio.TryAudioUnitHALApproach be dev w in
  let c := CoreAudio.capture w in
  let c' := CoreAudio.capture (snd r) in
  fst r = (CoreAudio.AudioComponentFindNext be && CoreAudio.AudioComponentInstanceNew be &&
           CoreAudio.EnableInput be && CoreAudio.DisableOutput be &&
           CoreAudio.SetCurrentDevice be &&
           match CoreAudio.GetStreamFormat be with Some _ => true | None => false end &&
           CoreAudio.SetInputCallback be && CoreAudio.AudioUnitInitialize be &&
           CoreAudio.AudioOutputUnitStart be) /\
  (CoreAudio.running_ c' = CoreAudio.running_ c /\
   CoreAudio.tsfn_ c' = CoreAudio.tsfn_ c /\
   CoreAudio.targetPid_ c' = CoreAudio.targetPid_ c /\
   CoreAudio.excludeCurrentPid_ c' = CoreAudio.excludeCurrentPid_ c /\
   CoreAudio.currentPid_ c' = CoreAudio.currentPid_ c /\
   CoreAudio.capture_thread_ c' = CoreAudio.capture_thread_ c /\
   CoreAudio.aggregateDeviceId_ c' = CoreAudio.aggregateDeviceId_ c) /\
  (CoreAudio.deviceId_ c' = dev /\ CoreAudio.usingTap_ c' = false) /\
  (CoreAudio.statics (snd r) = CoreAudio.statics w /\
   Io.delivered (CoreAudio.out (snd r)) = Io.delivered (CoreAudio.out w) /\
   Io.released (CoreAudio.out (snd r)) = Io.released (CoreAudio.out w)) /\
  (fst r = true ->
   CoreAudio.audioUnit_ c' = Some CoreAudio.Started /\ CoreAudio.dsp_ c' = Dsp.init /\
   CoreAudio.GetStreamFormat be = Some (CoreAudio.inputFormat_ c')) /\
  (fst r = false -> CoreAudio.audioUnit_ c = None -> CoreAudio.audioUnit_ c' = None).
Proof.
  unfold CoreAudio.TryAudioUnitHALApproach, CoreAudio.dispose_and_fail.
  destruct be as [pid bhin bhout defout findnext instnew enin disout setdev fmt
                  setcb init start].
  cbn [CoreAudio.AudioComponentFindNext CoreAudio.AudioComponentInstanceNew
       CoreAudio.EnableInput CoreAudio.DisableOutput CoreAudio.SetCurrentDevice
       CoreAudio.GetStreamFormat CoreAudio.SetInputCallback
       CoreAudio.AudioUnitInitialize CoreAudio.AudioOutputUnitStart].
  repeat (match goal with
          | |- context [negb ?b] => is_var b; destruct b; cbn [negb]
          | |- context [match ?m with Some _ => _ | None => _ end] =>
              is_var m; destruct m
          end);
    cbn; repeat split; try reflexivity; try discriminate; auto.
Qed.

(** The CoreAudio thread from its entry to its loop or its return. *)
Lemma coreaudio_thread_entry_outcome (be : CoreAudio.Backend) (w : CoreAudio.World) :
  CoreAudio.audioUnit_ (CoreAudio.capture w) = None ->
  let w1 := CoreAudio.thread_entry be w in
  let c := CoreAudio.capture w in
  let c1 := CoreAudio.capture w1 in
  (CoreAudio.tsfn_ c1 = CoreAudio.tsfn_ c /\
   CoreAudio.targetPid_ c1 = CoreAudio.targetPid_ c /\
   CoreAudio.excludeCurrentPid_ c1 = CoreAudio.excludeCurrentPid_ c /\
   CoreAudio.currentPid_ c1 = CoreAudio.currentPid_ c /\
   CoreAudio.aggregateDeviceId_ c1 = CoreAudio.aggregateDeviceId_ c /\
   CoreAudio.statics w1 = CoreAudio.statics w /\
   Io.delivered (CoreAudio.out w1) = Io.delivered (CoreAudio.out w)) /\
  if Session.coreaudio_can_start be then
    CoreAudio.capture_thread_ c1 = CoreAudio.Sleeping /\
    CoreAudio.running_ c1 = CoreAudio.running_ c /\
    CoreAudio.audioUnit_ c1 = Some CoreAudio.Started /\
    CoreAudio.usingTap_ c1 = false /\
    CoreAudio.dsp_ c1 = Dsp.init /\
    CoreAudio.deviceId_ c1 = CoreAudio.FindBlackHoleInputDevice be /\
    CoreAudio.GetStreamFormat be = Some (CoreAudio.inputFormat_ c1) /\
    Io.released (CoreAudio.out w1) = Io.released (CoreAudio.out w)
  else
    CoreAudio.capture_thread_ c1 = CoreAudio.Returned /\
    CoreAudio.running_ c1 = false /\
    CoreAudio.audioUnit_ c1 = None /\
    Io.released (CoreAudio.out w1) = Io.released (CoreAudio.out w) ++ [CoreAudio.tsfn_ c].
Proof.
  intros Hnone. unfold Session.coreaudio_can_start, CoreAudio.thread_entry.
  destruct (CoreAudio.FindBlackHoleInputDevice be =? CoreAudio.kAudioDeviceUnknown).
  - cbn. repeat split. exact Hnone.
  - cbn [negb andb].
    match goal with
    | |- context [CoreAudio.TryAudioUnitHALApproach be ?dev ?w0] =>
        pose proof (hal_outcome be dev w0) as Hhal; cbv zeta in Hhal;
        assert (Hw0 : CoreAudio.capture w0
                      = CoreAudio.with_device (CoreAudio.FindBlackHoleInputDevice be)
                          (CoreAudio.usingTap_ (CoreAudio.capture w))
                          (CoreAudio.capture w) /\
                      CoreAudio.statics w0 = CoreAudio.statics w /\
                      Io.delivered (CoreAudio.out w0) = Io.delivered (CoreAudio.out w) /\
                      Io.released (CoreAudio.out w0) = Io.released (CoreAudio.out w))
          by (destruct (negb (CoreAudio.FindBlackHoleOutputDevice be
                              =? CoreAudio.kAudioDeviceUnknown));
              destruct (negb (CoreAudio.FindDefaultOutputDevice be
                              =? CoreAudio.kAudioDeviceUnknown));
              cbn; auto);
        assert (Hdev : dev = CoreAudio.FindBlackHoleInputDevice be)
          by (destruct (negb (CoreAudio.FindBlackHoleOutputDevice be
                              =? CoreAudio.kAudioDeviceUnknown));
              destruct (negb (CoreAudio.FindDefaultOutputDevice be
                              =? CoreAudio.kAudioDeviceUnknown));
              reflexivity);
        rewrite Hdev in *;
        set (w0' := w0) in *; clearbody w0';
        destruct (CoreAudio.TryAudioUnitHALApproach be
                    (CoreAudio.FindBlackHoleInputDevice be) w0') as [ok w2]
    end.
    cbn [fst snd] in Hhal.
    destruct Hw0 as (Hc0 & Hs0 & Hd0 & Hr0).
    destruct Hhal as (Hok & Hkeep & Hdevs & Hio & Hyes & Hno).
    rewrite Hc0 in Hkeep, Hno. cbn in Hkeep, Hno.
    destruct Hkeep as (K1 & K2 & K3 & K4 & K5 & K6 & K7).
    destruct Hio as (I1 & I2 & I3). destruct Hdevs as (D1 & D2).
    rewrite <- Hok. destruct ok; cbn [negb].
    + destruct (Hyes eq_refl) as (Y1 & Y2 & Y3).
      cbn. rewrite K1, K2, K3, K4, K5, K7, I1, I2, I3, Hs0, Hd0, Hr0, Y1, Y2, D1, D2.
      repeat split. exact Y3.
    + cbn. rewrite K2, K3, K4, K5, K7, I1, I2, I3, Hs0, Hd0, Hr0.
      rewrite (Hno eq_refl Hnone). repeat split.
Qed.

Lemma coreaudio_start_from_idle
      (be : CoreAudio.Backend) (pid : Z) (tsfn : nat) (w : CoreAudio.World) :
  Session.coreaudio_idle w ->
  CoreAudio.audioUnit_ (CoreAudio.capture w) = None ->
  exists w1,
    CoreAudio.Start be pid tsfn w = Some (true, w1) /\
    let c1 := CoreAudio.capture w1 in
    (CoreAudio.targetPid_ c1 = pid /\ CoreAudio.tsfn_ c1 = tsfn /\
     CoreAudio.excludeCurrentPid_ c1 = (pid =? 0) /\
     CoreAudio.currentPid_ c1 = CoreAudio.getpid be /\
     CoreAudio.aggregateDeviceId_ c1 = CoreAudio.aggregateDeviceId_ (CoreAudio.capture w) /\
     Io.delivered (CoreAudio.out w1) = Io.delivered (CoreAudio.out w)) /\
    if Session.coreaudio_can_start be then
      CoreAudio.capture_thread_ c1 = CoreAudio.Sleeping /\
      CoreAudio.running_ c1 = true /\
      CoreAudio.audioUnit_ c1 = Some CoreAudio.Started /\
      CoreAudio.usingTap_ c1 = false /\
      CoreAudio.dsp_ c1 = Dsp.init /\
      CoreAudio.deviceId_ c1 = CoreAudio.FindBlackHoleInputDevice be /\
      CoreAudio.GetStreamFormat be = Some (CoreAudio.inputFormat_ c1) /\
      Io.released (CoreAudio.out w1) = Io.released (CoreAudio.out w)
    else
      CoreAudio.capture_thread_ c1 = CoreAudio.Returned /\
      CoreAudio.running_ c1 = false /\
      CoreAudio.audioUnit_ c1 = None /\
      Io.released (CoreAudio.out w1) = Io.released (CoreAudio.out w) ++ [tsfn].
Proof.
  intros [Hrun Hthr] Hnone. unfold CoreAudio.Start. rewrite Hrun.
  cbn [CoreAudio.capture_thread_ CoreAudio.excludeCurrentPid_]. rewrite Hthr.
  cbn [CoreAudio.joinable]. eexists. split; [reflexivity|].
  match goal with
  | |- context [CoreAudio.thread_entry be ?w0] =>
      assert (Hw0 : CoreAudio.audioUnit_ (CoreAudio.capture w0) = None)
        by (destruct (pid =? 0); [|destruct (pid >? 0)]; cbn; exact Hnone);
      pose proof (coreaudio_thread_entry_outcome be w0 Hw0) as H; cbv zeta in H;
      assert (Hc0 : CoreAudio.capture w0
                    = {| CoreAudio.capture_thread_ := CoreAudio.NotAThread;
                         CoreAudio.running_ := true; CoreAudio.tsfn_ := tsfn;
                         CoreAudio.targetPid_ := pid;
                         CoreAudio.excludeCurrentPid_ := (pid =? 0);
                         CoreAudio.currentPid_ := CoreAudio.getpid be;
                         CoreAudio.audioUnit_ := CoreAudio.audioUnit_ (CoreAudio.capture w);
                         CoreAudio.deviceId_ := CoreAudio.deviceId_ (CoreAudio.capture w);
                         CoreAudio.aggregateDeviceId_ := CoreAudio.aggregateDeviceId_ (CoreAudio.capture w);
                         CoreAudio.usingTap_ := CoreAudio.usingTap_ (CoreAudio.capture w);
                         CoreAudio.dsp_ := CoreAudio.dsp_ (CoreAudio.capture w);
                         CoreAudio.inputFormat_ := CoreAudio.inputFormat_ (CoreAudio.capture w) |} /\
                    Io.delivered (CoreAudio.out w0) = Io.delivered (CoreAudio.out w) /\
                    Io.released (CoreAudio.out w0) = Io.released (CoreAudio.out w))
        by (destruct (pid =? 0); [|destruct (pid >? 0)]; cbn; repeat split);
      set (w0' := w0) in *; clearbody w0'
  end.
  destruct Hc0 as (Hc0 & Hd0 & Hr0). rewrite Hc0 in H. cbn in H.
  destruct H as ((K1 & K2 & K3 & K4 & K5 & _ & K7) & Hrest).
  rewrite Hd0 in K7. rewrite Hr0 in Hrest.
  split; [repeat split; assumption|]. exact Hrest.
Qed.

(** X14: CoreAudio Start on an idle object always returns true, whatever
    the machine answers, and records the PID, the callback, the caller's
    own PID and whether it is excluded.  The thread reaches its loop
    exactly when a BlackHole input device is found and every step of the
    audio-unit set-up succeeds; the unit is then started on that device,
    the filter and gate state are the initial ones and the input format is
    the device's.  Otherwise the thread has returned, the running flag is
    reset, no audio unit is left and the callback has been released. *)
Theorem X14_coreaudio_start_outcome
        (be : CoreAudio.Backend) (pid : Z) (tsfn : nat) (w : CoreAudio.World) :
  Session.coreaudio_idle w ->
  CoreAudio.audioUnit_ (CoreAudio.capture w) = None ->
  exists w1,
    CoreAudio.Start be pid tsfn w = Some (true, w1) /\
    let c1 := CoreAudio.capture w1 in
    (CoreAudio.targetPid_ c1 = pid /\ CoreAudio.tsfn_ c1 = tsfn /\
     CoreAudio.excludeCurrentPid_ c1 = (pid =? 0) /\
     CoreAudio.currentPid_ c1 = CoreAudio.getpid be /\
     CoreAudio.aggregateDeviceId_ c1 = CoreAudio.aggregateDeviceId_ (CoreAudio.capture w) /\
     Io.delivered (CoreAudio.out w1) = Io.delivered (CoreAudio.out w)) /\
    if Session.coreaudio_can_start be then
      CoreAudio.capture_thread_ c1 = CoreAudio.Sleeping /\
      CoreAudio.running_ c1 = true /\
      CoreAudio.audioUnit_ c1 = Some CoreAudio.Started /\
      CoreAudio.usingTap_ c1 = false /\
      CoreAudio.dsp_ c1 = Dsp.init /\
      CoreAudio.deviceId_ c1 = CoreAudio.FindBlackHoleInputDevice be /\
      CoreAudio.GetStreamFormat be = Some (CoreAudio.inputFormat_ c1) /\
      Io.released (CoreAudio.out w1) = Io.released (CoreAudio.out w)
    else
      CoreAudio.capture_thread_ c1 = CoreAudio.Returned /\
      CoreAudio.running_ c1 = false /\
      CoreAudio.audioUnit_ c1 = None /\
      Io.released (CoreAudio.out w1) = Io.released (CoreAudio.out w) ++ [tsfn].
Proof. exact (coreaudio_start_from_idle be pid tsfn w). Qed.

Lemma X14_witness :
  exists w1,
    CoreAudio.Start Examples.mac_ok 0 1 Examples.mac_new = Some (true, w1) /\
    CoreAudio.audioUnit_ (CoreAudio.capture w1) = Some CoreAudio.Started.
Proof.
  destruct (X14_coreaudio_start_outcome Examples.mac_ok 0 1 Examples.mac_new)
    as (w1 & Hs & _ & Hrest).
  - split; reflexivity.
  - reflexivity.
  - exists w1. split; [exact Hs|]. exact (proj1 (proj2 (proj2 Hrest))).
Defined.

Lemma coreaudio_stop_running (w : CoreAudio.World) :
  CoreAudio.running_ (CoreAudio.capture w) = true ->
  CoreAudio.capture_thread_ (CoreAudio.capture w) = CoreAudio.Sleeping ->
  CoreAudio.usingTap_ (CoreAudio.capture w) = false ->
  let w' := CoreAudio.Stop w in
  Session.coreaudio_idle w' /\
  CoreAudio.audioUnit_ (CoreAudio.capture w') = None /\
  CoreAudio.aggregateDeviceId_ (CoreAudio.capture w') = CoreAudio.kAudioObjectUnknown /\
  Io.delivered (CoreAudio.out w') = Io.delivered (CoreAudio.out w) /\
  Io.released (CoreAudio.out w')
  = Io.released (CoreAudio.out w)
    ++ [CoreAudio.tsfn_ (CoreAudio.capture w); CoreAudio.tsfn_ (CoreAudio.capture w)].
Proof.
  destruct w as [[thr run tsfn pid excl cur au dev agg tap dsp fmt] st o].
  cbn. intros -> -> ->.
  unfold Session.coreaudio_idle, CoreAudio.Stop, CoreAudio.thread_exit, CoreAudio.stop_unit.
  destruct au as [u|]; cbn; destruct (Z.eqb_spec agg CoreAudio.kAudioObjectUnknown);
    cbn; rewrite <- ?app_assoc; repeat split; auto.
Qed.

(** X15: CoreAudio Stop on a session that started leaves the object idle
    with the audio unit disposed and any aggregate device forgotten, and
    delivers nothing; the callback is released twice, once by the capture
    thread on its way out and once by Stop itself.  The object can then be
    started again. *)
Theorem X15_coreaudio_stop_after_start
        (be : CoreAudio.Backend) (pid : Z) (tsfn : nat) (w : CoreAudio.World) :
  Session.coreaudio_idle w ->
  CoreAudio.audioUnit_ (CoreAudio.capture w) = None ->
  Session.coreaudio_can_start be = true ->
  exists w1,
    CoreAudio.Start be pid tsfn w = Some (true, w1) /\
    let w2 := CoreAudio.Stop w1 in
    Session.coreaudio_idle w2 /\
    CoreAudio.audioUnit_ (CoreAudio.capture w2) = None /\
    Io.delivered (CoreAudio.out w2) = Io.delivered (CoreAudio.out w) /\
    Io.released (CoreAudio.out w2) = Io.released (CoreAudio.out w) ++ [tsfn; tsfn] /\
    forall be' pid' tsfn',
      exists w3, CoreAudio.Start be' pid' tsfn' w2 = Some (true, w3).
Proof.
  intros Hidle Hnone Hcan.
  destruct (coreaudio_start_from_idle be pid tsfn w Hidle Hnone)
    as (w1 & Hs & (_ & Ht & _ & _ & _ & Hd) & Hrest).
  rewrite Hcan in Hrest.
  destruct Hrest as (Hthr & Hrun & _ & Htap & _ & _ & _ & Hrel).
  exists w1. split; [exact Hs|].
  destruct (coreaudio_stop_running w1 Hrun Hthr Htap) as (Hi & Hau & _ & Hd2 & Hr2).
  cbv zeta in *.
  split; [exact Hi|]. split; [exact Hau|]. split; [congruence|].
  split; [now rewrite Hr2, Hrel, Ht|].
  intros be' pid' tsfn'.
  destruct (coreaudio_start_from_idle be' pid' tsfn' (CoreAudio.Stop w1) Hi Hau)
    as (w3 & Hs3 & _).
  now exists w3.
Qed.

Lemma X15_witness :
  exists w1,
    CoreAudio.Start Examples.mac_ok 0 7 Examples.mac_new = Some (true, w1) /\
    Io.released (CoreAudio.out (CoreAudio.Stop w1)) = [7%nat; 7%nat].
Proof.
  destruct (X15_coreaudio_stop_after_start Examples.mac_ok 0 7 Examples.mac_new)
    as (w1 & Hs & _ & _ & _ & Hr & _).
  - split; reflexivity.
  - reflexivity.
  - reflexivity.
  - exists w1. split; [exact Hs | exact Hr].
Defined.

(** X16: after a CoreAudio Start whose acquisition fails (no BlackHole
    input device, or a failing step of the audio-unit set-up) the object
    cannot be started again: Stop finds the running flag reset and returns
    at once without joining the thread, and the next Start, with any
    arguments and on any machine, move-assigns to the still joinable
    thread, which ends the process. *)
Theorem X16_coreaudio_failed_start_is_final
        (be : CoreAudio.Backend) (pid : Z) (tsfn : nat) (w : CoreAudio.World) :
  Session.coreaudio_idle w ->
  CoreAudio.audioUnit_ (CoreAudio.capture w) = None ->
  Session.coreaudio_can_start be = false ->
  exists w1,
    CoreAudio.Start be pid tsfn w = Some (true, w1) /\
    CoreAudio.running_ (CoreAudio.capture w1) = false /\
    CoreAudio.Stop w1 = w1 /\
    forall be' pid' tsfn',
      CoreAudio.Start be' pid' tsfn' w1 = None /\
      CoreAudio.Start be' pid' tsfn' (CoreAudio.Stop w1) = None.
Proof.
  intros Hidle Hnone Hcan.
  destruct (coreaudio_start_from_idle be pid tsfn w Hidle Hnone)
    as (w1 & Hs & _ & Hrest).
  rewrite Hcan in Hrest. destruct Hrest as (Hthr & Hrun & _).
  exists w1. split; [exact Hs|]. split; [exact Hrun|].
  assert (Hstop : CoreAudio.Stop w1 = w1).
  { unfold CoreAudio.Stop. now rewrite Hrun. }
  split; [exact Hstop|].
  intros be' pid' tsfn'. rewrite Hstop.
  assert (Hstart : CoreAudio.Start be' pid' tsfn' w1 = None).
  { unfold CoreAudio.Start. rewrite Hrun.
    cbn [CoreAudio.capture_thread_ CoreAudio.excludeCurrentPid_].
    now rewrite Hthr. }
  split; exact Hstart.
Qed.

Lemma X16_witness :
  exists w1,
    CoreAudio.Start Examples.mac_no_blackhole 0 1 Examples.mac_new = Some (true, w1) /\
    CoreAudio.Start Examples.mac_ok 0 2 (CoreAudio.Stop w1) = None.
Proof.
  destruct (X16_coreaudio_failed_start_is_final Examples.mac_no_blackhole 0 1
              Examples.mac_new) as (w1 & Hs & _ & _ & Hnext).
  - split; reflexivity.
  - reflexivity.
  - reflexivity.
  - exists w1. split; [exact Hs|]. exact (proj2 (Hnext Examples.mac_ok 0 2%nat)).
Defined.

(** The two branches of lines 125-148 differ in their messages only. *)
Lemma acquire_pid_independent (be : Wasapi.Backend) (pid1 pid2 : Z) :
  0 <= pid1 -> 0 <= pid2 ->
  fst (Wasapi.acquire be pid1) = fst (Wasapi.acquire be pid2).
Proof.
  intros H1 H2.
  assert (B1 : (if pid1 =? 0 then true else pid1 >? 0) = true).
  { destruct (Z.eqb_spec pid1 0); [reflexivity | apply Z.gtb_lt; lia]. }
  assert (B2 : (if pid2 =? 0 then true else pid2 >? 0) = true).
  { destruct (Z.eqb_spec pid2 0); [reflexivity | apply Z.gtb_lt; lia]. }
  unfold Wasapi.acquire, Wasapi.initialize3, Wasapi.fallback_client,
    Wasapi.common_setup.
  destruct be as [coinit cocreate endpoint act3 act1 mix init3 act1f init1
                  event seth service start].
  cbn [Wasapi.CoInitializeEx Wasapi.CoCreateInstance Wasapi.GetDefaultAudioEndpoint
       Wasapi.ActivateClient3 Wasapi.ActivateClient1 Wasapi.GetMixFormat
       Wasapi.Initialize3 Wasapi.ActivateClient1Fallback Wasapi.Initialize1
       Wasapi.CreateEvent Wasapi.SetEventHandle Wasapi.GetService Wasapi.ClientStart].
  destruct (pid1 =? 0); [|rewrite B1]; (destruct (pid2 =? 0); [|rewrite B2]);
    repeat (match goal with
            | |- context [negb ?b] => is_var b; destruct b; cbn [negb]
            | |- context [if ?b then _ else _] => is_var b; destruct b
            | |- context [match ?m with Some _ => _ | None => _ end] =>
                is_var m; destruct m
            end;
            cbn [Wasapi.audioClient3 Wasapi.audioClient1 Wasapi.set_audioClient3
                 Wasapi.set_audioClient1 Wasapi.set_pwfx Wasapi.set_device
                 Wasapi.set_enumr Wasapi.set_hEvent Wasapi.set_cap Wasapi.no_locals
                 negb]);
    reflexivity.
Qed.

Lemma drain_delivered (fmt : Wasapi.WAVEFORMATEX) (packets : list Wasapi.Packet)
      (dsp : Dsp.State) (o : Io.Out) :
  fst (Wasapi.drain fmt packets dsp o) = fst (Wasapi.drain fmt packets dsp Io.empty) /\
  Io.delivered (snd (Wasapi.drain fmt packets dsp o))
  = Io.delivered o ++ Io.delivered (snd (Wasapi.drain fmt packets dsp Io.empty)).
Proof.
  revert dsp o. induction packets as [|p packets IH]; intros dsp o.
  - cbn. now rewrite app_nil_r.
  - destruct p as [| |frames data]; cbn [Wasapi.drain].
    + cbn. now rewrite app_nil_r.
    + cbn. now rewrite app_nil_r.
    + destruct (Dsp.condition dsp _ _ frames data) as [dsp1 samples].
      destruct (IH dsp1 (Io.BlockingCall (Wav.build_wav samples) o)) as [Hf Hd].
      destruct (IH dsp1 (Io.BlockingCall (Wav.build_wav samples) Io.empty)) as [Hf0 Hd0].
      rewrite Hf, Hd, Hf0, Hd0. cbn. split; [reflexivity|]. now rewrite <- app_assoc.
Qed.

(** X17: on WASAPI the target PID selects nothing.  Started with any two
    PIDs on the same machine, the thread makes the same calls with the same
    outcome and holds the same resources, and from then on every turn of
    the loop leaves the two sessions in the same thread state with the same
    frames delivered: the PID is only stored and printed. *)
Theorem X17_wasapi_pid_selects_nothing
        (be : Wasapi.Backend) (pid1 pid2 : Z) (tsfn : nat) (w : Wasapi.Capture) :
  Session.wasapi_idle w -> 0 <= pid1 -> 0 <= pid2 ->
  exists w1 w2,
    Wasapi.Start be pid1 tsfn w = Some (true, w1) /\
    Wasapi.Start be pid2 tsfn w = Some (true, w2) /\
    Wasapi.targetPid_ w1 = pid1 /\ Wasapi.targetPid_ w2 = pid2 /\
    Wasapi.capture_thread_ w1 = Wasapi.capture_thread_ w2 /\
    Wasapi.running_ w1 = Wasapi.running_ w2 /\
    forall signaled packets,
      let v1 := Wasapi.loop_turn signaled packets w1 in
      let v2 := Wasapi.loop_turn signaled packets w2 in
      Wasapi.capture_thread_ v1 = Wasapi.capture_thread_ v2 /\
      Io.delivered (Wasapi.out v1) = Io.delivered (Wasapi.out v2).
Proof.
  intros Hidle H1 H2.
  destruct (wasapi_start_from_idle be pid1 tsfn w Hidle H1)
    as (w1 & Hs1 & Hp1 & _ & Hd1 & Hrest1).
  destruct (wasapi_start_from_idle be pid2 tsfn w Hidle H2)
    as (w2 & Hs2 & Hp2 & _ & Hd2 & Hrest2).
  exists w1, w2. split; [exact Hs1|]. split; [exact Hs2|].
  split; [exact Hp1|]. split; [exact Hp2|].
  assert (Hthr : Wasapi.capture_thread_ w1 = Wasapi.capture_thread_ w2).
  { pose proof (acquire_pid_independent be pid1 pid2 H1 H2) as Hacq.
    destruct Hidle as [Hrun Hnt].
    unfold Wasapi.Start in Hs1, Hs2. rewrite Hrun in Hs1, Hs2.
    cbn [Wasapi.printf Wasapi.with_out Wasapi.with_running
         Wasapi.capture_thread_ Wasapi.running_] in Hs1, Hs2.
    rewrite Hnt in Hs1, Hs2. cbn [Wasapi.joinable] in Hs1, Hs2.
    injection Hs1 as <-. injection Hs2 as <-.
    unfold Wasapi.thread_entry.
    destruct (Wasapi.CoInitializeEx be); cbn [negb]; [|reflexivity].
    destruct (Wasapi.acquire be pid1) as [[ok1 l1] m1].
    destruct (Wasapi.acquire be pid2) as [[ok2 l2] m2].
    cbn [fst] in Hacq. injection Hacq as -> ->.
    destruct ok2; reflexivity. }
  assert (Hrun : Wasapi.running_ w1 = Wasapi.running_ w2).
  { destruct Hidle as [Hrun Hnt].
    unfold Wasapi.Start in Hs1, Hs2. rewrite Hrun in Hs1, Hs2.
    cbn [Wasapi.printf Wasapi.with_out Wasapi.with_running
         Wasapi.capture_thread_ Wasapi.running_] in Hs1, Hs2.
    rewrite Hnt in Hs1, Hs2. cbn [Wasapi.joinable] in Hs1, Hs2.
    injection Hs1 as <-. injection Hs2 as <-.
    unfold Wasapi.thread_entry.
    destruct (Wasapi.CoInitializeEx be); cbn [negb]; [|reflexivity].
    destruct (Wasapi.acquire be pid1) as [[ok1 l1] m1].
    destruct (Wasapi.acquire be pid2) as [[ok2 l2] m2].
    destruct ok1, ok2; reflexivity. }
  split; [exact Hthr|]. split; [exact Hrun|].
  intros signaled packets v1 v2. subst v1 v2. unfold Wasapi.loop_turn.
  rewrite Hthr, Hrun.
  destruct (Wasapi.capture_thread_ w2) as [|l dsp|l] eqn:Hthr2;
    [split; congruence| |split; congruence].
  destruct (Wasapi.running_ w2); cbn [negb].
  - destruct signaled; cbn [negb]; [|split; congruence].
    destruct (Wasapi.pwfx l) as [fmt|]; [|split; congruence].
    destruct (drain_delivered fmt packets dsp (Wasapi.out w1)) as [Hf1 Hdel1].
    destruct (drain_delivered fmt packets dsp (Wasapi.out w2)) as [Hf2 Hdel2].
    destruct (Wasapi.drain fmt packets dsp (Wasapi.out w1)) as [dspa oa].
    destruct (Wasapi.drain fmt packets dsp (Wasapi.out w2)) as [dspb ob].
    cbn [fst snd] in *. cbn. rewrite Hdel1, Hdel2, Hd1, Hd2, Hf1, Hf2. auto.
  - unfold Wasapi.leave. cbn. now rewrite Hd1, Hd2.
Qed.

Lemma X17_witness :
  exists w1 w2,
    Wasapi.Start Examples.windows_ok 0 1 Wasapi.new = Some (true, w1) /\
    Wasapi.Start Examples.windows_ok 4242 1 Wasapi.new = Some (true, w2) /\
    Wasapi.capture_thread_ w1 = Wasapi.capture_thread_ w2.
Proof.
  destruct (X17_wasapi_pid_selects_nothing Examples.windows_ok 0 4242 1 Wasapi.new)
    as (w1 & w2 & Hs1 & Hs2 & _ & _ & Hthr & _).
  - split; reflexivity.
  - lia.
  - lia.
  - exists w1, w2. repeat split; assumption.
Defined.

(** ** Name resolution, further *)

Section FindPidMore.
Variable sameb : string -> string -> bool.

Lemma first_match_some (dir : Procs.Directory) (q : string) (pid : Z) :
  Procs.first_match sameb dir q = Some pid ->
  exists name, In (pid, name) dir /\ sameb name q = true.
Proof.
  induction dir as [|[p n] dir IH]; cbn [Procs.first_match]; [discriminate|].
  destruct (sameb n q) eqn:E.
  - intros [= <-]. exists n. split; [now left | exact E].
  - intros H. destruct (IH H) as (name & Hin & Hs). exists name. split; [now right | exact Hs].
Qed.

Lemma first_base_match_some (dir : Procs.Directory) (b : string) (pid : Z) :
  Procs.first_base_match sameb dir b = Some pid ->
  exists name, In (pid, name) dir /\ sameb (Procs.base_name name) b = true.
Proof.
  induction dir as [|[p n] dir IH]; cbn [Procs.first_base_match]; [discriminate|].
  destruct (sameb (Procs.base_name n) b) eqn:E.
  - intros [= <-]. exists n. split; [now left | exact E].
  - intros H. destruct (IH H) as (name & Hin & Hs). exists name. split; [now right | exact Hs].
Qed.

Lemma first_base_match_exists (dir : Procs.Directory) (b : string) (pid : Z) (name : string) :
  In (pid, name) dir -> sameb (Procs.base_name name) b = true ->
  Procs.first_base_match sameb dir b <> None.
Proof.
  induction dir as [|[p n] dir IH]; cbn [Procs.first_base_match In]; [tauto|].
  intros [[= -> ->] | Hin] Hs.
  - now rewrite Hs.
  - destruct (sameb (Procs.base_name n) b); [discriminate | now apply IH].
Qed.

(** What [find_pid] returns is 0 or a PID of the snapshot; and, when no
    process of the snapshot has PID 0 and a full match implies a match of
    the base names, it is not 0 exactly when some base name matches. *)
Lemma find_pid_found (dir : Procs.Directory) (q : string) :
  let r := Procs.find_pid sameb dir q in
  (r = 0 \/ exists name, In (r, name) dir) /\
  ((forall a b, sameb a b = true ->
                sameb (Procs.base_name a) (Procs.base_name b) = true) ->
   Forall (fun e => fst e <> 0) dir ->
   (r <> 0 <-> exists pid name,
        In (pid, name) dir /\
        sameb (Procs.base_name name) (Procs.base_name q) = true)).
Proof.
  cbv zeta. unfold Procs.find_pid.
  destruct (Procs.first_match sameb dir q) as [pid|] eqn:E1.
  - destruct (first_match_some dir q pid E1) as (name & Hin & Hs).
    split; [right; now exists name|].
    intros Hbase Hnz. rewrite Forall_forall in Hnz. split.
    + intros _. exists pid, name. split; [exact Hin | now apply Hbase].
    + intros _. exact (Hnz _ Hin).
  - destruct (Procs.first_base_match sameb dir (Procs.base_name q)) as [pid|] eqn:E2.
    + destruct (first_base_match_some dir _ pid E2) as (name & Hin & Hs).
      split; [right; now exists name|].
      intros _ Hnz. rewrite Forall_forall in Hnz. split.
      * intros _. now exists pid, name.
      * intros _. exact (Hnz _ Hin).
    + split; [now left|]. intros _ _. split; [congruence|].
      intros (pid & name & Hin & Hs).
      now destruct (first_base_match_exists dir _ pid name Hin Hs).
Qed.
End FindPidMore.

Lemma base_name_cons (a : ascii) (s : string) :
  Procs.base_name (String a s)
  = if Ascii.eqb a "."%char then EmptyString else String a (Procs.base_name s).
Proof.
  unfold Procs.base_name. cbn [Procs.find].
  destruct (Ascii.eqb a "."%char); [reflexivity|].
  destruct (Procs.find "."%char s) as [n|]; reflexivity.
Qed.

Lemma tolower_dot (a : ascii) :
  Ascii.eqb (Procs.tolower a) "."%char = Ascii.eqb a "."%char.
Proof. destruct a as [[] [] [] [] [] [] [] []]; reflexivity. Qed.

Lemma tolower_nul (a : ascii) :
  Ascii.eqb (Procs.tolower a) zero = Ascii.eqb a zero.
Proof. destruct a as [[] [] [] [] [] [] [] []]; reflexivity. Qed.

Lemma lower_base_name (s : string) :
  Spec.lower (Procs.base_name s) = Procs.base_name (Spec.lower s).
Proof.
  induction s as [|a s IH]; [reflexivity|].
  cbn [Spec.lower]. rewrite !base_name_cons, tolower_dot.
  destruct (Ascii.eqb a "."%char); [reflexivity|]. cbn [Spec.lower]. now rewrite IH.
Qed.

Lemma c_str_base_name (s : string) :
  Procs.c_str (Procs.base_name s) = Procs.base_name (Procs.c_str s).
Proof.
  induction s as [|a s IH]; [reflexivity|].
  rewrite base_name_cons. cbn [Procs.c_str].
  destruct (Ascii.eqb_spec a "."%char) as [-> | Hdot].
  - cbn. reflexivity.
  - cbn [Procs.c_str]. destruct (Ascii.eqb a zero); [reflexivity|].
    rewrite base_name_cons. destruct (Ascii.eqb_spec a "."%char); [contradiction|].
    now rewrite IH.
Qed.

(** A full match without regard to case is a match of the base names. *)
Lemma same_nocase_base (a b : string) :
  Spec.same_nocase (Procs.c_str a) (Procs.c_str b) ->
  Spec.same_nocase (Procs.c_str (Procs.base_name a)) (Procs.c_str (Procs.base_name b)).
Proof.
  unfold Spec.same_nocase. intros H.
  now rewrite !c_str_base_name, !lower_base_name, H.
Qed.

Lemma stricmp_base (a b : string) :
  (Procs._stricmp a b =? 0) = true ->
  (Procs._stricmp (Procs.base_name a) (Procs.base_name b) =? 0) = true.
Proof. rewrite !stricmp_zero. apply same_nocase_base. Qed.

Lemma eqb_base (a b : string) :
  String.eqb a b = true ->
  String.eqb (Procs.base_name a) (Procs.base_name b) = true.
Proof. rewrite !String.eqb_eq. now intros ->. Qed.

(** X18: name resolution returns 0 or the PID of a process of the
    snapshot, never anything else.  Since a full match is also a match of
    the base names, a name is resolved (on a snapshot without PID 0)
    exactly when some process has the same base name, that is the same
    text before the first dot: up to case on WASAPI, exactly on
    CoreAudio. *)
Theorem X18_resolves_iff_base_name_matches (allPids : Procs.Directory) (query : string) :
  Forall (fun e => fst e <> 0) allPids ->
  let w := Wasapi.FindPidForProcess allPids query in
  let c := CoreAudio.FindPidForProcess allPids query in
  (w = 0 \/ exists name, In (w, name) allPids) /\
  (c = 0 \/ exists name, In (c, name) allPids) /\
  (w <> 0 <-> exists pid name,
       In (pid, name) allPids /\
       Spec.same_nocase (Procs.c_str (Procs.base_name name))
                        (Procs.c_str (Procs.base_name query))) /\
  (c <> 0 <-> exists pid name,
       In (pid, name) allPids /\ Procs.base_name name = Procs.base_name query).
Proof.
  intros Hnz w c. subst w c. unfold Wasapi.FindPidForProcess, CoreAudio.FindPidForProcess.
  destruct (find_pid_found (fun a b => Procs._stricmp a b =? 0) allPids query) as [Hw1 Hw2].
  destruct (find_pid_found String.eqb allPids query) as [Hc1 Hc2].
  cbv zeta in *.
  split; [exact Hw1|]. split; [exact Hc1|]. split.
  - rewrite (Hw2 stricmp_base Hnz). split.
    + intros (pid & name & Hin & Hs). exists pid, name. split; [exact Hin|].
      now apply stricmp_zero.
    + intros (pid & name & Hin & Hs). exists pid, name. split; [exact Hin|].
      now apply stricmp_zero.
  - rewrite (Hc2 eqb_base Hnz). split.
    + intros (pid & name & Hin & Hs). exists pid, name. split; [exact Hin|].
      now apply String.eqb_eq.
    + intros (pid & name & Hin & Hs). exists pid, name. split; [exact Hin|].
      now apply String.eqb_eq.
Qed.

Lemma X18_witness :
  Wasapi.FindPidForProcess [(7, "Chrome.exe"%string)] "chrome.dll" <> 0.
Proof.
  destruct (X18_resolves_iff_base_name_matches [(7, "Chrome.exe"%string)] "chrome.dll")
    as (_ & _ & Hw & _).
  - repeat constructor. cbn. discriminate.
  - apply Hw. exists 7, "Chrome.exe"%string. split; [now left | reflexivity].
Defined.

Lemma first_match_ext (f g : string -> string -> bool) (dir : Procs.Directory)
      (q q' : string) :
  (forall n, f n q = g n q') ->
  Procs.first_match f dir q = Procs.first_match g dir q'.
Proof.
  intros H. induction dir as [|[p n] dir IH]; cbn [Procs.first_match]; [reflexivity|].
  now rewrite H, IH.
Qed.

Lemma first_base_match_ext (f g : string -> string -> bool) (dir : Procs.Directory)
      (b b' : string) :
  (forall n, f n b = g n b') ->
  Procs.first_base_match f dir b = Procs.first_base_match g dir b'.
Proof.
  intros H. induction dir as [|[p n] dir IH]; cbn [Procs.first_base_match]; [reflexivity|].
  now rewrite H, IH.
Qed.

Lemma stricmp_query_nocase (n q q' : string) :
  Spec.same_nocase (Procs.c_str q) (Procs.c_str q') ->
  (Procs._stricmp n q =? 0) = (Procs._stricmp n q' =? 0).
Proof.
  intros H. apply Bool.eq_true_iff_eq. rewrite !stricmp_zero.
  unfold Spec.same_nocase in *. now rewrite H.
Qed.

(** X19: on WASAPI the answer does not depend on the case of the letters
    of the query: two queries that are equal as C strings up to case
    resolve to the same PID on every snapshot. *)
Theorem X19_wasapi_query_case_is_irrelevant
        (allPids : Procs.Directory) (query query' : string) :
  Spec.same_nocase (Procs.c_str query) (Procs.c_str query') ->
  Wasapi.FindPidForProcess allPids query = Wasapi.FindPidForProcess allPids query'.
Proof.
  intros H. unfold Wasapi.FindPidForProcess, Procs.find_pid.
  rewrite (first_match_ext _ (fun a b => Procs._stricmp a b =? 0) allPids query query')
    by (intros n; now apply stricmp_query_nocase).
  rewrite (first_base_match_ext _ (fun a b => Procs._stricmp a b =? 0) allPids
             (Procs.base_name query) (Procs.base_name query'))
    by (intros n; apply stricmp_query_nocase; now apply same_nocase_base).
  reflexivity.
Qed.

Lemma X19_witness :
  Wasapi.FindPidForProcess [(7, "Chrome.exe"%string)] "CHROME.EXE"
  = Wasapi.FindPidForProcess [(7, "Chrome.exe"%string)] "chrome.exe".
Proof. apply X19_wasapi_query_case_is_irrelevant. reflexivity. Defined.

(** ** The process directory *)

Lemma wasapi_walk_in (current : Z) (system : list WasapiProcs.PROCESSENTRY32) (p : Z) :
  In p (WasapiProcs.walk current system) <->
  p <> 0 /\ p <> 4 /\ p <> current /\
  exists pe32, In pe32 system /\ WasapiProcs.th32ProcessID pe32 = p /\
               WasapiProcs.can_query pe32 = true.
Proof.
  induction system as [|e system IH]; cbn [WasapiProcs.walk].
  - split; [intros [] | intros (_ & _ & _ & pe & [] & _)].
  - assert (Hrest : In p (WasapiProcs.walk current system) ->
                    p <> 0 /\ p <> 4 /\ p <> current /\
                    exists pe32, In pe32 (e :: system) /\
                                 WasapiProcs.th32ProcessID pe32 = p /\
                                 WasapiProcs.can_query pe32 = true).
    { intros H. apply IH in H. destruct H as (H0 & H4 & Hc & pe & Hin & Hid & Hq).
      repeat split; try assumption. exists pe. repeat split; [now right|assumption..]. }
    destruct (Z.eqb_spec (WasapiProcs.th32ProcessID e) 0) as [E0|E0];
    destruct (Z.eqb_spec (WasapiProcs.th32ProcessID e) 4) as [E4|E4];
    destruct (Z.eqb_spec (WasapiProcs.th32ProcessID e) current) as [Ec|Ec];
    destruct (WasapiProcs.can_query e) eqn:Eq; cbn [negb andb In];
    (split;
     [ first
         [ exact Hrest
         | intros [<- | H]; [|now apply Hrest];
           (split; [|split; [|split]]); try assumption;
           exists e; (split; [now left | split; [reflexivity | assumption]]) ]
     | intros (H0 & H4 & Hc & pe & [-> | Hin] & Hid & Hq);
       first
         [ congruence
         | now left
         | try right; apply IH; (split; [|split; [|split]]); try assumption;
           exists pe; (split; [|split]); assumption ] ]).
Qed.

Lemma coreaudio_walk_in (currentPid : Z) (buffer : list Z) (p : Z) :
  In p (CoreAudioProcs.walk currentPid buffer) <->
  0 < p /\ p <> currentPid /\ In p buffer.
Proof.
  induction buffer as [|b buffer IH]; cbn [CoreAudioProcs.walk In]; [tauto|].
  rewrite Z.gtb_ltb.
  destruct (Z.ltb_spec 0 b) as [E0|E0];
    destruct (Z.eqb_spec b currentPid) as [Ec|Ec]; cbn [negb andb In];
    rewrite IH; clear IH; split;
    first [ intros [<- | (H1 & H2 & H3)]
          | intros (H1 & H2 & [<- | H3])
          | intros (H1 & H2 & H3) ];
    first [ lia | congruence | tauto ].
Qed.

Lemma directory_pids (f : Z -> string) (pids : list Z) (r : Z) (name : string) :
  In (r, name) (map (fun pid => (pid, f pid)) pids) -> In r pids /\ name = f r.
Proof.
  rewrite in_map_iff. intros (p & [= -> ->] & Hin). now split.
Qed.

(** X20: resolving a name on the live system never gives the caller's own
    process.  On Windows the result is 0, or a process of the Toolhelp
    snapshot that can be opened and is neither PID 4 nor the caller; on
    macOS it is 0, or a positive PID of the list that is not the caller.
    When the snapshot (or the PID list) cannot be taken, the result is 0. *)
Theorem X20_name_never_resolves_to_caller
        (snapshot_ok : bool) (current : Z) (system : list WasapiProcs.PROCESSENTRY32)
        (numberOfProcesses currentPid : Z) (buffer : list Z)
        (proc_name : Z -> option string) (query : string) :
  let w := WasapiProcs.FindPidForProcess snapshot_ok current system query in
  let c := CoreAudioProcs.FindPidForProcess numberOfProcesses currentPid buffer
                                            proc_name query in
  (w = 0 \/
   (w <> 4 /\ w <> current /\
    exists pe32, In pe32 system /\ WasapiProcs.th32ProcessID pe32 = w /\
                 WasapiProcs.can_query pe32 = true)) /\
  (c = 0 \/ (0 < c /\ c <> currentPid /\ In c buffer)) /\
  WasapiProcs.FindPidForProcess false current system query = 0 /\
  CoreAudioProcs.FindPidForProcess 0 currentPid buffer proc_name query = 0.
Proof.
  cbv zeta. split; [|split; [|split; reflexivity]].
  - unfold WasapiProcs.FindPidForProcess, Wasapi.FindPidForProcess.
    destruct (find_pid_found (fun a b => Procs._stricmp a b =? 0)
                (WasapiProcs.directory snapshot_ok current system) query) as [[H|[name H]] _];
      [now left|right].
    apply directory_pids in H. destruct H as [H _].
    unfold WasapiProcs.EnumerateAllProcesses in H.
    destruct snapshot_ok; cbn [negb] in H; [|destruct H].
    apply wasapi_walk_in in H. tauto.
  - unfold CoreAudioProcs.FindPidForProcess, CoreAudio.FindPidForProcess.
    destruct (find_pid_found String.eqb
                (CoreAudioProcs.directory numberOfProcesses currentPid buffer proc_name)
                query) as [[H|[name H]] _];
      [now left|right].
    apply directory_pids in H. destruct H as [H _].
    unfold CoreAudioProcs.EnumerateAllProcesses in H.
    destruct (numberOfProcesses <=? 0); [destruct H|].
    now apply coreaudio_walk_in in H.
Qed.

Lemma session_pids_in (ss : list (option Z)) (p : Z) :
  In p (WasapiProcs.session_pids ss) <-> p <> 0 /\ In (Some p) ss.
Proof.
  induction ss as [|[q|] ss IH]; cbn [WasapiProcs.session_pids In].
  - tauto.
  - destruct (Z.eqb_spec q 0) as [E|E]; cbn [In]; rewrite IH; split.
    + intros (H1 & H2). auto.
    + intros (H1 & [[= ->] | H2]); [congruence | auto].
    + intros [<- | (H1 & H2)]; auto.
    + intros (H1 & [[= ->] | H2]); auto.
  - rewrite IH. split; [intros (H1 & H2); auto | intros (H1 & [[=] | H2]); auto].
Qed.

Lemma active_sessions_in (a : WasapiProcs.AudioSessions) (p : Z) :
  In p (WasapiProcs.EnumerateActiveAudioSessions a) <->
  WasapiProcs.CoInitializeEx a = true /\ WasapiProcs.CoCreateInstance a = true /\
  WasapiProcs.GetDefaultAudioEndpoint a = true /\ WasapiProcs.Activate a = true /\
  WasapiProcs.GetSessionEnumerator a = true /\ WasapiProcs.GetCount a = true /\
  p <> 0 /\ In (Some p) (WasapiProcs.sessions a).
Proof.
  unfold WasapiProcs.EnumerateActiveAudioSessions.
  destruct (WasapiProcs.CoInitializeEx a), (WasapiProcs.CoCreateInstance a),
    (WasapiProcs.GetDefaultAudioEndpoint a), (WasapiProcs.Activate a),
    (WasapiProcs.GetSessionEnumerator a), (WasapiProcs.GetCount a);
    cbn [negb In]; rewrite ?session_pids_in;
    (split; [ try tauto | intros (? & ? & ? & ? & ? & ? & ?); try discriminate; auto ]).
Qed.

Lemma has_session_in (activePids : list Z) (p : Z) :
  WasapiProcs.has_session activePids p = true <-> In p activePids.
Proof.
  unfold WasapiProcs.has_session. rewrite existsb_exists. split.
  - intros (x & Hin & E). apply Z.eqb_eq in E. now subst.
  - intros H. exists p. split; [exact H | apply Z.eqb_refl].
Qed.

Lemma is_background_names (name : string) :
  WasapiProcs.is_background name = false <->
  ~ In name ["svchost.exe"; "conhost.exe"; "csrss.exe"; "dwm.exe"; "lsass.exe";
             "services.exe"; "smss.exe"; "wininit.exe"; "winlogon.exe"]%string.
Proof.
  unfold WasapiProcs.is_background. cbn [In].
  repeat match goal with
         | |- context [String.eqb name ?c] => destruct (String.eqb_spec name c)
         end; cbn [orb]; split; intros H; try discriminate; try reflexivity;
    try (exfalso; apply H; auto 12; fail);
    intuition congruence.
Qed.

Lemma is_system_names (name : string) :
  CoreAudioProcs.is_system name = false <->
  ~ In name ["kernel_task"; "launchd"; "WindowServer"]%string.
Proof.
  unfold CoreAudioProcs.is_system. cbn [In].
  repeat match goal with
         | |- context [String.eqb name ?c] => destruct (String.eqb_spec name c)
         end; cbn [orb]; split; intros H; try discriminate; try reflexivity;
    try (exfalso; apply H; auto 12; fail);
    intuition congruence.
Qed.

Lemma wasapi_list_sessions_in (system : list WasapiProcs.PROCESSENTRY32)
      (activePids allPids : list Z) (s : WasapiProcs.Session) :
  In s (WasapiProcs.list_sessions system activePids allPids) <->
  In (WasapiProcs.pid s) allPids /\
  WasapiProcs.processName s = WasapiProcs.GetProcessName system (WasapiProcs.pid s) /\
  WasapiProcs.processName s <> EmptyString /\
  WasapiProcs.is_background (WasapiProcs.processName s) = false /\
  WasapiProcs.hasActiveAudio s = WasapiProcs.has_session activePids (WasapiProcs.pid s).
Proof.
  induction allPids as [|p allPids IH]; cbn [WasapiProcs.list_sessions In]; [tauto|].
  destruct (String.eqb_spec (WasapiProcs.GetProcessName system p) EmptyString) as [E|E].
  - rewrite IH. split; [tauto|].
    intros ([<- | H1] & H2 & H3 & H4); [congruence | tauto].
  - destruct (WasapiProcs.is_background (WasapiProcs.GetProcessName system p)) eqn:B.
    + rewrite IH. split; [tauto|].
      intros ([<- | H1] & H2 & H3 & H4 & H5); [congruence | tauto].
    + cbn [In]. rewrite IH. split.
      * intros [<- | H]; [cbn; auto | tauto].
      * intros ([E1 | H1] & H2 & H3 & H4 & H5); [left | tauto].
        destruct s as [sp sn sf].
        cbn [WasapiProcs.pid WasapiProcs.processName WasapiProcs.hasActiveAudio] in *.
        subst. reflexivity.
Qed.

Lemma coreaudio_list_sessions_in (proc_name : Z -> option string)
      (allPids : list Z) (s : WasapiProcs.Session) :
  In s (CoreAudioProcs.list_sessions proc_name allPids) <->
  In (WasapiProcs.pid s) allPids /\
  WasapiProcs.processName s = CoreAudioProcs.GetProcessName proc_name (WasapiProcs.pid s) /\
  WasapiProcs.processName s <> EmptyString /\
  CoreAudioProcs.is_system (WasapiProcs.processName s) = false /\
  WasapiProcs.hasActiveAudio s = false.
Proof.
  induction allPids as [|p allPids IH]; cbn [CoreAudioProcs.list_sessions In]; [tauto|].
  destruct (String.eqb_spec (CoreAudioProcs.GetProcessName proc_name p) EmptyString) as [E|E].
  - rewrite IH. split; [tauto|].
    intros ([<- | H1] & H2 & H3 & H4); [congruence | tauto].
  - destruct (CoreAudioProcs.is_system (CoreAudioProcs.GetProcessName proc_name p)) eqn:B.
    + rewrite IH. split; [tauto|].
      intros ([<- | H1] & H2 & H3 & H4 & H5); [congruence | tauto].
    + cbn [In]. rewrite IH. split.
      * intros [<- | H]; [cbn; auto | tauto].
      * intros ([E1 | H1] & H2 & H3 & H4 & H5); [left | tauto].
        destruct s as [sp sn sf].
        cbn [WasapiProcs.pid WasapiProcs.processName WasapiProcs.hasActiveAudio] in *.
        subst. reflexivity.
Qed.

(** X21: what [enumerateAudioSessions] lists on Windows.  An entry is
    listed exactly when its PID belongs to a process of the snapshot that
    can be opened and is not PID 0, PID 4 or the caller, its name is the
    one [GetProcessName] reads, that name is not empty and is none of the
    nine background names; its [hasActiveAudio] flag is true exactly when
    the session enumeration succeeded and some audio session reports that
    PID. *)
Theorem X21_wasapi_session_listing
        (snapshot_ok : bool) (current : Z) (system : list WasapiProcs.PROCESSENTRY32)
        (a : WasapiProcs.AudioSessions) (s : WasapiProcs.Session) :
  In s (WasapiProcs.EnumerateAudioSessions snapshot_ok current system a) <->
  snapshot_ok = true /\
  WasapiProcs.pid s <> 0 /\ WasapiProcs.pid s <> 4 /\ WasapiProcs.pid s <> current /\
  (exists pe32, In pe32 system /\
                WasapiProcs.th32ProcessID pe32 = WasapiProcs.pid s /\
                WasapiProcs.can_query pe32 = true) /\
  WasapiProcs.processName s = WasapiProcs.GetProcessName system (WasapiProcs.pid s) /\
  WasapiProcs.processName s <> EmptyString /\
  ~ In (WasapiProcs.processName s)
       ["svchost.exe"; "conhost.exe"; "csrss.exe"; "dwm.exe"; "lsass.exe";
        "services.exe"; "smss.exe"; "wininit.exe"; "winlogon.exe"]%string /\
  (WasapiProcs.hasActiveAudio s = true <->
   WasapiProcs.CoInitializeEx a = true /\ WasapiProcs.CoCreateInstance a = true /\
   WasapiProcs.GetDefaultAudioEndpoint a = true /\ WasapiProcs.Activate a = true /\
   WasapiProcs.GetSessionEnumerator a = true /\ WasapiProcs.GetCount a = true /\
   In (Some (WasapiProcs.pid s)) (WasapiProcs.sessions a)).
Proof.
  unfold WasapiProcs.EnumerateAudioSessions. rewrite wasapi_list_sessions_in.
  rewrite is_background_names.
  unfold WasapiProcs.EnumerateAllProcesses.
  destruct snapshot_ok; cbn [negb In].
  - rewrite wasapi_walk_in. split.
    + intros ((H0 & H4 & Hc & Hex) & Hn & Hne & Hb & Hf).
      repeat (split; [assumption|]); try assumption.
      split; [reflexivity|]. repeat (split; [assumption|]).
      rewrite Hf, has_session_in, active_sessions_in. tauto.
    + intros (_ & H0 & H4 & Hc & Hex & Hn & Hne & Hb & Hf).
      repeat (split; [tauto|]).
      destruct (WasapiProcs.hasActiveAudio s) eqn:F.
      * symmetry. apply has_session_in, active_sessions_in. tauto.
      * destruct (WasapiProcs.has_session (WasapiProcs.EnumerateActiveAudioSessions a)
                                          (WasapiProcs.pid s)) eqn:G; [|reflexivity].
        apply has_session_in, active_sessions_in in G.
        assert (false = true) by (apply Hf; tauto). discriminate.
  - split; [tauto | intros (H & _); discriminate].
Qed.

(** X22: what [enumerateAudioSessions] lists on macOS.  An entry is listed
    exactly when its PID is a positive PID of the list other than the
    caller's, its name is the non-empty name [proc_name] gives and is not
    [kernel_task], [launchd] or [WindowServer]; and its [hasActiveAudio]
    flag is false, always. *)
Theorem X22_coreaudio_session_listing
        (numberOfProcesses currentPid : Z) (buffer : list Z)
        (proc_name : Z -> option string) (s : WasapiProcs.Session) :
  In s (CoreAudioProcs.EnumerateAudioSessions numberOfProcesses currentPid buffer proc_name) <->
  0 < numberOfProcesses /\
  0 < WasapiProcs.pid s /\ WasapiProcs.pid s <> currentPid /\
  In (WasapiProcs.pid s) buffer /\
  proc_name (WasapiProcs.pid s) = Some (WasapiProcs.processName s) /\
  WasapiProcs.processName s <> EmptyString /\
  ~ In (WasapiProcs.processName s) ["kernel_task"; "launchd"; "WindowServer"]%string /\
  WasapiProcs.hasActiveAudio s = false.
Proof.
  unfold CoreAudioProcs.EnumerateAudioSessions. rewrite coreaudio_list_sessions_in.
  rewrite is_system_names.
  unfold CoreAudioProcs.EnumerateAllProcesses, CoreAudioProcs.GetProcessName.
  destruct (Z.leb_spec numberOfProcesses 0) as [E|E]; cbn [In].
  - split; [tauto | intros (H & _); lia].
  - rewrite coreaudio_walk_in.
    destruct (proc_name (WasapiProcs.pid s)) as [n|] eqn:P.
    + split.
      * intros ((H1 & H2 & H3) & Hn & Hne & Hb & Hf). subst n. tauto.
      * intros (_ & H1 & H2 & H3 & [= ->] & Hne & Hb & Hf). tauto.
    + split.
      * intros (_ & Hn & Hne & _). congruence.
      * intros (_ & _ & _ & _ & [=] & _).
Qed.

(** ** The device resolvers and the output router *)

Lemma prefix_app (pat s : string) :
  String.prefix pat s = true <-> exists after, s = (pat ++ after)%string.
Proof.
  revert s. induction pat as [|c pat IH]; intros [|d s];
    cbn [String.prefix String.append].
  - split; [intros _; now exists EmptyString | reflexivity].
  - split; [intros _; now exists (String d s) | reflexivity].
  - split; [discriminate | intros (after & [=])].
  - destruct (Ascii.ascii_dec c d) as [->|N].
    + rewrite IH. split.
      * intros (after & ->). now exists after.
      * intros (after & [= ->]). now exists after.
    + split; [discriminate | intros (after & [= E _]); congruence].
Qed.

Lemma contains_spec (pat s : string) :
  Devices.contains pat s = true <->
  exists before after, s = (before ++ pat ++ after)%string.
Proof.
  induction s as [|d s IH]; cbn [Devices.contains]; rewrite orb_true_iff, prefix_app.
  - split.
    + intros [(after & E) | [=]]. now exists EmptyString, after.
    + intros (before & after & E). left.
      destruct before; cbn [String.append] in E; [now exists after | discriminate].
  - rewrite IH. split.
    + intros [(after & E) | (before & after & ->)].
      * now exists EmptyString, after.
      * now exists (String d before), after.
    + intros (before & after & E). destruct before as [|b before]; cbn [String.append] in E.
      * left. now exists after.
      * right. injection E as _ ->. now exists before, after.
Qed.

Lemma is_blackhole_eligible (hal : Devices.HAL) (scope : Devices.Scope) (d : Z) :
  Devices.is_blackhole hal scope d = true <-> Devices.Eligible hal scope d.
Proof.
  unfold Devices.is_blackhole, Devices.Eligible, Devices.Mentions.
  destruct (Devices.DeviceName hal scope d) as [n|].
  - cbv zeta.
    destruct (Devices.contains "blackhole" (Devices.transform Procs.tolower n)) eqn:B;
      destruct (Devices.contains "2ch" (Devices.transform Procs.tolower n)) eqn:C;
      cbn [andb].
    + apply contains_spec in B. apply contains_spec in C.
      destruct (Devices.StreamConfigurationSize hal scope d) as [size|].
      * rewrite Z.gtb_ltb, Z.ltb_lt. split.
        -- intros H. exists n, size. auto.
        -- intros (n' & size' & [= <-] & _ & _ & [= <-] & H). exact H.
      * split; [discriminate | intros (n' & size' & _ & _ & _ & [=] & _)].
    + split; [discriminate|].
      intros (n' & size' & [= <-] & _ & H & _). apply contains_spec in H. congruence.
    + split; [discriminate|].
      intros (n' & size' & [= <-] & H & _). apply contains_spec in H. congruence.
    + split; [discriminate|].
      intros (n' & size' & [= <-] & H & _). apply contains_spec in H. congruence.
  - split; [discriminate | intros (n' & size' & [=] & _)].
Qed.

Lemma search_first (hal : Devices.HAL) (scope : Devices.Scope) (devices : list Z) :
  (exists before after,
      devices = before ++ Devices.search hal scope devices :: after /\
      Forall (fun d => ~ Devices.Eligible hal scope d) before /\
      Devices.Eligible hal scope (Devices.search hal scope devices)) \/
  (Devices.search hal scope devices = 0 /\
   Forall (fun d => ~ Devices.Eligible hal scope d) devices).
Proof.
  induction devices as [|d devices IH]; cbn [Devices.search].
  - right. split; [reflexivity | constructor].
  - destruct (Devices.is_blackhole hal scope d) eqn:E.
    + left. exists [], devices. split; [reflexivity|]. split; [constructor|].
      now apply is_blackhole_eligible.
    + assert (N : ~ Devices.Eligible hal scope d).
      { intros H. apply is_blackhole_eligible in H. congruence. }
      destruct IH as [(before & after & Hd & Hb & He) | (H0 & Hall)].
      * left. exists (d :: before), after. split; [cbn; now f_equal|].
        split; [now constructor | exact He].
      * right. split; [exact H0 | now constructor].
Qed.

(** X23: the BlackHole resolvers return the first device of the list whose
    name, in any mix of cases, holds both "blackhole" and "2ch" and which
    has streams in the scope asked for (input for capture, output for
    routing).  They return 0 when the list cannot be read or no device
    qualifies. *)
Theorem X23_blackhole_resolver_first_eligible (scope : Devices.Scope) (hal : Devices.HAL) :
  let r := match scope with
           | Devices.Input => Devices.FindBlackHoleInputDevice hal
           | Devices.Output => Devices.FindBlackHoleOutputDevice hal
           end in
  (exists before after,
      Devices.GetDevicesSize hal = true /\
      Devices.GetDevices hal = Some (before ++ r :: after) /\
      Forall (fun d => ~ Devices.Eligible hal scope d) before /\
      Devices.Eligible hal scope r) \/
  (r = 0 /\
   (Devices.GetDevicesSize hal = false \/ Devices.GetDevices hal = None \/
    exists devices, Devices.GetDevices hal = Some devices /\
                    Forall (fun d => ~ Devices.Eligible hal scope d) devices)).
Proof.
  cbv zeta.
  assert (E : match scope with
              | Devices.Input => Devices.FindBlackHoleInputDevice hal
              | Devices.Output => Devices.FindBlackHoleOutputDevice hal
              end = Devices.find_blackhole scope hal) by now destruct scope.
  rewrite E. clear E. unfold Devices.find_blackhole.
  destruct (Devices.GetDevicesSize hal); cbn [negb]; [|right; auto].
  destruct (Devices.GetDevices hal) as [devices|]; [|right; auto].
  destruct (search_first hal scope devices) as [(before & after & Hd & Hb & He) | (H0 & Hall)].
  - left. exists before, after. repeat split; try assumption. now f_equal.
  - right. split; [exact H0|]. right. right. now exists devices.
Qed.

Lemma route_success (hal : Devices.HAL) (o : Router.Output) :
  fst (Router.SetSystemOutputToBlackHole hal o) = true ->
  Devices.FindBlackHoleOutputDevice hal <> 0 /\
  Router.g_originalOutputDevice (snd (Router.SetSystemOutputToBlackHole hal o))
  = Router.default_output o /\
  Router.default_output (snd (Router.SetSystemOutputToBlackHole hal o))
  = Devices.FindBlackHoleOutputDevice hal.
Proof.
  unfold Router.SetSystemOutputToBlackHole, CoreAudio.kAudioDeviceUnknown.
  destruct (Devices.GetDefaultOutputDevice hal); cbn [negb]; [|discriminate].
  destruct (Z.eqb_spec (Devices.FindBlackHoleOutputDevice hal) 0) as [E|E]; [discriminate|].
  destruct (Devices.SetDefaultOutputDevice hal); cbn [negb]; [|discriminate].
  intros _. cbn. auto.
Qed.

Lemma restore_success (hal : Devices.HAL) (o : Router.Output) :
  Router.g_originalOutputDevice o <> CoreAudio.kAudioDeviceUnknown ->
  Devices.SetDefaultOutputDevice hal = true ->
  Router.RestoreSystemOutput hal o
  = (true, {| Router.g_originalOutputDevice := CoreAudio.kAudioDeviceUnknown;
              Router.default_output := Router.g_originalOutputDevice o;
              Router.log := Router.log o
                            ++ ["[addon] System output restored to original device"%string] |}).
Proof.
  intros Hn Hok. unfold Router.RestoreSystemOutput.
  destruct (Z.eqb_spec (Router.g_originalOutputDevice o) CoreAudio.kAudioDeviceUnknown);
    [contradiction|].
  rewrite Hok. reflexivity.
Qed.

Lemma restore_nothing (hal : Devices.HAL) (o : Router.Output) :
  Router.g_originalOutputDevice o = CoreAudio.kAudioDeviceUnknown ->
  Router.RestoreSystemOutput hal o
  = (false, Router.printf "[addon] No original output device to restore" o).
Proof.
  intros E. unfold Router.RestoreSystemOutput. rewrite E. reflexivity.
Qed.

(** X24: routing the system output to BlackHole and restoring it is a
    round trip.  When [setSystemOutputToBlackHole] returns true, the
    system output is the BlackHole device and the former output is
    remembered; a restore that can set the device then returns true and
    puts the former output back; and a second restore returns false and
    changes no device. *)
Theorem X24_route_then_restore_round_trip
        (hal1 hal2 hal3 : Devices.HAL) (o : Router.Output) :
  Router.default_output o <> CoreAudio.kAudioDeviceUnknown ->
  fst (Router.SetSystemOutputToBlackHole hal1 o) = true ->
  Devices.SetDefaultOutputDevice hal2 = true ->
  let o1 := snd (Router.SetSystemOutputToBlackHole hal1 o) in
  let o2 := snd (Router.RestoreSystemOutput hal2 o1) in
  let o3 := snd (Router.RestoreSystemOutput hal3 o2) in
  Router.default_output o1 = Devices.FindBlackHoleOutputDevice hal1 /\
  Router.g_originalOutputDevice o1 = Router.default_output o /\
  fst (Router.RestoreSystemOutput hal2 o1) = true /\
  Router.default_output o2 = Router.default_output o /\
  Router.g_originalOutputDevice o2 = CoreAudio.kAudioDeviceUnknown /\
  fst (Router.RestoreSystemOutput hal3 o2) = false /\
  Router.default_output o3 = Router.default_output o /\
  Router.g_originalOutputDevice o3 = CoreAudio.kAudioDeviceUnknown.
Proof.
  intros Hd Hset Hok. cbv zeta.
  destruct (route_success hal1 o Hset) as (Hbh & Horig & Hdef).
  set (o1 := snd (Router.SetSystemOutputToBlackHole hal1 o)) in *.
  split; [exact Hdef|]. split; [exact Horig|].
  rewrite (restore_success hal2 o1) by (rewrite ?Horig; assumption).
  cbn [fst snd]. rewrite restore_nothing by reflexivity.
  cbn [fst snd Router.printf Router.default_output Router.g_originalOutputDevice].
  rewrite Horig. repeat split.
Qed.

(** X25: routing while already routed forgets the device to go back to.
    After a successful [setSystemOutputToBlackHole], any further call
    that can read the default device overwrites the remembered device
    with BlackHole itself, whether or not that call succeeds; a restore
    that then returns true leaves BlackHole as the system output. *)
Theorem X25_second_route_forgets_original
        (hal1 hal2 hal3 : Devices.HAL) (o : Router.Output) :
  fst (Router.SetSystemOutputToBlackHole hal1 o) = true ->
  Devices.GetDefaultOutputDevice hal2 = true ->
  let o1 := snd (Router.SetSystemOutputToBlackHole hal1 o) in
  let o2 := snd (Router.SetSystemOutputToBlackHole hal2 o1) in
  Router.g_originalOutputDevice o1 = Router.default_output o /\
  Router.g_originalOutputDevice o2 = Devices.FindBlackHoleOutputDevice hal1 /\
  (fst (Router.RestoreSystemOutput hal3 o2) = true ->
   Router.default_output (snd (Router.RestoreSystemOutput hal3 o2))
   = Devices.FindBlackHoleOutputDevice hal1).
Proof.
  intros Hset Hget. cbv zeta.
  destruct (route_success hal1 o Hset) as (Hbh & Horig & Hdef).
  set (o1 := snd (Router.SetSystemOutputToBlackHole hal1 o)) in *.
  split; [exact Horig|].
  assert (H2 : Router.g_originalOutputDevice
                 (snd (Router.SetSystemOutputToBlackHole hal2 o1))
               = Devices.FindBlackHoleOutputDevice hal1).
  { unfold Router.SetSystemOutputToBlackHole. rewrite Hget. cbn [negb].
    destruct (Devices.FindBlackHoleOutputDevice hal2 =? CoreAudio.kAudioDeviceUnknown);
      [cbn; exact Hdef|].
    destruct (Devices.SetDefaultOutputDevice hal2); cbn; exact Hdef. }
  split; [exact H2|].
  set (o2 := snd (Router.SetSystemOutputToBlackHole hal2 o1)) in *.
  unfold Router.RestoreSystemOutput.
  destruct (Router.g_originalOutputDevice o2 =? CoreAudio.kAudioDeviceUnknown);
    [discriminate|].
  destruct (Devices.SetDefaultOutputDevice hal3); cbn [negb]; [|discriminate].
  intros _. cbn. exact H2.
Qed.

Lemma X24_witness :
  Router.default_output
    (snd (Router.RestoreSystemOutput Setups.studio
            (snd (Router.SetSystemOutputToBlackHole Setups.studio (Router.loaded 41)))))
  = 41.
Proof.
  assert (Hd : Router.default_output (Router.loaded 41) <> CoreAudio.kAudioDeviceUnknown)
    by (vm_compute; discriminate).
  assert (Hs : fst (Router.SetSystemOutputToBlackHole Setups.studio (Router.loaded 41)) = true)
    by (vm_compute; reflexivity).
  destruct (X24_route_then_restore_round_trip Setups.studio Setups.studio Setups.studio
              (Router.loaded 41) Hd Hs eq_refl) as (_ & _ & _ & H & _).
  exact H.
Defined.

Lemma X25_witness :
  Router.g_originalOutputDevice
    (snd (Router.SetSystemOutputToBlackHole Setups.studio
            (snd (Router.SetSystemOutputToBlackHole Setups.studio (Router.loaded 41)))))
  = Devices.FindBlackHoleOutputDevice Setups.studio.
Proof.
  assert (Hs : fst (Router.SetSystemOutputToBlackHole Setups.studio (Router.loaded 41)) = true)
    by (vm_compute; reflexivity).
  destruct (X25_second_route_forgets_original Setups.studio Setups.studio Setups.studio
              (Router.loaded 41) Hs eq_refl) as (_ & H & _).
  exact H.
Defined.

(** X26: [getRealOutputDevice] never names a BlackHole device.  When it
    answers with a string, this is the decimal identifier of the
    remembered device (of the system's default output when none is
    remembered), and the name of that device, if it can be read, does not
    hold "blackhole" in any mix of cases. *)
Theorem X26_real_output_device_is_never_blackhole
        (hal : Devices.HAL) (o : Router.Output) (s : string) :
  Router.GetRealOutputDevice hal o = Napi.Str s ->
  let d := if Router.g_originalOutputDevice o =? CoreAudio.kAudioDeviceUnknown
           then Router.default_output o else Router.g_originalOutputDevice o in
  s = Router.to_string d /\
  ~ (exists name, Devices.DeviceName hal Devices.Output d = Some name /\
                  Devices.Mentions "blackhole" name).
Proof.
  unfold Router.GetRealOutputDevice. cbv zeta.
  assert (A : forall d,
             match Devices.DeviceName hal Devices.Output d with
             | Some nameBuffer =>
                 if Devices.contains "blackhole"
                      (Devices.transform Procs.tolower nameBuffer)
                 then Napi.Null else Napi.Str (Router.to_string d)
             | None => Napi.Str (Router.to_string d)
             end = Napi.Str s ->
             s = Router.to_string d /\
             ~ (exists name, Devices.DeviceName hal Devices.Output d = Some name /\
                             Devices.Mentions "blackhole" name)).
  { intros d. destruct (Devices.DeviceName hal Devices.Output d) as [n|].
    - destruct (Devices.contains "blackhole" (Devices.transform Procs.tolower n)) eqn:C;
        [discriminate|].
      intros [= <-]. split; [reflexivity|].
      intros (name & [= <-] & H). apply contains_spec in H. congruence.
    - intros [= <-]. split; [reflexivity|]. intros (name & [=] & _). }
  destruct (Router.g_originalOutputDevice o =? CoreAudio.kAudioDeviceUnknown).
  - destruct (Devices.GetDefaultOutputDevice hal); cbn [negb]; [apply A | discriminate].
  - apply A.
Qed.

Lemma X26_witness :
  "41"%string = Router.to_string 41 /\
  ~ (exists name, Devices.DeviceName Setups.studio Devices.Output 41 = Some name /\
                  Devices.Mentions "blackhole" name).
Proof.
  apply (X26_real_output_device_is_never_blackhole Setups.studio (Router.loaded 41) "41").
  vm_compute. reflexivity.
Defined.

Lemma default_output_found (hal : Devices.HAL) (default : Z) :
  Devices.FindDefaultOutputDevice hal default <> 0 <->
  Devices.GetDefaultOutputDevice hal = true /\ default <> 0 /\
  exists size, Devices.StreamConfigurationSize hal Devices.Output default = Some size /\
               0 < size.
Proof.
  unfold Devices.FindDefaultOutputDevice, CoreAudio.kAudioDeviceUnknown.
  destruct (Devices.GetDefaultOutputDevice hal); cbn [negb].
  - destruct (Devices.StreamConfigurationSize hal Devices.Output default) as [size|].
    + rewrite Z.gtb_ltb. destruct (Z.ltb_spec 0 size) as [L|L].
      * split; [intros H; repeat split; [exact H | now exists size] | tauto].
      * split; [congruence | intros (_ & _ & size' & [= <-] & H); lia].
    + split; [congruence | intros (_ & _ & size' & [=] & _)].
  - split; [congruence | intros ([=] & _)].
Qed.

Lemma default_output_is_default (hal : Devices.HAL) (default : Z) :
  Devices.FindDefaultOutputDevice hal default <> 0 ->
  Devices.FindDefaultOutputDevice hal default = default.
Proof.
  unfold Devices.FindDefaultOutputDevice, CoreAudio.kAudioDeviceUnknown.
  destruct (Devices.GetDefaultOutputDevice hal); cbn [negb]; [|congruence].
  destruct (Devices.StreamConfigurationSize hal Devices.Output default) as [size|];
    [|congruence].
  destruct (size >? 0); congruence.
Qed.

(** X27: the verdict of [checkMultiOutputSetup].  [blackHoleInstalled]
    is true exactly when the output resolver finds a BlackHole device.
    [isConfigured] is true exactly when, in addition, the default output
    device can be read, is not 0, has a stream configuration of positive
    size and a name that holds "multi" or "aggregate" in any mix of
    cases.  [isConfigured] and [message] are both left unset exactly when
    BlackHole and the default device are found but the name of the
    default device cannot be read. *)
Theorem X27_setup_check_verdict (hal : Devices.HAL) (default : Z) :
  let r := Router.CheckMultiOutputSetup hal default in
  (Router.blackHoleInstalled r = true <-> Devices.FindBlackHoleOutputDevice hal <> 0) /\
  (Router.isConfigured r = Some true <->
   Devices.FindBlackHoleOutputDevice hal <> 0 /\
   Devices.GetDefaultOutputDevice hal = true /\ default <> 0 /\
   (exists size, Devices.StreamConfigurationSize hal Devices.Output default = Some size /\
                 0 < size) /\
   exists name, Devices.DeviceName hal Devices.Output default = Some name /\
                (Devices.Mentions "multi" name \/ Devices.Mentions "aggregate" name)) /\
  (Router.isConfigured r = None <->
   Devices.FindBlackHoleOutputDevice hal <> 0 /\
   Devices.FindDefaultOutputDevice hal default <> 0 /\
   Devices.DeviceName hal Devices.Output default = None) /\
  (Router.message r = None <-> Router.isConfigured r = None).
Proof.
  cbv zeta. unfold Router.CheckMultiOutputSetup, CoreAudio.kAudioDeviceUnknown.
  destruct (Z.eqb_spec (Devices.FindBlackHoleOutputDevice hal) 0) as [B|B].
  - cbn. repeat split; try discriminate; try tauto; intros (H & _); congruence.
  - destruct (Z.eqb_spec (Devices.FindDefaultOutputDevice hal default) 0) as [D|D].
    + cbn. repeat split; try discriminate; try tauto.
      intros (_ & H1 & H2 & H3 & _).
      exfalso. apply (proj2 (default_output_found hal default)); [tauto | exact D].
    + pose proof (default_output_is_default hal default D) as Dd.
      pose proof (proj1 (default_output_found hal default) D) as (G & Dn & Hsz).
      rewrite Dd.
      destruct (Devices.DeviceName hal Devices.Output default) as [n|].
      * cbv zeta. cbn [Router.blackHoleInstalled Router.isConfigured Router.message].
        split; [tauto|]. split; [|split].
        -- split.
           ++ intros [= H]. apply orb_true_iff in H.
              repeat (split; [assumption|]).
              exists n. split; [reflexivity|].
              unfold Devices.Mentions.
              destruct H as [H|H]; apply contains_spec in H; auto.
           ++ intros (_ & _ & _ & _ & name & [= <-] & H). f_equal.
              apply orb_true_iff. unfold Devices.Mentions in H.
              destruct H as [H|H]; apply contains_spec in H; auto.
        -- split; [discriminate | intros (_ & _ & [=])].
        -- split; discriminate.
      * cbn. repeat split; try discriminate; try tauto.
        intros (_ & _ & _ & _ & name & [=] & _).
Qed.

(** ** The exported functions *)

Lemma callback_needs_two (info : Napi.CallbackInfo) :
  Napi.IsFunction (Napi.arg info 1) = true -> (Napi.Length info <? 2) = false.
Proof.
  unfold Napi.arg, Napi.Length.
  destruct info as [|v [|v' rest]]; cbn [nth Napi.IsFunction]; try discriminate.
  intros _. apply Z.ltb_ge. cbn [length]. lia.
Qed.

Lemma length_two (v v' : Napi.Value) (rest : list Napi.Value) :
  (Napi.Length (v :: v' :: rest) <? 2) = false /\
  (Napi.Length (v :: v' :: rest) <? 1) = false /\
  (Napi.Length (v :: v' :: rest) >? 0) = true.
Proof.
  unfold Napi.Length. cbn [length]. rewrite Z.gtb_ltb.
  split; [|split]; [apply Z.ltb_ge | apply Z.ltb_ge | apply Z.ltb_lt]; lia.
Qed.

Lemma length_one (v : Napi.Value) (rest : list Napi.Value) :
  (Napi.Length (v :: rest) <? 1) = false.
Proof. unfold Napi.Length. cbn [length]. apply Z.ltb_ge. lia. Qed.

(** X28: the two add-ons read the callback of [startCaptureExcludeCurrent]
    from different arguments.  On Windows a call with the callback alone
    throws "Callback required" and changes nothing, and a call with the
    callback second does what [startCapture] does without a PID; on macOS
    the call with the callback first does that. *)
Theorem X28_exclude_current_callback_position
        (bw : Wasapi.Backend) (bc : CoreAudio.Backend)
        (pid0 dev0 : Z) (dsp0 : Dsp.State) (fmt0 : CoreAudio.AudioStreamBasicDescription)
        (cb : nat) (v : Napi.Value) (rest : list Napi.Value)
        (aw : WasapiAddon.Addon) (ac : CoreAudioAddon.Addon) :
  WasapiAddon.StartCaptureExcludeCurrent bw [Napi.Func cb] aw
  = Some (Napi.Throw (Napi.TypeError "Callback required"), aw) /\
  WasapiAddon.StartCaptureExcludeCurrent bw (v :: Napi.Func cb :: rest) aw
  = WasapiAddon.StartCapture bw [Napi.Undefined; Napi.Func cb] aw /\
  CoreAudioAddon.StartCaptureExcludeCurrent pid0 dev0 dsp0 fmt0 bc (Napi.Func cb :: rest) ac
  = CoreAudioAddon.StartCapture pid0 dev0 dsp0 fmt0 bc [Napi.Undefined; Napi.Func cb] ac.
Proof.
  split; [reflexivity|]. split.
  - unfold WasapiAddon.StartCaptureExcludeCurrent, WasapiAddon.StartCapture.
    destruct (length_two v (Napi.Func cb) rest) as (_ & -> & _).
    reflexivity.
  - unfold CoreAudioAddon.StartCaptureExcludeCurrent, CoreAudioAddon.StartCapture.
    rewrite length_one. reflexivity.
Qed.

(** X29: [startCaptureByProcessName] with a name that resolves to no
    process starts nothing.  It throws "Process not found: " followed by
    the name, leaves the capture object as it was (a capture that is
    running goes on), and releases the thread-safe function it made for
    this call, once. *)
Theorem X29_unknown_name_starts_nothing
        (bw : Wasapi.Backend) (snapshot_ok : bool) (current : Z)
        (system : list WasapiProcs.PROCESSENTRY32)
        (bc : CoreAudio.Backend) (pid0 dev0 : Z) (dsp0 : Dsp.State)
        (fmt0 : CoreAudio.AudioStreamBasicDescription)
        (numberOfProcesses currentPid : Z) (buffer : list Z)
        (proc_name : Z -> option string)
        (name : string) (cb : nat) (rest : list Napi.Value)
        (aw : WasapiAddon.Addon) (ac : CoreAudioAddon.Addon) :
  name <> EmptyString ->
  WasapiProcs.FindPidForProcess snapshot_ok current system name = 0 ->
  CoreAudioProcs.FindPidForProcess numberOfProcesses currentPid buffer proc_name name = 0 ->
  (exists aw',
      WasapiAddon.StartCaptureByProcessName bw snapshot_ok current system
        (Napi.Str name :: Napi.Func cb :: rest) aw
      = Some (Napi.Throw (Napi.Error ("Process not found: " ++ name)), aw') /\
      WasapiAddon.g_capture aw' = WasapiAddon.g_capture aw /\
      WasapiAddon.created aw' = S (WasapiAddon.created aw) /\
      Io.released (WasapiAddon.stdout aw')
      = Io.released (WasapiAddon.stdout aw) ++ [S (WasapiAddon.created aw)]) /\
  (exists ac',
      CoreAudioAddon.StartCaptureByProcessName pid0 dev0 dsp0 fmt0 bc
        numberOfProcesses currentPid buffer proc_name
        (Napi.Str name :: Napi.Func cb :: rest) ac
      = Some (Napi.Throw (Napi.Error ("Process not found: " ++ name)), ac') /\
      CoreAudioAddon.g_capture ac' = CoreAudioAddon.g_capture ac /\
      CoreAudioAddon.statics ac' = CoreAudioAddon.statics ac /\
      CoreAudioAddon.created ac' = S (CoreAudioAddon.created ac) /\
      Io.released (CoreAudioAddon.out ac')
      = Io.released (CoreAudioAddon.out ac) ++ [S (CoreAudioAddon.created ac)]).
Proof.
  intros Hne Hw Hc.
  assert (E : String.eqb name EmptyString = false) by now apply String.eqb_neq.
  split.
  - unfold WasapiAddon.StartCaptureByProcessName.
    destruct (length_two (Napi.Str name) (Napi.Func cb) rest) as (-> & _ & _).
    cbn [Napi.arg nth Napi.IsString Napi.IsFunction Napi.Utf8Value negb
         WasapiAddon.New].
    rewrite E, Hw. cbn [negb Z.eqb].
    eexists. split; [reflexivity|]. cbn. auto.
  - unfold CoreAudioAddon.StartCaptureByProcessName.
    destruct (length_two (Napi.Str name) (Napi.Func cb) rest) as (-> & _ & _).
    cbn [Napi.arg nth Napi.IsString Napi.IsFunction Napi.Utf8Value negb
         CoreAudioAddon.New].
    rewrite E, Hc. cbn [negb Z.eqb].
    eexists. split; [reflexivity|]. cbn. auto.
Qed.

Lemma X29_witness :
  exists aw',
    WasapiAddon.StartCaptureByProcessName Examples.windows_ok true 900 Setups.desktop
      [Napi.Str "electron"; Napi.Func 7] Setups.windows_busy
    = Some (Napi.Throw (Napi.Error "Process not found: electron"), aw') /\
    WasapiAddon.g_capture aw' = WasapiAddon.g_capture Setups.windows_busy.
Proof.
  destruct (X29_unknown_name_starts_nothing
              Examples.windows_ok true 900 Setups.desktop
              Examples.mac_ok 0 0 Dsp.init Examples.int16_stereo_48k
              3 900 [900; 1200] Setups.mac_names
              "electron" 7 [] Setups.windows_busy
              {| CoreAudioAddon.g_capture := None;
                 CoreAudioAddon.statics :=
                   {| CoreAudio.callbackCount := 0; CoreAudio.debugCount := 0;
                      CoreAudio.sampleCount := 0 |};
                 CoreAudioAddon.out := Io.empty; CoreAudioAddon.created := O |})
    as ((aw' & H1 & H2 & _) & _).
  - discriminate.
  - vm_compute. reflexivity.
  - vm_compute. reflexivity.
  - exists aw'. split; [exact H1 | exact H2].
Defined.

(** X30: a start that is refused because a capture is running leaks the
    thread-safe function made for the call.  [startCapture] and
    [startCaptureExcludeCurrent] return false; one more thread-safe
    function has been made; the capture object, with the function it
    holds and everything it released, is unchanged on Windows, and
    nothing is released on either platform. *)
Theorem X30_refused_start_releases_nothing
        (bw : Wasapi.Backend) (bc : CoreAudio.Backend)
        (pid0 dev0 : Z) (dsp0 : Dsp.State) (fmt0 : CoreAudio.AudioStreamBasicDescription)
        (info : Napi.CallbackInfo)
        (aw : WasapiAddon.Addon) (cw : Wasapi.Capture)
        (ac : CoreAudioAddon.Addon) (cc : CoreAudio.Capture) :
  Napi.IsFunction (Napi.arg info 1) = true ->
  WasapiAddon.g_capture aw = Some cw -> Wasapi.running_ cw = true ->
  CoreAudioAddon.g_capture ac = Some cc -> CoreAudio.running_ cc = true ->
  let aw' := {| WasapiAddon.g_capture := Some cw;
                WasapiAddon.created := S (WasapiAddon.created aw);
                WasapiAddon.stdout := WasapiAddon.stdout aw |} in
  WasapiAddon.StartCapture bw info aw
  = Some (Napi.Return (Napi.Boolean false), aw') /\
  WasapiAddon.StartCaptureExcludeCurrent bw info aw
  = Some (Napi.Return (Napi.Boolean false), aw') /\
  exists ac',
    CoreAudioAddon.StartCapture pid0 dev0 dsp0 fmt0 bc info ac
    = Some (Napi.Return (Napi.Boolean false), ac') /\
    CoreAudioAddon.g_capture ac' = Some cc /\
    CoreAudioAddon.created ac' = S (CoreAudioAddon.created ac) /\
    Io.released (CoreAudioAddon.out ac') = Io.released (CoreAudioAddon.out ac) /\
    Io.delivered (CoreAudioAddon.out ac') = Io.delivered (CoreAudioAddon.out ac).
Proof.
  intros Hf Hgw Hrw Hgc Hrc. cbv zeta.
  pose proof (callback_needs_two info Hf) as L2.
  assert (L1 : (Napi.Length info <? 1) = false).
  { apply Z.ltb_ge. apply Z.ltb_ge in L2. lia. }
  split; [|split].
  - unfold WasapiAddon.StartCapture. rewrite L2, Hf. cbn [orb negb WasapiAddon.New].
    unfold WasapiAddon.start. cbn [WasapiAddon.g_capture WasapiAddon.created
                                   WasapiAddon.stdout].
    rewrite Hgw. unfold Wasapi.Start. rewrite Hrw. reflexivity.
  - unfold WasapiAddon.StartCaptureExcludeCurrent.
    rewrite L1, Hf. cbn [orb negb WasapiAddon.New].
    unfold WasapiAddon.start. cbn [WasapiAddon.g_capture WasapiAddon.created
                                   WasapiAddon.stdout].
    rewrite Hgw. unfold Wasapi.Start. rewrite Hrw. reflexivity.
  - unfold CoreAudioAddon.StartCapture. rewrite L2, Hf. cbn [orb negb CoreAudioAddon.New].
    unfold CoreAudioAddon.start. cbn [CoreAudioAddon.g_capture CoreAudioAddon.created
                                      CoreAudioAddon.statics CoreAudioAddon.out].
    rewrite Hgc. unfold CoreAudio.Start.
    cbn [CoreAudioAddon.world CoreAudio.capture]. rewrite Hrc.
    eexists. split; [reflexivity|]. cbn. auto.
Qed.

Lemma X30_witness :
  WasapiAddon.StartCapture Examples.windows_ok [Napi.Number 5; Napi.Func 7]
                           Setups.windows_busy
  = Some (Napi.Return (Napi.Boolean false),
          {| WasapiAddon.g_capture := Some Examples.windows_running;
             WasapiAddon.created := 2%nat;
             WasapiAddon.stdout := Io.empty |}).
Proof.
  assert (Hrw : Wasapi.running_ Examples.windows_running = true) by (lazy; reflexivity).
  assert (Hrc : CoreAudio.running_ (CoreAudio.capture Examples.mac_running) = true)
    by (lazy; reflexivity).
  destruct (X30_refused_start_releases_nothing
              Examples.windows_ok Examples.mac_ok 0 0 Dsp.init Examples.int16_stereo_48k
              [Napi.Number 5; Napi.Func 7]
              Setups.windows_busy Examples.windows_running
              Setups.mac_busy (CoreAudio.capture Examples.mac_running)
              eq_refl eq_refl Hrw eq_refl Hrc) as (H & _).
  exact H.
Defined.
